(** * hl-create-video-AI: provider fallback and scene timeline

    A shallow embedding of the parts of the repository that decide how a
    generation call falls back between providers and how the per-scene
    clips are timed and joined:

    - [modules/voice_generator.py]: [VoiceGenerator.generate_voice];
    - [modules/image_generator.py]: [ImageGenerator.generate_image],
      [_generate_pollinations_image], [generate_batch_images], and the
      per-scene loop of [app.py] that drives [generate_image];
    - [modules/video_maker.py]: [_apply_ken_burns_effect],
      [_concatenate_with_transitions], [_create_video_with_tts].

    Conventions.  A Python [str] is a list of Unicode code points.  File
    contents are byte lists and the file system is a finite map from paths
    to contents.  Durations are exact rationals ([Q]); the rounding of
    Python floats is not modelled.  Everything outside the repository
    (network replies, codecs, the encoder) is read from an explicit
    environment record, so every function below is a total, executable
    function of its inputs, the environment and the current world. *)

From Stdlib Require Import QArith Qminmax Lqa.
From Stdlib Require Import List Sorted Ascii String Strings.Byte NArith ZArith Lia.
From stdpp Require Import base option list strings gmap pretty.

Local Open Scope string_scope.
Local Open Scope list_scope.
Local Open Scope nat_scope.

(** ** Python strings *)

Module PyStr.

(** A Python [str]: a sequence of code points. *)
Definition pystr : Type := list N.

(** Embedding of an ASCII literal. *)
Definition lit (s : string) : pystr :=
  List.map N_of_ascii (list_ascii_of_string s).

(** [str.isspace] on one code point, which is also the set that
    [str.strip()] without argument removes. *)
Definition is_space (c : N) : bool :=
  ((9 <=? c) && (c <=? 13)
   || (28 <=? c) && (c <=? 32)
   || (c =? 133) || (c =? 160) || (c =? 5760)
   || (8192 <=? c) && (c <=? 8202)
   || (c =? 8232) || (c =? 8233) || (c =? 8239) || (c =? 8287)
   || (c =? 12288))%N.

Fixpoint lstrip (s : pystr) : pystr :=
  match s with
  | [] => []
  | c :: s' => if is_space c then lstrip s' else s
  end.

Definition rstrip (s : pystr) : pystr := rev (lstrip (rev s)).

(** [s.strip()] *)
Definition strip (s : pystr) : pystr := rstrip (lstrip s).

(** [s.lower()] on an ASCII provider name. *)
Definition lower_char (c : ascii) : ascii :=
  let n := nat_of_ascii c in
  if (65 <=? n) && (n <=? 90) then ascii_of_nat (n + 32) else c.

Fixpoint lower (s : string) : string :=
  match s with
  | EmptyString => EmptyString
  | String c s' => String (lower_char c) (lower s')
  end.

(** [s.title()] on a lower-case word: the first letter in upper case. *)
Definition title (s : string) : string :=
  match s with
  | EmptyString => EmptyString
  | String c s' =>
      let n := nat_of_ascii c in
      String (if (97 <=? n) && (n <=? 122) then ascii_of_nat (n - 32) else c) s'
  end.

(** Truthiness of a [str]: [bool(s)]. *)
Definition truthy (s : pystr) : bool :=
  match s with [] => false | _ => true end.

(** [needle in hay] on texts. *)
Fixpoint starts_with (needle hay : pystr) : bool :=
  match needle, hay with
  | [], _ => true
  | c :: needle', d :: hay' => N.eqb c d && starts_with needle' hay'
  | _ :: _, [] => false
  end.

Fixpoint occurs_in (needle hay : pystr) : bool :=
  starts_with needle hay
  || match hay with
     | [] => false
     | _ :: hay' => occurs_in needle hay'
     end.

(** [needle in hay] on header strings. *)
Definition contains (needle hay : string) : bool :=
  match String.index 0 needle hay with Some _ => true | None => false end.

(** [posixpath.dirname]: the part before the last slash, with trailing
    slashes removed unless it consists of slashes only. *)
Fixpoint rfind_slash (s : list ascii) (pos : nat) (last : option nat)
  : option nat :=
  match s with
  | [] => last
  | c :: s' =>
      rfind_slash s' (S pos)
        (if Ascii.eqb c "/"%char then Some pos else last)
  end.

Fixpoint drop_trailing_slashes (rs : list ascii) : list ascii :=
  match rs with
  | c :: rs' => if Ascii.eqb c "/"%char then drop_trailing_slashes rs' else rs
  | [] => []
  end.

Definition dirname (p : string) : string :=
  let cs := list_ascii_of_string p in
  let i := match rfind_slash cs 0 None with Some k => S k | None => 0 end in
  let head := firstn i cs in
  if forallb (fun c => Ascii.eqb c "/"%char) head then
    string_of_list_ascii head
  else
    string_of_list_ascii (rev (drop_trailing_slashes (rev head))).

End PyStr.
Export PyStr.

(** ** The world outside the program *)

Definition bytes : Type := list byte.

(** What one HTTP request of the Pollinations loop comes back with. *)
Inductive reply :=
| ReplyTimeout                       (* requests.exceptions.Timeout *)
| ReplyRequestError (reason : string) (* other RequestException *)
| ReplyOtherError (reason : string)   (* any other Exception *)
| ReplyHttp (status : Z) (content_type : string) (body : bytes).

(** What a provider adapter does: it either produces the artifact bytes
    (which the adapter writes to the output path) or raises. *)
Inductive outcome :=
| Produced (content : bytes)
| Failed (reason : string).

(** Observable actions, in program order. *)
Inductive event :=
| EvMakeDirs (dir : string)
| EvTts (provider : string) (text : pystr) (output_path : string)
| EvImage (provider : string) (prompt : pystr) (output_path : string)
| EvHttpGet (url_index retry : nat)
| EvSleep (seconds : nat)
| EvPlaceholder (output_path : string)
| EvRender (output_path : string).

Record world := World {
  fs : gmap string bytes;    (* files on disk *)
  trace : list event         (* what has been done so far, oldest first *)
}.

Definition emit (e : event) (w : world) : world :=
  World (fs w) (trace w ++ [e]).

Definition write_file (path : string) (content : bytes) (w : world) : world :=
  World (<[path := content]> (fs w)) (trace w).

Definition path_exists (path : string) (w : world) : bool :=
  match fs w !! path with Some _ => true | None => false end.

(** Clips and videos, as far as the composition code looks at them. *)

(** The parameters [_apply_ken_burns_effect] picks for a clip. *)
Record motion := Motion {
  zoom_speed : Q;
  pan_speed : Q;
  zoom_factor : Q
}.

(** Effects attached with [clip.with_effects([...])], in order. *)
Inductive fx :=
| Resize
| FadeIn (duration : Q)
| FadeOut (duration : Q).

Record clip := Clip {
  clip_scene : nat;             (* index of the scene the clip shows *)
  clip_image : string;          (* the image file *)
  clip_duration : Q;            (* seconds *)
  clip_effect : string;         (* the effect that was applied *)
  clip_motion : option motion;  (* Ken Burns parameters, if any *)
  clip_fx : list fx
}.

(** A narration clip after [audio_clip.set_start(current_time)]. *)
Record audio_clip := AudioClip {
  audio_scene : nat;
  audio_file : string;
  audio_start : Q;
  audio_length : Q
}.

(** A clip placed on the timeline by [concatenate_videoclips]. *)
Record segment := Segment {
  seg_start : Q;
  seg_clip : clip
}.

Record video := Video {
  timeline : list segment;
  narration : list audio_clip;   (* empty: no TTS track was set *)
  music : option string          (* background music mixed in, if any *)
}.

Record env := Env {
  (* text-to-speech adapters: provider name, text *)
  tts_backend : string -> pystr -> outcome;
  (* image adapters other than Pollinations: provider name, prompt *)
  image_backend : string -> pystr -> outcome;
  (* Pollinations: prompt, index of the URL variant, retry number *)
  pollinations_get : pystr -> nat -> nat -> reply;
  (* PIL crop-and-save of [_remove_pollinations_logo]; [None] when it raises *)
  crop_logo : bytes -> option bytes;
  (* [api_manager.get_api_key(name)] is truthy *)
  has_api_key : string -> bool;
  (* PIL drawing of the gradient placeholder and of the plain image *)
  draw_placeholder : pystr -> option bytes;
  draw_plain_image : option bytes;
  (* [AudioFileClip(path).duration]; [None] when the file cannot be opened *)
  audio_duration : bytes -> option Q;
  (* [ImageClip(path, ...)] can decode the file *)
  decodes_as_image : bytes -> bool;
  (* [str.lower()] on a scene text (Unicode case mapping) *)
  unicode_lower : pystr -> pystr;
  (* [write_videofile]: the bytes of the encoded file, [None] when it raises *)
  encode : video -> option bytes
}.

(** Exceptions, as far as the program tells them apart. *)
Inductive exn :=
| ValueError (msg : string)
| FileNotFoundError (path : string)
| AttributeError (name : string)
| IndexError
| ProviderError (reason : string)
| Exception_ (msg : string).

(** [str(e)] *)
Definition exn_str (e : exn) : string :=
  match e with
  | ValueError m => m
  | FileNotFoundError p => "[Errno 2] No such file or directory: '" ++ p ++ "'"
  | AttributeError n => "'VideoMaker' object has no attribute '" ++ n ++ "'"
  | IndexError => "list index out of range"
  | ProviderError r => r
  | Exception_ m => m
  end.

(** [f"{last_error}"] where [last_error] may still be [None]. *)
Definition fmt_last_error (last_error : option exn) : string :=
  match last_error with
  | None => "None"
  | Some e => exn_str e
  end.

Inductive result (A : Type) :=
| Ok (a : A)
| Raise (e : exn).
Arguments Ok {A} a.
Arguments Raise {A} e.

(** [os.makedirs(d, exist_ok=True)]: the empty path is refused. *)
Definition makedirs (d : string) (w : world) : result unit * world :=
  if String.eqb d "" then (Raise (FileNotFoundError ""), w)
  else (Ok tt, emit (EvMakeDirs d) w).

(** ** modules/voice_generator.py *)

Module VoiceGenerator.

(** [providers_to_try] of [generate_voice], chosen by [self.provider]. *)
Definition providers_to_try (self_provider : string) : list string :=
  if String.eqb self_provider "edge" then
    ["edge"; "elevenlabs"; "gtts"; "openai"; "azure"]
  else if String.eqb self_provider "openai" then
    ["openai"; "elevenlabs"; "gtts"; "edge"; "azure"]
  else if String.eqb self_provider "gtts" then
    ["gtts"; "elevenlabs"; "edge"; "openai"; "azure"]
  else if String.eqb self_provider "azure" then
    ["azure"; "elevenlabs"; "gtts"; "edge"; "openai"]
  else if String.eqb self_provider "elevenlabs" then
    ["elevenlabs"; "edge"; "gtts"; "openai"; "azure"]
  else
    ["elevenlabs"; "gtts"; "edge"; "openai"; "azure"].

(** The names the [if]/[elif] chain inside the loop dispatches on. *)
Definition known_provider (provider : string) : bool :=
  String.eqb provider "edge" || String.eqb provider "openai"
  || String.eqb provider "gtts" || String.eqb provider "azure"
  || String.eqb provider "elevenlabs".

(** One adapter call [self._generate_<provider>_tts(text, output_path, ..)]:
    on success the audio is on disk and the path is returned. *)
Definition call_adapter (E : env) (provider : string) (text : pystr)
    (output_path : string) (w : world) : result string * world :=
  let w1 := emit (EvTts provider text output_path) w in
  match tts_backend E provider text with
  | Produced audio => (Ok output_path, write_file output_path audio w1)
  | Failed reason => (Raise (ProviderError reason), w1)
  end.

(** The [for provider in providers_to_try] loop with its [try]/[except]. *)
Fixpoint try_providers (E : env) (providers : list string) (text : pystr)
    (output_path : string) (last_error : option exn) (w : world)
  : result string * world :=
  match providers with
  | [] =>
      (Raise (Exception_ ("All TTS providers failed. Last error: "
                          ++ fmt_last_error last_error)), w)
  | provider :: rest =>
      if known_provider provider then
        match call_adapter E provider text output_path w with
        | (Ok path, w') => (Ok path, w')
        | (Raise e, w') => try_providers E rest text output_path (Some e) w'
        end
      else try_providers E rest text output_path last_error w
  end.

(** [VoiceGenerator(provider).generate_voice(text, output_path, ...)] *)
Definition generate_voice (E : env) (self_provider : string) (text : pystr)
    (output_path : string) (w : world) : result string * world :=
  if negb (truthy text) then (Raise (ValueError "Text cannot be empty"), w)
  else
    let text := strip text in
    if negb (truthy text) then
      (Raise (ValueError "Text cannot be empty after stripping"), w)
    else
      match makedirs (dirname output_path) w with
      | (Raise e, w') => (Raise e, w')
      | (Ok _, w') =>
          try_providers E (providers_to_try self_provider) text
            output_path None w'
      end.

(** [VoiceGenerator.__init__]: OpenAI needs a key.  Returns
    [self.provider]. *)
Definition init (E : env) (provider : string) (api_key_given : bool)
  : result string :=
  let self_provider := lower provider in
  if String.eqb self_provider "openai"
     && negb (api_key_given || has_api_key E self_provider)
  then Raise (ValueError "OpenAI API key is required. Set API key in config or pass api_key parameter.")
  else Ok self_provider.

End VoiceGenerator.

(** ** modules/image_generator.py *)

Module ImageGenerator.

(** [ImageGenerator.__init__]: the paid providers need a key.  Returns
    [self.provider]. *)
Definition init (E : env) (provider : string) : result string :=
  let self_provider := lower provider in
  if (String.eqb self_provider "openai"
      || String.eqb self_provider "stability"
      || String.eqb self_provider "replicate")
     && negb (has_api_key E self_provider)
  then Raise (ValueError (title self_provider ++ " API key is required. Set API key in config or pass api_key parameter."))
  else Ok self_provider.

(** [available_providers]: the keyed providers in their fixed order,
    then Pollinations. *)
Definition available_providers (E : env) : list string :=
  (if has_api_key E "openai" then ["openai"] else [])
  ++ (if has_api_key E "stability" then ["stability"] else [])
  ++ (if has_api_key E "replicate" then ["replicate"] else [])
  ++ (if has_api_key E "huggingface" then ["huggingface"] else [])
  ++ ["pollinations"].

Definition mem (x : string) (l : list string) : bool :=
  existsb (String.eqb x) l.

(** [providers_to_try]: the selected provider alone, else Pollinations. *)
Definition providers_to_try (E : env) (self_provider : string) : list string :=
  if mem self_provider (available_providers E) then [self_provider]
  else ["pollinations"].

(** *** [_generate_pollinations_image] *)

(** What one pass through the body of the retry loop decides. *)
Inductive verdict :=
| Accept (body : bytes)               (* return output_path *)
| Retry (sleep : nat)                 (* time.sleep(..); continue *)
| NextUrl (written : option bytes).   (* break; the file may be on disk *)

Definition server_error (status : Z) : bool :=
  ((status =? 500) || (status =? 502) || (status =? 503) || (status =? 504))%Z.

(** [response.raise_for_status()] raises for 4xx and 5xx. *)
Definition raises_for_status (status : Z) : bool :=
  ((400 <=? status) && (status <? 600))%Z.

(** The validation of a reply that passed the status checks. *)
Definition image_content_type (content_type : string) : bool :=
  contains "image" content_type.

Definition min_file_size : nat := 1000.

Definition too_small (body : bytes) : bool :=
  List.length body <? min_file_size.

Definition judge (retry : nat) (r : reply) : verdict :=
  let on_request_error :=
    if retry <? 2 then Retry 5 else NextUrl None in
  match r with
  | ReplyTimeout => on_request_error
  | ReplyRequestError _ => on_request_error
  | ReplyOtherError _ => NextUrl None
  | ReplyHttp status content_type body =>
      if server_error status then
        if retry <? 2 then Retry 10 else NextUrl None
      else if raises_for_status status then on_request_error
      else if negb (image_content_type content_type) then NextUrl None
      else if too_small body then NextUrl (Some body)
      else Accept body
  end.

(** [for retry in range(3)] for one URL.  [None]: no image from this
    URL, go on with the next one. *)
Fixpoint retry_loop (E : env) (prompt : pystr) (output_path : string)
    (url_index : nat) (retries : list nat) (w : world)
  : option string * world :=
  match retries with
  | [] => (None, w)
  | retry :: later =>
      let w1 := emit (EvHttpGet url_index retry) w in
      match judge retry (pollinations_get E prompt url_index retry) with
      | Accept body =>
          let w2 := write_file output_path body w1 in
          let w3 := match crop_logo E body with
                    | Some cropped => write_file output_path cropped w2
                    | None => w2
                    end in
          (Some output_path, w3)
      | Retry seconds =>
          retry_loop E prompt output_path url_index later
            (emit (EvSleep seconds) w1)
      | NextUrl None => (None, w1)
      | NextUrl (Some body) => (None, write_file output_path body w1)
      end
  end.

(** [for attempt, url in enumerate(urls_to_try)] *)
Fixpoint url_loop (E : env) (prompt : pystr) (output_path : string)
    (url_indices : list nat) (w : world) : result string * world :=
  match url_indices with
  | [] =>
      (Raise (Exception_ "❌ Pollinations AI: Tất cả URLs và retry đều thất bại. Server có thể đang quá tải."), w)
  | url_index :: later =>
      match retry_loop E prompt output_path url_index (seq 0 3) w with
      | (Some path, w') => (Ok path, w')
      | (None, w') => url_loop E prompt output_path later w'
      end
  end.

(** The five URL variants of [urls_to_try]. *)
Definition urls_to_try : list nat := seq 0 5.

Definition _generate_pollinations_image (E : env) (prompt : pystr)
    (output_path : string) (w : world) : result string * world :=
  url_loop E prompt output_path urls_to_try w.

(** *** [generate_image] *)

Definition known_provider (provider : string) : bool :=
  mem provider ["openai"; "stability"; "pollinations"; "replicate";
                "huggingface"; "craiyon"; "picsum"].

(** One adapter call of the dispatch chain. *)
Definition call_adapter (E : env) (provider : string) (prompt : pystr)
    (output_path : string) (w : world) : result string * world :=
  let w1 := emit (EvImage provider prompt output_path) w in
  if String.eqb provider "pollinations" then
    _generate_pollinations_image E prompt output_path w1
  else
    match image_backend E provider prompt with
    | Produced image => (Ok output_path, write_file output_path image w1)
    | Failed reason => (Raise (ProviderError reason), w1)
    end.

Definition all_failed_message (last_error : option exn) : string :=
  "❌ Không thể tạo ảnh! Tất cả providers đều lỗi. Lỗi cuối: "
  ++ fmt_last_error last_error.

Fixpoint try_providers (E : env) (providers : list string) (prompt : pystr)
    (output_path : string) (last_error : option exn) (w : world)
  : result string * world :=
  match providers with
  | [] => (Raise (Exception_ (all_failed_message last_error)), w)
  | provider :: rest =>
      if known_provider provider then
        match call_adapter E provider prompt output_path w with
        | (Ok path, w') => (Ok path, w')
        | (Raise e, w') => try_providers E rest prompt output_path (Some e) w'
        end
      else try_providers E rest prompt output_path last_error w
  end.

Definition generate_image (E : env) (self_provider : string)
    (prompt : pystr) (output_path : string) (w : world)
  : result string * world :=
  let output_dir := dirname output_path in
  let w1 := if String.eqb output_dir "" then w
            else emit (EvMakeDirs output_dir) w in
  try_providers E (providers_to_try E self_provider) prompt output_path
    None w1.

(** *** [_create_placeholder_image] and [generate_batch_images] *)

Definition _create_placeholder_image (E : env) (prompt : pystr)
    (output_path : string) (w : world) : result string * world :=
  let w1 := emit (EvPlaceholder output_path) w in
  match draw_placeholder E prompt with
  | Some image => (Ok output_path, write_file output_path image w1)
  | None =>
      match draw_plain_image E with
      | Some image => (Ok output_path, write_file output_path image w1)
      | None => (Raise (Exception_ "Failed to create any image."), w1)
      end
  end.

(** [f"{n:02d}"] *)
Definition fmt_02d (n : nat) : string :=
  if n <? 10 then "0" ++ pretty n else pretty n.

(** [os.path.join(output_dir, name)] for a relative [name]. *)
Definition path_join (output_dir name : string) : string :=
  if String.eqb output_dir "" then name
  else if String.eqb (substring (String.length output_dir - 1) 1 output_dir) "/"
       then output_dir ++ name
       else output_dir ++ "/" ++ name.

(** [os.path.join(output_dir, f"{prefix}_{i+1:02d}.png")] *)
Definition batch_path (output_dir prefix : string) (i : nat) : string :=
  path_join output_dir (prefix ++ "_" ++ fmt_02d (i + 1) ++ ".png").

(** [f"outputs/images/scene_{i+1:02d}.png"] *)
Definition scene_image_path (i : nat) : string :=
  ("outputs/images/scene_" ++ fmt_02d (i + 1) ++ ".png")%string.

(** The body of the [for i, prompt in enumerate(prompts)] loop; [total]
    is [len(prompts)]. *)
Fixpoint batch_loop (E : env) (self_provider : string) (output_dir prefix : string)
    (total : nat) (i : nat) (prompts : list pystr)
    (image_paths : list string) (w : world) : list string * world :=
  match prompts with
  | [] => (image_paths, w)
  | prompt :: rest =>
      let output_path := batch_path output_dir prefix i in
      match generate_image E self_provider prompt output_path w with
      | (Ok path, w1) =>
          let w2 := if i <? total - 1 then emit (EvSleep 3) w1 else w1 in
          batch_loop E self_provider output_dir prefix total (S i) rest
            (image_paths ++ [path]) w2
      | (Raise _, w1) =>
          match _create_placeholder_image E prompt output_path w1 with
          | (Ok _, w2) =>
              batch_loop E self_provider output_dir prefix total (S i) rest
                (image_paths ++ [output_path]) w2
          | (Raise _, w2) =>
              match draw_plain_image E with
              | Some image =>
                  batch_loop E self_provider output_dir prefix total (S i)
                    rest (image_paths ++ [output_path])
                    (write_file output_path image w2)
              | None =>
                  batch_loop E self_provider output_dir prefix total (S i)
                    rest image_paths w2
              end
          end
      end
  end.

Definition generate_batch_images (E : env) (self_provider : string)
    (prompts : list pystr) (output_dir prefix : string) (w : world)
  : result (list string) * world :=
  match makedirs output_dir w with
  | (Raise e, w') => (Raise e, w')
  | (Ok _, w') =>
      let '(paths, w'') :=
        batch_loop E self_provider output_dir prefix (length prompts) 0
          prompts [] w' in
      (Ok paths, w'')
  end.

(** *** The image step of [app.py]

    One [generate_image] call per selected scene inside a single [try]:
    the first exception leaves the loop and nothing is stored in the
    session.  The removal of the images of an earlier run, which comes
    before the loop, is left out. *)
Fixpoint app_image_loop (E : env) (self_provider : string) (i : nat)
    (prompts : list pystr) (image_paths : list string) (w : world)
  : result (list string) * world :=
  match prompts with
  | [] => (Ok image_paths, w)
  | prompt :: rest =>
      let image_path := scene_image_path i in
      match generate_image E self_provider prompt image_path w with
      | (Ok result_path, w') =>
          app_image_loop E self_provider (S i) rest
            (image_paths ++ [result_path]) w'
      | (Raise e, w') => (Raise e, w')
      end
  end.


End ImageGenerator.

(** ** modules/video_maker.py *)

Module VideoMaker.

Local Open Scope Q_scope.

(** [x < y] on durations. *)
Definition Qltb (x y : Q) : bool := negb (Qle_bool y x).

(** *** [_apply_ken_burns_effect] *)

Definition fast_tier : motion := Motion 0.8 0.6 0.3.
Definition medium_tier : motion := Motion 1.0 0.8 0.2.
Definition slow_tier : motion := Motion 1.2 1.0 0.15.

(** The [if duration < 2.0 / elif duration < 5.0 / else] chain. *)
Definition ken_burns_motion (duration : Q) : motion :=
  if Qltb duration 2.0 then fast_tier
  else if Qltb duration 5.0 then medium_tier
  else slow_tier.

(** [t / duration if duration > 0 else 0] *)
Definition progress (duration t : Q) : Q :=
  if Qltb 0 duration then t / duration else 0.

Definition zoom_func (m : motion) (duration t : Q) : Q :=
  1.0 + zoom_factor m * Qmin 1.0 (progress duration t * zoom_speed m).

Definition x_func (m : motion) (duration t : Q) : Q :=
  -50 * Qmin 1.0 (progress duration t * pan_speed m).

Definition y_func (m : motion) (duration t : Q) : Q :=
  -30 * Qmin 1.0 (progress duration t * pan_speed m).

(** The clip after [clip.resize(zoom_func).set_position((x_func, y_func))]
    with the parameters chosen from [clip.duration]. *)
Definition _apply_ken_burns_effect (c : clip) : clip :=
  Clip (clip_scene c) (clip_image c) (clip_duration c) (clip_effect c)
       (Some (ken_burns_motion (clip_duration c))) (clip_fx c).

(** [clip.with_effects(effects)] *)
Definition with_effects (c : clip) (effects : list fx) : clip :=
  Clip (clip_scene c) (clip_image c) (clip_duration c) (clip_effect c)
       (clip_motion c) (clip_fx c ++ effects).



(** *** [concatenate_videoclips(clips, method="compose")]

    MoviePy plays the clips one after the other: each starts where the
    one before it ends. *)
Fixpoint place (start : Q) (clips : list clip) : list segment :=
  match clips with
  | [] => []
  | c :: rest => Segment start c :: place (start + clip_duration c) rest
  end.

Definition concatenate_videoclips (clips : list clip) : list segment :=
  place 0 clips.

(** [final_video.duration] *)
Definition total_duration (clips : list clip) : Q :=
  fold_left (fun acc c => acc + clip_duration c) clips 0.

(** *** [_concatenate_with_transitions] *)

(** The [for i, (clip, transition) in enumerate(zip(clips, transitions))]
    loop; [n] is [len(clips)]. *)
Fixpoint add_transitions (n i : nat) (clips : list clip)
    (transitions : list string) : list clip :=
  match clips, transitions with
  | c :: clips', _ :: transitions' =>
      let c1 := if (i =? 0)%nat then with_effects c [FadeIn 0.5] else c in
      let c2 := if (i =? n - 1)%nat then with_effects c1 [FadeOut 0.5]
                else with_effects c1 [FadeOut 0.5] in
      c2 :: add_transitions n (S i) clips' transitions'
  | _, _ => []
  end.

(** The clips that end up in the returned video.  [None]: even the
    fallback [concatenate_videoclips(clips)] has nothing to join. *)
Definition _concatenate_with_transitions (clips : list clip)
    (transitions : list string) : option (list segment) :=
  match clips with
  | [c] => Some (place 0 [c])
  | _ =>
      match add_transitions (List.length clips) 0 clips transitions with
      | [] =>
          match clips with
          | [] => None
          | _ => Some (concatenate_videoclips clips)
          end
      | processed_clips => Some (concatenate_videoclips processed_clips)
      end
  end.

(** *** [_create_video_with_tts] *)

(** The [voice_settings] dictionary: the ["provider"] entry, if present,
    and whether an ["api_key"] entry is set. *)
Record voice_settings := VoiceSettings {
  vs_provider : option string;
  vs_api_key : bool
}.

(** [f"temp/scene_{i+1}_tts.mp3"] *)
Definition tts_path (i : nat) : string :=
  ("temp/scene_" ++ pretty (i + 1)%nat ++ "_tts.mp3")%string.

(** [for i, text in enumerate(scene_texts)]: one TTS call per scene with
    text; a failed call leaves [None] in [tts_files]. *)
Fixpoint tts_loop (E : env) (self_provider : string) (i : nat)
    (scene_texts : list pystr) (tts_files : list (option string))
    (w : world) : list (option string) * world :=
  match scene_texts with
  | [] => (tts_files, w)
  | text :: rest =>
      if truthy text && truthy (strip text) then
        let w0 := emit (EvMakeDirs "temp") w in
        match VoiceGenerator.generate_voice E self_provider text
                (tts_path i) w0 with
        | (Ok tts_result, w1) =>
            tts_loop E self_provider (S i) rest
              (tts_files ++ [Some tts_result]) w1
        | (Raise _, w1) =>
            tts_loop E self_provider (S i) rest (tts_files ++ [None]) w1
        end
      else tts_loop E self_provider (S i) rest (tts_files ++ [None]) w
  end.

(** [[None] * len(scene_texts)] *)
Definition no_tts (scene_texts : list pystr) : list (option string) :=
  List.map (fun _ => None) scene_texts.

Definition generate_tts_files (E : env) (settings : option voice_settings)
    (scene_texts : list pystr) (w : world)
  : list (option string) * world :=
  match settings with
  | None => (no_tts scene_texts, w)
  | Some vs =>
      if match vs_provider vs with
         | Some p => String.eqb p "none"
         | None => false
         end
      then (no_tts scene_texts, w)
      else
        match VoiceGenerator.init E (default "edge"%string (vs_provider vs))
                (vs_api_key vs) with
        | Raise _ => (no_tts scene_texts, w)
        | Ok self_provider => tts_loop E self_provider 0 scene_texts [] w
        end
  end.

(** [ImageClip(img_path, duration=duration)] succeeds. *)
Definition image_clip_ok (E : env) (w : world) (img_path : string) : bool :=
  match fs w !! img_path with
  | Some content => decodes_as_image E content
  | None => false
  end.

(** [any(word in scene_text_lower for word in words)] *)
Definition any_word (words : list pystr) (scene_text_lower : pystr) : bool :=
  existsb (fun word => occurs_in word scene_text_lower) words.

(** The keyword lists of [_select_effect_for_scene], as code points. *)
Definition zoom_in_words : list pystr :=
  [ lit "zoom";
    [112; 104; 243; 110; 103; 32; 116; 111];          (* phóng to *)
    [108; 7899; 110; 32; 108; 234; 110];              (* lớn lên *)
    [116; 259; 110; 103];                             (* tăng *)
    [109; 7903; 32; 114; 7897; 110; 103] ]%N.         (* mở rộng *)

Definition zoom_out_words : list pystr :=
  [ [116; 104; 117; 32; 110; 104; 7887];              (* thu nhỏ *)
    [110; 104; 7887; 32; 108; 7841; 105];             (* nhỏ lại *)
    [103; 105; 7843; 109];                            (* giảm *)
    [99; 111; 32; 108; 7841; 105] ]%N.                (* co lại *)

Definition pan_left_words : list pystr :=
  [ [116; 114; 225; 105];                             (* trái *)
    [98; 234; 110; 32; 116; 114; 225; 105];           (* bên trái *)
    [115; 97; 110; 103; 32; 116; 114; 225; 105];      (* sang trái *)
    lit "left" ]%N.

Definition pan_right_words : list pystr :=
  [ [112; 104; 7843; 105];                            (* phải *)
    [98; 234; 110; 32; 112; 104; 7843; 105];          (* bên phải *)
    [115; 97; 110; 103; 32; 112; 104; 7843; 105];     (* sang phải *)
    lit "right" ]%N.

Definition ken_burns_words : list pystr :=
  [ [99; 104; 117; 121; 7875; 110; 32; 273; 7897; 110; 103];  (* chuyển động *)
    [100; 105; 32; 99; 104; 117; 121; 7875; 110];             (* di chuyển *)
    [100; 105; 32; 99; 104; 117; 121; 7875; 110];             (* di chuyển *)
    lit "motion"; lit "movement" ]%N.

Definition static_words : list pystr :=
  [ [116; 297; 110; 104];                                     (* tĩnh *)
    [273; 7913; 110; 103; 32; 121; 234; 110];                 (* đứng yên *)
    [107; 104; 244; 110; 103; 32; 273; 7897; 110; 103];       (* không động *)
    lit "static" ]%N.

Definition _select_effect_for_scene (E : env) (default_effect : string)
    (scene_text : pystr) : string :=
  if negb (truthy scene_text) then default_effect
  else
    let scene_text_lower := unicode_lower E scene_text in
    if any_word zoom_in_words scene_text_lower then "zoom_in"
    else if any_word zoom_out_words scene_text_lower then "zoom_out"
    else if any_word pan_left_words scene_text_lower then "pan_left"
    else if any_word pan_right_words scene_text_lower then "pan_right"
    else if any_word ken_burns_words scene_text_lower then "ken_burns"
    else if any_word static_words scene_text_lower then "static"
    else if String.eqb default_effect "ken_burns" then "ken_burns"
    else default_effect.

(** The effect dispatch of the clip loop.  [VideoMaker] has no method
    [_apply_zoom_effect], so the two zoom branches raise
    [AttributeError]; the pan effects only move the clip. *)
Definition apply_effect (selected_effect : string) (c : clip) : result clip :=
  if String.eqb selected_effect "ken_burns" then
    Ok (_apply_ken_burns_effect c)
  else if String.eqb selected_effect "zoom_in"
          || String.eqb selected_effect "zoom_out" then
    Raise (AttributeError "_apply_zoom_effect")
  else Ok c.

(** The body of the clip loop for scene [i]; [None] when the [try] block
    raises and the scene is skipped.  [n_images] is [len(image_paths)].
    The field [clip_effect] records the selected effect. *)
Definition build_clip (E : env) (w : world) (n_images : nat)
    (scene_texts : list pystr) (i : nat) (img_path : string)
    (duration : Q) (effect : string) : option clip :=
  if image_clip_ok E w img_path then
    let selected_effect :=
      _select_effect_for_scene E effect (default [] (scene_texts !! i)) in
    let clip := Clip i img_path duration selected_effect None [] in
    let clip := with_effects clip [Resize] in
    match apply_effect selected_effect clip with
    | Raise _ => None
    | Ok clip =>
        let clip := if (0 <? i)%nat then with_effects clip [FadeIn 0.5]
                    else clip in
        let clip := if (i <? n_images - 1)%nat
                    then with_effects clip [FadeOut 0.5] else clip in
        Some clip
    end
  else None.

(** [for i, (img_path, duration, effect) in enumerate(zip(...))] *)
Fixpoint build_clips (E : env) (w : world) (n_images : nat)
    (scene_texts : list pystr) (i : nat) (image_paths : list string)
    (durations : list Q) (effects : list string) : list clip :=
  match image_paths, durations, effects with
  | img_path :: image_paths', duration :: durations', effect :: effects' =>
      let rest := build_clips E w n_images scene_texts (S i) image_paths'
                    durations' effects' in
      match build_clip E w n_images scene_texts i img_path duration effect with
      | Some c => c :: rest
      | None => rest
      end
  | _, _, _ => []
  end.

(** The variables of the synchronisation loop. *)
Record sync := Sync {
  audio_clips : list audio_clip;
  adjusted_scene_durations : list Q;
  current_time : Q
}.

Definition buffer : Q := 0.5.

(** What the loop finds out about [tts_files[i]]: the measured duration
    of an audio file that exists and opens. *)
Definition measured_audio (E : env) (w : world) (tts_file : option string)
  : option (string * Q) :=
  match tts_file with
  | Some path =>
      if negb (String.eqb path "") && path_exists path w then
        match fs w !! path ≫= audio_duration E with
        | Some d => Some (path, d)
        | None => None
        end
      else None
  | None => None
  end.

(** One pass of [for i, tts_file in enumerate(tts_files)].  [None]: the
    pass raises [IndexError] on [scene_durations[i]]. *)
Definition sync_scene (E : env) (w : world) (scene_durations : list Q)
    (i : nat) (tts_file : option string) (st : sync) : option sync :=
  let keep_requested :=
    match scene_durations !! i with
    | Some requested =>
        Some (Sync (audio_clips st)
                (adjusted_scene_durations st ++ [requested])
                (current_time st + requested))
    | None => None
    end in
  match measured_audio E w tts_file with
  | Some (path, actual_audio_duration) =>
      if Qltb 0 actual_audio_duration then
        let adjusted_duration := actual_audio_duration + buffer in
        Some (Sync (audio_clips st
                      ++ [AudioClip i path (current_time st)
                            actual_audio_duration])
                (adjusted_scene_durations st ++ [adjusted_duration])
                (current_time st + adjusted_duration))
      else keep_requested
  | None => keep_requested
  end.

Fixpoint sync_loop (E : env) (w : world) (scene_durations : list Q)
    (i : nat) (tts_files : list (option string)) (st : sync)
  : option sync :=
  match tts_files with
  | [] => Some st
  | tts_file :: rest =>
      match sync_scene E w scene_durations i tts_file st with
      | Some st' => sync_loop E w scene_durations (S i) rest st'
      | None => None
      end
  end.

(** [any(tts_files)] *)
Definition any_tts (tts_files : list (option string)) : bool :=
  existsb (fun f => match f with
                    | Some path => negb (String.eqb path "")
                    | None => false
                    end) tts_files.

(** [adjusted_scene_durations == scene_durations] on lists of numbers. *)
Fixpoint durations_eqb (l1 l2 : list Q) : bool :=
  match l1, l2 with
  | [], [] => true
  | x :: l1', y :: l2' => Qeq_bool x y && durations_eqb l1' l2'
  | _, _ => false
  end.

(** The background-music block: the music is mixed in unless the file is
    missing, cannot be opened, or has to be looped but has length zero. *)
Definition mix_music (E : env) (w : world) (background_music : option string)
    (clips : list clip) : option string :=
  match background_music with
  | Some path =>
      if negb (String.eqb path "") && path_exists path w then
        match fs w !! path ≫= audio_duration E with
        | Some d =>
            if Qltb d (total_duration clips) && Qeq_bool d 0 then None
            else Some path
        | None => None
        end
      else None
  | None => None
  end.

(** Everything [_create_video_with_tts] does before [write_videofile]:
    the TTS files, the clips, the duration adjustment and the audio. *)
Definition compose (E : env) (image_paths : list string)
    (scene_durations : list Q) (effects : list string)
    (scene_texts : list pystr) (settings : option voice_settings)
    (background_music : option string) (w : world) : result video * world :=
  let '(tts_files, w1) := generate_tts_files E settings scene_texts w in
  let n_images := List.length image_paths in
  let video_clips :=
    build_clips E w1 n_images scene_texts 0 image_paths scene_durations
      effects in
  match video_clips with
  | [] => (Raise (Exception_ "No valid video clips created"), w1)
  | _ :: _ =>
      let '(final_clips, tts_audio) :=
        if any_tts tts_files then
          match sync_loop E w1 scene_durations 0 tts_files (Sync [] [] 0) with
          | Some st =>
              let adjusted := adjusted_scene_durations st in
              if negb (durations_eqb adjusted scene_durations) then
                match build_clips E w1 n_images scene_texts 0 image_paths
                        adjusted effects with
                | [] => (video_clips, audio_clips st)
                | rebuilt => (rebuilt, audio_clips st)
                end
              else (video_clips, audio_clips st)
          | None => (video_clips, [])
          end
        else (video_clips, []) in
      (Ok (Video (concatenate_videoclips final_clips) tts_audio
             (mix_music E w1 background_music final_clips)), w1)
  end.

Definition _create_video_with_tts (E : env) (image_paths : list string)
    (output_path : string) (scene_durations : list Q)
    (effects : list string) (scene_texts : list pystr)
    (settings : option voice_settings) (background_music : option string)
    (w : world) : result string * world :=
  match compose E image_paths scene_durations effects scene_texts settings
          background_music w with
  | (Raise e, w1) => (Raise e, w1)
  | (Ok final_video, w1) =>
      let w2 := emit (EvRender output_path) w1 in
      match encode E final_video with
      | Some content => (Ok output_path, write_file output_path content w2)
      | None => (Raise (Exception_ "write_videofile failed"), w2)
      end
  end.

End VideoMaker.

(** ** Vocabulary of the statements *)

(** The text is empty or consists of white space only. *)
Definition blank (text : pystr) : bool := forallb is_space text.

(** The adapter calls a run of the TTS loop makes for the providers of a
    list, in order. *)
Definition tts_attempts (text : pystr) (output_path : string)
    (providers : list string) : list event :=
  List.map (fun p => EvTts p text output_path)
    (List.filter VoiceGenerator.known_provider providers).

Definition tts_fails (E : env) (text : pystr) (provider : string) : Prop :=
  exists reason, tts_backend E provider text = Failed reason.

(** The events of the Pollinations request loop. *)
Definition http_event (e : event) : bool :=
  match e with
  | EvHttpGet _ _ | EvSleep _ => true
  | _ => false
  end.

Definition placeholder_event (e : event) : bool :=
  match e with
  | EvPlaceholder _ => true
  | _ => false
  end.

(** The HTTP status lets the reply through to the validation. *)
Definition status_passes (status : Z) : bool :=
  negb (ImageGenerator.server_error status)
  && negb (ImageGenerator.raises_for_status status).

(** The validation of a downloaded image: an image content type and at
    least [min_file_size] bytes. *)
Definition valid_image (content_type : string) (body : bytes) : bool :=
  ImageGenerator.image_content_type content_type
  && negb (ImageGenerator.too_small body).




(** No placeholder was drawn. *)
Definition no_placeholder (evs : list event) : Prop :=
  forallb (fun e => negb (placeholder_event e)) evs = true.

(** The image adapter of a provider raises, whatever the world. *)
Definition image_fails (E : env) (prompt : pystr)
    (output_path provider : string) : Prop :=
  forall w, exists e w',
    ImageGenerator.call_adapter E provider prompt output_path w = (Raise e, w').

(** The single provider that [generate_image] tries. *)
Definition tried_provider (E : env) (self_provider : string) : string :=
  if ImageGenerator.mem self_provider (ImageGenerator.available_providers E)
  then self_provider
  else "pollinations".

(** The image adapter of a provider returns the output path, whatever
    the world. *)
Definition image_succeeds (E : env) (prompt : pystr)
    (output_path provider : string) : Prop :=
  forall w, exists w',
    ImageGenerator.call_adapter E provider prompt output_path w
    = (Ok output_path, w').

Definition image_event (e : event) : bool :=
  match e with
  | EvImage _ _ _ => true
  | _ => false
  end.

(** The failure ledger of an exhausted TTS run as the specification
    describes it: provider name, attempt number and raw reason of every
    provider that was tried.  The loop tries each provider once. *)
Fixpoint failure_ledger (E : env) (text : pystr) (providers : list string)
  : list (string * nat * string) :=
  match providers with
  | [] => []
  | p :: rest =>
      if VoiceGenerator.known_provider p then
        match tts_backend E p text with
        | Failed reason => (p, 1, reason) :: failure_ledger E text rest
        | Produced _ => []
        end
      else failure_ledger E text rest
  end.

(** "The raised error carries the full ledger": the ledger can be read
    off the exception of every exhausted run. *)
Definition exhaustion_carries_ledger : Prop :=
  exists ledger_of : exn -> list (string * nat * string),
    forall E self_provider text output_path w e w',
      VoiceGenerator.generate_voice E self_provider text output_path w
      = (Raise e, w') ->
      blank text = false ->
      dirname output_path <> "" ->
      ledger_of e
      = failure_ledger E (strip text)
          (VoiceGenerator.providers_to_try self_provider).

(** "Exhaustion is fatal and nothing is substituted", read on
    [generate_batch_images] with one prompt. *)
Definition batch_exhaustion_is_fatal : Prop :=
  forall E self_provider prompt output_dir prefix w,
    image_fails E prompt (ImageGenerator.batch_path output_dir prefix 0)
      (tried_provider E self_provider) ->
    exists e w',
      ImageGenerator.generate_batch_images E self_provider [prompt]
        output_dir prefix w = (Raise e, w').

(** The tier table as C7 states it, with five seconds in the medium
    tier. *)
Definition claimed_tier (duration : Q) : motion :=
  if VideoMaker.Qltb duration 2 then VideoMaker.fast_tier
  else if Qle_bool duration 5 then VideoMaker.medium_tier
  else VideoMaker.slow_tier.


(** The fades a clip has. *)
Definition fades (c : clip) : list fx :=
  List.filter (fun f => match f with Resize => false | _ => true end)
    (clip_fx c).

(** Every provider the TTS loop knows fails on a text. *)
Definition tts_exhausted (E : env) (text : pystr) : Prop :=
  forall provider,
    VoiceGenerator.known_provider provider = true ->
    tts_fails E text provider.

(** Sum of a list of durations. *)
Definition total (durations : list Q) : Q :=
  fold_right Qplus 0%Q durations.

(** Two parameter sets are the same numbers. *)
Definition same_motion (m1 m2 : motion) : Prop :=
  (zoom_speed m1 == zoom_speed m2
   /\ pan_speed m1 == pan_speed m2
   /\ zoom_factor m1 == zoom_factor m2)%Q.

(** C7 as stated. *)
Definition tier_claim : Prop :=
  forall duration,
    same_motion (VideoMaker.ken_burns_motion duration) (claimed_tier duration).



(** The fades [_create_video_with_tts] gives the clip of scene [i] out of
    [n_images] images. *)
Definition tts_fades (n_images i : nat) : list fx :=
  (if 0 <? i then [FadeIn 0.5] else [])
  ++ (if i <? n_images - 1 then [FadeOut 0.5] else []).


(** ** Sample environments *)

Module Demo.

Definition blob (n : nat) : bytes := repeat x00 n.

(** An empty disk and nothing done yet. *)
Definition fresh : world := World ∅ [].

(** Every service is down and nothing can be drawn or decoded. *)
Definition offline : env :=
  Env (fun p _ => Failed ("offline: " ++ p))
      (fun p _ => Failed ("offline: " ++ p))
      (fun _ _ _ => ReplyTimeout)
      (fun _ => None) (fun _ => false) (fun _ => None) None
      (fun _ => None) (fun _ => false) (fun text => text) (fun _ => None).

(** Edge and ElevenLabs are down, gTTS answers with three bytes. *)
Definition gtts_up : env :=
  Env (fun p _ => if String.eqb p "gtts" then Produced (blob 3)
                  else Failed ("offline: " ++ p))
      (image_backend offline) (pollinations_get offline) (crop_logo offline)
      (has_api_key offline) (draw_placeholder offline)
      (draw_plain_image offline) (audio_duration offline)
      (decodes_as_image offline) (unicode_lower offline) (encode offline).

(** Every TTS provider is down; [first_reason] is what Edge says. *)
Definition tts_down (first_reason : string) : env :=
  Env (fun p _ => if String.eqb p "edge" then Failed first_reason
                  else Failed "quota")
      (image_backend offline) (pollinations_get offline) (crop_logo offline)
      (has_api_key offline) (draw_placeholder offline)
      (draw_plain_image offline) (audio_duration offline)
      (decodes_as_image offline) (unicode_lower offline) (encode offline).

(** Pollinations times out, but PIL can draw. *)
Definition can_draw : env :=
  Env (tts_backend offline) (image_backend offline) (pollinations_get offline)
      (crop_logo offline) (has_api_key offline)
      (fun _ => Some (blob 7)) (Some (blob 5)) (audio_duration offline)
      (decodes_as_image offline) (unicode_lower offline) (encode offline).


(** A working studio: every file decodes as an image, an audio file of
    [n] bytes lasts [n] tenths of a second, Edge speaks 72 bytes for the
    text [two] and fails on anything else, every other TTS provider is
    down, and the encoder works. *)
Definition studio : env :=
  Env (fun p text =>
         if String.eqb p "edge" && bool_decide (text = lit "two")
         then Produced (blob 72)
         else Failed ("offline: " ++ p))
      (image_backend offline) (pollinations_get offline) (crop_logo offline)
      (has_api_key offline) (draw_placeholder offline)
      (draw_plain_image offline)
      (fun audio => Some (Z.of_nat (List.length audio) # 10))
      (fun _ => true) (unicode_lower offline)
      (fun _ => Some (blob 1)).

(** Three scene images on disk. *)
Definition three_images : world :=
  World (<["outputs/images/scene_01.png" := blob 1]>
           (<["outputs/images/scene_02.png" := blob 1]>
              (<["outputs/images/scene_03.png" := blob 1]> ∅)))
        [].

Definition image_paths : list string :=
  ["outputs/images/scene_01.png"; "outputs/images/scene_02.png";
   "outputs/images/scene_03.png"].

Definition edge_voice : option VideoMaker.voice_settings :=
  Some (VideoMaker.VoiceSettings (Some "edge") false).

(** A plain clip. *)
Definition still (i : nat) : clip :=
  Clip i "scene.png" 3 "static" None [Resize].


End Demo.

(** * Further code

    More of the same files, and the configuration they read:

    - [modules/voice_generator.py]: [generate_voice_for_scenes];
    - [modules/image_generator.py]: [_enhance_prompt_for_pollinations]
      with the shortening of the prompt, [_generate_huggingface_image];
    - [modules/video_maker.py]: [create_complete_video],
      [create_slideshow];
    - [modules/api_manager.py]: the API keys of [APIManager], their
      loading from the environment, and the provider tables.

    The conventions are those above.  What the network answers to the
    Hugging Face adapter is an explicit argument of that function. *)

(** A scene of the script, as far as the functions below read it: the
    value of each key, [None] when the key is missing. *)
Record scene := Scene {
  scene_title : option pystr;
  scene_description : option pystr;
  scene_dialogue : option pystr;
  scene_dialogue_type : option pystr;
  scene_narrator : option pystr;
  scene_narrator_type : option pystr
}.

(** ** modules/voice_generator.py, continued *)

Module voice_generator.

(** [f"{scene.get('title', '')}. {scene.get('description', '')}"] *)
Definition scene_text (s : scene) : pystr :=
  default [] (scene_title s) ++ lit ". " ++ default [] (scene_description s).

(** [os.path.join(output_dir, f"scene_{i+1:02d}.mp3")] *)
Definition audio_path (output_dir : string) (i : nat) : string :=
  ImageGenerator.path_join output_dir
    ("scene_" ++ ImageGenerator.fmt_02d (i + 1) ++ ".mp3").

(** [for i, scene in enumerate(scenes)] of [generate_voice_for_scenes]:
    a scene whose voice cannot be generated gets [None]. *)
Fixpoint scenes_loop (E : env) (self_provider : string) (output_dir : string)
    (i : nat) (scenes : list scene) (audio_paths : list (option string))
    (w : world) : list (option string) * world :=
  match scenes with
  | [] => (audio_paths, w)
  | s :: rest =>
      let text := scene_text s in
      let path := audio_path output_dir i in
      match VoiceGenerator.generate_voice E self_provider text path w with
      | (Ok _, w1) =>
          scenes_loop E self_provider output_dir (S i) rest
            (audio_paths ++ [Some path]) w1
      | (Raise _, w1) =>
          scenes_loop E self_provider output_dir (S i) rest
            (audio_paths ++ [None]) w1
      end
  end.

Definition generate_voice_for_scenes (E : env) (self_provider : string)
    (scenes : list scene) (output_dir : string) (w : world)
  : result (list (option string)) * world :=
  match makedirs output_dir w with
  | (Raise e, w') => (Raise e, w')
  | (Ok _, w') =>
      let '(audio_paths, w'') :=
        scenes_loop E self_provider output_dir 0 scenes [] w' in
      (Ok audio_paths, w'')
  end.

End voice_generator.

(** ** modules/image_generator.py, continued *)

Module image_generator.

(** *** [_enhance_prompt_for_pollinations] and the shortening of the
    prompt in [_generate_pollinations_image] *)

Definition quality_keywords : list pystr :=
  [ lit "high quality"; lit "detailed"; lit "sharp focus";
    lit "cinematic lighting"; lit "professional photography"; lit "4k";
    lit "ultra realistic"; lit "photorealistic" ].

(** The keywords the [if]/[elif] chain on the content of the prompt adds
    with [quality_keywords.extend]. *)
Definition style_keywords (prompt_lower : pystr) : list pystr :=
  if VideoMaker.any_word
       [lit "deity"; lit "god"; lit "cosmic"; lit "nebula"; lit "asteroid"]
       prompt_lower
  then [lit "epic"; lit "dramatic"; lit "cosmic horror";
        lit "ethereal lighting"; lit "divine power"]
  else if VideoMaker.any_word
            [lit "battle"; lit "war"; lit "epic"; lit "clash"] prompt_lower
  then [lit "epic"; lit "dramatic"; lit "dynamic composition";
        lit "explosive energy"]
  else if VideoMaker.any_word
            [lit "city"; lit "metropolis"; lit "futuristic"] prompt_lower
  then [lit "futuristic"; lit "sci-fi"; lit "neon lighting";
        lit "urban decay"]
  else if VideoMaker.any_word
            [lit "village"; lit "countryside"; lit "rural"] prompt_lower
  then [lit "rustic"; lit "natural lighting"; lit "golden hour"]
  else if VideoMaker.any_word [lit "dog"; lit "animal"; lit "pet"]
            prompt_lower
  then [lit "animal photography"; lit "portrait"; lit "soft lighting"]
  else [].

(** One pass of [for keyword in quality_keywords[:4]]. *)
Definition add_keyword (E : env) (enhanced_prompt keyword : pystr) : pystr :=
  if negb (occurs_in keyword (unicode_lower E enhanced_prompt))
  then enhanced_prompt ++ lit ", " ++ keyword
  else enhanced_prompt.

Definition _enhance_prompt_for_pollinations (E : env) (prompt : pystr)
  : pystr :=
  let keywords := quality_keywords ++ style_keywords (unicode_lower E prompt) in
  fold_left (add_keyword E) (firstn 4 keywords) prompt.

(** The prompt that goes into the URLs: the enhanced prompt, cut to 500
    code points plus an ellipsis when it is longer. *)
Definition url_prompt (E : env) (prompt : pystr) : pystr :=
  let enhanced_prompt := _enhance_prompt_for_pollinations E prompt in
  if 500 <? List.length enhanced_prompt
  then firstn 500 enhanced_prompt ++ lit "..."
  else enhanced_prompt.

(** *** [_generate_huggingface_image]

    [post inputs with_key] is the reply to the request with the prompt
    [inputs], sent with the [Authorization] header or without it;
    [has_key] is the truth value of [self.api_key]. *)
Definition _generate_huggingface_image (post : pystr -> bool -> reply)
    (has_key : bool) (prompt : pystr) (output_path : string) (w : world)
  : result string * world :=
  let prompt := if 200 <? List.length prompt then firstn 200 prompt
                else prompt in
  let response := post prompt false in
  let response :=
    match response with
    | ReplyHttp status _ _ =>
        if (status =? 401)%Z && has_key then post prompt true else response
    | _ => response
    end in
  match response with
  | ReplyTimeout => (Raise (ProviderError "timeout"), w)
  | ReplyRequestError reason => (Raise (ProviderError reason), w)
  | ReplyOtherError reason => (Raise (ProviderError reason), w)
  | ReplyHttp status content_type body =>
      if ImageGenerator.raises_for_status status then
        (Raise (ProviderError "HTTPError"), w)
      else if negb (ImageGenerator.image_content_type content_type) then
        (Raise (Exception_ ("Invalid content type: " ++ content_type)), w)
      else
        let w1 := write_file output_path body w in
        if List.length body <? 1000 then
          (Raise (Exception_ "Generated image file too small"), w1)
        else (Ok output_path, w1)
  end.

End image_generator.

(** ** modules/video_maker.py, continued *)

Module video_maker.

(** *** [create_complete_video] *)

(** The text of a scene that is spoken: the dialogue, else the narrator,
    else the description; a missing type counts as ['none']. *)
Definition tts_text (s : scene) : pystr :=
  let dialogue := default [] (scene_dialogue s) in
  let dialogue_type := default (lit "none") (scene_dialogue_type s) in
  let narrator := default [] (scene_narrator s) in
  let narrator_type := default (lit "none") (scene_narrator_type s) in
  if truthy dialogue && negb (bool_decide (dialogue_type = lit "none")) then
    dialogue
  else if truthy narrator && negb (bool_decide (narrator_type = lit "none"))
  then narrator
  else default [] (scene_description s).

(** The argument [voice_settings]: left out ([None]), an empty dictionary,
    or a dictionary with entries. *)
Inductive voice_argument :=
| NoSettings
| EmptySettings
| Settings (vs : VideoMaker.voice_settings).

(** The dictionary after [if voice_settings is None: voice_settings =
    {"provider": "edge", ...}], as [_create_video_with_tts] tests it:
    [None] stands for the empty dictionary, which is falsy. *)
Definition settings_of (voice : voice_argument)
  : option VideoMaker.voice_settings :=
  match voice with
  | NoSettings => Some (VideoMaker.VoiceSettings (Some "edge") false)
  | EmptySettings => None
  | Settings vs => Some vs
  end.

(** The lists that [for scene in scenes] fills by [append]. *)
Definition scene_durations_of (scenes : list scene) (scene_duration : Q)
  : list Q :=
  List.map (fun _ => scene_duration) scenes.

Definition scene_texts_of (scenes : list scene) : list pystr :=
  List.map tts_text scenes.

Definition effects_of (scenes : list scene) : list string :=
  List.map (fun _ => "ken_burns") scenes.

Definition create_complete_video (E : env) (scenes : list scene)
    (image_paths : list string) (output_path : string)
    (voice : voice_argument) (background_music : option string)
    (scene_duration : Q) (w : world) : result string * world :=
  VideoMaker._create_video_with_tts E image_paths output_path
    (scene_durations_of scenes scene_duration) (effects_of scenes)
    (scene_texts_of scenes) (settings_of voice) background_music w.

(** *** [create_slideshow] *)

(** The [for i, img_path in enumerate(image_paths)] loop; [n] is
    [len(image_paths)].  [None]: [ImageClip] raises on an image, which
    ends the call.  No motion effect is applied, so [clip_effect] is
    empty. *)
Fixpoint slideshow_clips (E : env) (w : world) (n i : nat)
    (image_paths : list string) (duration_per_image transition_duration : Q)
  : option (list clip) :=
  match image_paths with
  | [] => Some []
  | img_path :: rest =>
      if VideoMaker.image_clip_ok E w img_path then
        let clip := Clip i img_path duration_per_image "" None [] in
        let clip := VideoMaker.with_effects clip [Resize] in
        let clip := if i =? 0
                    then VideoMaker.with_effects clip
                           [FadeIn transition_duration]
                    else clip in
        let clip := if i =? n - 1
                    then VideoMaker.with_effects clip
                           [FadeOut transition_duration]
                    else VideoMaker.with_effects clip
                           [FadeOut transition_duration] in
        match slideshow_clips E w n (S i) rest duration_per_image
                transition_duration with
        | Some clips => Some (clip :: clips)
        | None => None
        end
      else None
  end.

(** The video that [create_slideshow] hands to [write_videofile];
    [None] when the call raises before: an image cannot be opened, or
    there is no clip to join. *)
Definition slideshow (E : env) (w : world) (image_paths : list string)
    (duration_per_image transition_duration : Q) : option video :=
  match slideshow_clips E w (List.length image_paths) 0 image_paths
          duration_per_image transition_duration with
  | None | Some [] => None
  | Some clips =>
      Some (Video (VideoMaker.concatenate_videoclips clips) [] None)
  end.

Definition create_slideshow (E : env) (image_paths : list string)
    (output_path : string) (duration_per_image transition_duration : Q)
    (w : world) : result string * world :=
  match slideshow E w image_paths duration_per_image transition_duration with
  | None => (Raise (Exception_ "Error creating slideshow"), w)
  | Some final_video =>
      let w1 := emit (EvRender output_path) w in
      match encode E final_video with
      | Some content => (Ok output_path, write_file output_path content w1)
      | None => (Raise (Exception_ "write_videofile failed"), w1)
      end
  end.

End video_maker.

(** ** modules/api_manager.py *)

Module api_manager.

(** A dictionary of API keys.  A configuration file is taken to hold a
    JSON object whose ["api_keys"] entry, if there is one, maps names to
    strings. *)
Abbreviation keys := (gmap string pystr).

(** The ["api_keys"] section of the JSON in a file: [None] when the file
    has no such entry. *)
Abbreviation section := (option (gmap string pystr)).

(** The object.  Dictionaries live in a heap, so that [self.api_keys] and
    [self.config["api_keys"]] can be the same dictionary. *)
Record APIManager := Manager {
  heap : gmap nat keys;
  config_api_keys : option nat;   (* self.config["api_keys"], if present *)
  self_api_keys : nat;            (* self.api_keys *)
  config_file : option section    (* the file on disk; None: no usable file *)
}.

Definition deref (m : APIManager) (l : nat) : keys :=
  default ∅ (heap m !! l).

Definition store (l : nat) (d : keys) (m : APIManager) : APIManager :=
  Manager (<[l := d]> (heap m)) (config_api_keys m) (self_api_keys m)
    (config_file m).

(** The ["api_keys"] entry of [get_default_config]. *)
Definition default_api_keys : keys :=
  list_to_map
    [("openai", []); ("stability", []); ("replicate", []);
     ("huggingface", []); ("runwayml", []); ("pika_labs", []);
     ("leia_pix", []); ("midjourney", [])].

(** [load_config], as far as ["api_keys"] goes: the section of the file,
    or that of the default configuration when there is no usable file. *)
Definition load_config (file : option section) : section :=
  match file with
  | Some from_file => from_file
  | None => Some default_api_keys
  end.

Definition env_mapping : list (string * string) :=
  [("OPENAI_API_KEY", "openai"); ("STABILITY_API_KEY", "stability");
   ("REPLICATE_API_KEY", "replicate"); ("HUGGINGFACE_API_KEY", "huggingface");
   ("RUNWAYML_API_KEY", "runwayml"); ("PIKA_LABS_API_KEY", "pika_labs");
   ("LEIA_PIX_API_KEY", "leia_pix"); ("MIDJOURNEY_API_KEY", "midjourney")].

(** Truth value of an optional string: [None] and [""] are falsy. *)
Definition truthy_opt (v : option pystr) : bool :=
  match v with
  | Some s => truthy s
  | None => false
  end.

(** [get_api_key]: [self.api_keys.get(provider)] *)
Definition get_api_key (m : APIManager) (provider : string) : option pystr :=
  deref m (self_api_keys m) !! provider.

(** One pass of [for env_var, key_name in env_mapping.items()]. *)
Definition load_env_key (environ : string -> option pystr) (m : APIManager)
    (entry : string * string) : APIManager :=
  let '(env_var, key_name) := entry in
  let env_value := environ env_var in
  if truthy_opt env_value && negb (truthy_opt (get_api_key m key_name)) then
    store (self_api_keys m)
      (<[key_name := default [] env_value]> (deref m (self_api_keys m))) m
  else m.

Definition load_env_keys (environ : string -> option pystr) (m : APIManager)
  : APIManager :=
  fold_left (load_env_key environ) env_mapping m.

(** [__init__]: [self.api_keys = self.config.get("api_keys", {})] is the
    dictionary of the configuration when it has one, and a new empty
    dictionary, unknown to the configuration, when it has none. *)
Definition init (file : option section) (environ : string -> option pystr)
  : APIManager :=
  load_env_keys environ
    match load_config file with
    | Some d => Manager {[0 := d]} (Some 0) 0 file
    | None => Manager {[0 := ∅]} None 0 file
    end.

(** How [save_config] ends: the file holds the configuration, or writing
    raised, which [save_config] only logs, and the file is in whatever
    state that left it. *)
Inductive save_outcome :=
| Saved
| NotSaved (left_on_disk : option section).

Definition save_config (save : save_outcome) (m : APIManager) : APIManager :=
  Manager (heap m) (config_api_keys m) (self_api_keys m)
    match save with
    | Saved => Some (deref m <$> config_api_keys m)
    | NotSaved left_on_disk => left_on_disk
    end.

Inductive outcome :=
| Returned
| KeyError (key : string).

(** [self.config["api_keys"][provider] = value; self.save_config()] *)
Definition set_in_config (save : save_outcome) (provider : string)
    (value : pystr) (m : APIManager) : outcome * APIManager :=
  match config_api_keys m with
  | None => (KeyError "api_keys", m)
  | Some l =>
      (Returned,
       save_config save (store l (<[provider := value]> (deref m l)) m))
  end.

Definition set_api_key (save : save_outcome) (provider : string)
    (api_key : pystr) (m : APIManager) : outcome * APIManager :=
  let m1 := store (self_api_keys m)
              (<[provider := api_key]> (deref m (self_api_keys m))) m in
  set_in_config save provider api_key m1.

Definition remove_api_key (save : save_outcome) (provider : string)
    (m : APIManager) : outcome * APIManager :=
  match get_api_key m provider with
  | Some _ =>
      let m1 := store (self_api_keys m)
                  (delete provider (deref m (self_api_keys m))) m in
      set_in_config save provider [] m1
  | None => (Returned, m)
  end.

Definition free_providers : list string := ["pollinations"; "edge"; "gtts"].

Definition is_provider_available (m : APIManager) (provider : string)
  : bool :=
  if ImageGenerator.mem provider free_providers then true
  else truthy_opt (get_api_key m provider).

Definition all_providers : list (string * list string) :=
  [("script", ["openai"; "anthropic"; "google"]);
   ("image", ["pollinations"; "openai"; "stability"; "replicate";
              "huggingface"]);
   ("voice", ["edge"; "openai"; "gtts"]);
   ("video", ["moviepy"; "runwayml"; "pika_labs"; "leia_pix"])].

(** [all_providers.get(service_type, [])] *)
Definition providers_of (service_type : string) : list string :=
  match List.find (fun entry => String.eqb (fst entry) service_type)
          all_providers with
  | Some entry => snd entry
  | None => []
  end.

Definition get_available_providers (m : APIManager) (service_type : string)
  : list string :=
  List.filter (is_provider_available m) (providers_of service_type).

(** [get_status_summary] *)
Record summary := Summary {
  total_providers : nat;
  available_providers : nat;
  summary_free_providers : nat;
  paid_providers : nat;
  services : list (string * (nat * nat))   (* service: available, total *)
}.

(** [free_providers] of [get_status_summary]. *)
Definition summary_free : list string :=
  ["pollinations"; "edge"; "gtts"; "moviepy"].

(** One pass of the inner loop [for provider in providers]. *)
Definition count_provider (m : APIManager) (acc : summary * nat)
    (provider : string) : summary * nat :=
  let '(s, service_available) := acc in
  let available := is_provider_available m provider in
  let free := ImageGenerator.mem provider summary_free in
  (Summary (total_providers s + 1)
     (available_providers s + (if available then 1 else 0))
     (summary_free_providers s + (if free then 1 else 0))
     (paid_providers s + (if free then 0 else 1))
     (services s),
   service_available + (if available then 1 else 0)).

(** One pass of [for service_type, providers in all_providers.items()]. *)
Definition count_service (m : APIManager) (s : summary)
    (entry : string * list string) : summary :=
  let '(service_type, providers) := entry in
  let '(s', service_available) :=
    fold_left (count_provider m) providers (s, 0) in
  Summary (total_providers s') (available_providers s')
    (summary_free_providers s') (paid_providers s')
    (services s' ++ [(service_type, (service_available, List.length providers))]).

Definition get_status_summary (m : APIManager) : summary :=
  fold_left (count_service m) all_providers (Summary 0 0 0 0 []).

End api_manager.

(** ** Vocabulary of the further statements *)

(** The path has no directory part: no slash in it. *)
Definition bare_filename (path : string) : bool :=
  forallb (fun c => negb (Ascii.eqb c "/"%char)) (list_ascii_of_string path).



Definition makes_directory (e : event) : bool :=
  match e with
  | EvMakeDirs _ => true
  | _ => false
  end.

(** The call returned. *)
Definition is_ok {A : Type} (r : result A) : bool :=
  match r with
  | Ok _ => true
  | Raise _ => false
  end.

(** A provider of the TTS loop can speak a text. *)
Definition speaks (E : env) (text : pystr) (provider : string) : bool :=
  VoiceGenerator.known_provider provider
  && match tts_backend E provider text with
     | Produced _ => true
     | Failed _ => false
     end.

(** The audio of the first provider of a list that can speak a text. *)
Fixpoint first_voice (E : env) (text : pystr) (providers : list string)
  : option bytes :=
  match providers with
  | [] => None
  | provider :: rest =>
      if VoiceGenerator.known_provider provider then
        match tts_backend E provider text with
        | Produced audio => Some audio
        | Failed _ => first_voice E text rest
        end
      else first_voice E text rest
  end.

(** The narration of a scene text as [_create_video_with_tts] asks for
    it: none for a blank text, else the first voice for the stripped
    text. *)
Definition scene_voice (E : env) (self_provider : string) (text : pystr)
  : option bytes :=
  if blank text then None
  else first_voice E (strip text)
         (VoiceGenerator.providers_to_try self_provider).

(** Some provider in the list of [generate_voice] can speak the text. *)
Definition can_speak (E : env) (self_provider : string) (text : pystr)
  : bool :=
  existsb (speaks E text) (VoiceGenerator.providers_to_try self_provider).




(** A file is on disk. *)
Definition on_disk (w : world) (path : string) : Prop :=
  fs w !! path <> None.

(** [self.api_keys] is the dictionary of the configuration whenever the
    configuration has one. *)
Definition aliased (m : api_manager.APIManager) : Prop :=
  forall l,
    api_manager.config_api_keys m = Some l ->
    l = api_manager.self_api_keys m.

(** The key a configuration section holds for a name. *)
Definition key_in (s : api_manager.section) (name : string) : option pystr :=
  s ≫= (fun d => d !! name).

(** ** Further sample environments *)

Module Cases.

(** Every Pollinations URL answers with a PNG of ten bytes. *)
Definition tiny_png : env :=
  Env (tts_backend Demo.offline) (image_backend Demo.offline)
      (fun _ _ _ => ReplyHttp 200 "image/png" (Demo.blob 10))
      (crop_logo Demo.offline) (has_api_key Demo.offline)
      (draw_placeholder Demo.offline) (draw_plain_image Demo.offline)
      (audio_duration Demo.offline) (decodes_as_image Demo.offline)
      (unicode_lower Demo.offline) (encode Demo.offline).

End Cases.

(** ** Further sample replies *)

Module Replies.

(** Hugging Face asks for a key first and then sends a PNG of 1200
    bytes. *)
Definition key_wanted (inputs : pystr) (with_key : bool) : reply :=
  if with_key then ReplyHttp 200 "image/png" (Demo.blob 1200)
  else ReplyHttp 401 "application/json" [].

End Replies.

(** * Properties *)

(** ** Worlds and traces *)

Lemma trace_emit (e : event) (w : world) : trace (emit e w) = trace w ++ [e].
Proof. reflexivity. Qed.

Lemma fs_emit (e : event) (w : world) : fs (emit e w) = fs w.
Proof. reflexivity. Qed.

Lemma trace_write_file (p : string) (c : bytes) (w : world) :
  trace (write_file p c w) = trace w.
Proof. reflexivity. Qed.

Lemma fs_write_file (p : string) (c : bytes) (w : world) :
  fs (write_file p c w) = <[p := c]> (fs w).
Proof. reflexivity. Qed.

(** ** Stripping *)

Section Strip.

Lemma lstrip_spaces (s : pystr) :
  forallb is_space s = true -> lstrip s = [].
Proof.
  induction s as [|c s IH]; simpl; [reflexivity|].
  intros H. apply andb_prop in H as [Hc Hs]. rewrite Hc. auto.
Qed.

Lemma lstrip_nil_inv (s : pystr) :
  lstrip s = [] -> forallb is_space s = true.
Proof.
  induction s as [|c s IH]; simpl; [reflexivity|].
  destruct (is_space c); simpl; [exact IH | discriminate].
Qed.

(** [lstrip] removes a prefix of white space and stops at the first
    other character. *)
Lemma lstrip_split (s : pystr) :
  exists pre, s = pre ++ lstrip s /\ forallb is_space pre = true.
Proof.
  induction s as [|c s [pre [Heq Hpre]]]; simpl.
  - exists []. split; reflexivity.
  - destruct (is_space c) eqn:Hc.
    + exists (c :: pre). split; [simpl; congruence|].
      simpl. rewrite Hc. exact Hpre.
    + exists []. split; reflexivity.
Qed.

Lemma lstrip_head (s : pystr) (c : N) (t : pystr) :
  lstrip s = c :: t -> is_space c = false.
Proof.
  induction s as [|a s IH]; simpl; [discriminate|].
  destruct (is_space a) eqn:Ha; [exact IH|].
  intros [= -> _]. exact Ha.
Qed.

Lemma forallb_rev_space (s : pystr) :
  forallb is_space (rev s) = forallb is_space s.
Proof.
  induction s as [|c s IH]; simpl; [reflexivity|].
  rewrite forallb_app, IH. simpl. rewrite andb_true_r. apply andb_comm.
Qed.

Lemma rstrip_split (s : pystr) :
  exists post, s = rstrip s ++ post /\ forallb is_space post = true.
Proof.
  unfold rstrip. destruct (lstrip_split (rev s)) as [pre [Heq Hpre]].
  exists (rev pre). split.
  - rewrite <- rev_app_distr, <- Heq, rev_involutive. reflexivity.
  - rewrite forallb_rev_space. exact Hpre.
Qed.

(** The text is blank (empty or white space only) exactly when nothing
    is left after stripping. *)
Lemma strip_nil_iff (s : pystr) :
  strip s = [] <-> forallb is_space s = true.
Proof.
  unfold strip, rstrip. split.
  - intros H. apply (f_equal (@rev N)) in H.
    rewrite rev_involutive in H. simpl in H.
    apply lstrip_nil_inv in H. rewrite forallb_rev_space in H.
    destruct (lstrip_split s) as [pre [Heq Hpre]].
    rewrite Heq, forallb_app, Hpre, H. reflexivity.
  - intros H. rewrite (lstrip_spaces s H). reflexivity.
Qed.

Lemma strip_split (s : pystr) :
  exists pre post,
    s = pre ++ strip s ++ post
    /\ forallb is_space pre = true /\ forallb is_space post = true.
Proof.
  destruct (lstrip_split s) as [pre [Heq Hpre]].
  destruct (rstrip_split (lstrip s)) as [post [Heq' Hpost]].
  exists pre, post. unfold strip. rewrite <- Heq'. auto.
Qed.

(** What is left neither starts nor ends with white space. *)
Lemma strip_ends (s : pystr) :
  (forall c t, strip s = c :: t -> is_space c = false)
  /\ (forall t c, strip s = t ++ [c] -> is_space c = false).
Proof.
  split.
  - intros c t H. unfold strip, rstrip in H.
    remember (lstrip s) as u eqn:Hu.
    destruct (lstrip_split (rev u)) as [pre [Heq Hpre]].
    destruct u as [|a u'].
    + simpl in H. discriminate.
    + assert (Ha : is_space a = false)
        by (symmetry in Hu; exact (lstrip_head _ _ _ Hu)).
      apply (f_equal (@rev N)) in Heq.
      rewrite rev_involutive, rev_app_distr, H in Heq.
      simpl in Heq. injection Heq as -> _. exact Ha.
  - intros t c H. unfold strip, rstrip in H.
    apply (f_equal (@rev N)) in H.
    rewrite rev_involutive, rev_app_distr in H. simpl in H.
    exact (lstrip_head _ _ _ H).
Qed.

End Strip.

(** ** Text-to-speech fallback *)

Section VoiceFallback.

Import VoiceGenerator.

Variable E : env.
Variables (text : pystr) (output_path : string).

Local Abbreviation attempted := (tts_attempts text output_path).
Local Abbreviation tts_fails := (tts_fails E text).

(** Failing providers are passed over, one call each, and leave the disk
    as it was. *)
Lemma try_providers_skip_failing (failing rest : list string) :
  Forall tts_fails failing ->
  forall last w, exists last' w',
    try_providers E (failing ++ rest) text output_path last w
    = try_providers E rest text output_path last' w'
    /\ fs w' = fs w
    /\ trace w' = trace w ++ attempted failing.
Proof.
  induction 1 as [|p failing [reason Hp] _ IH]; intros last w.
  - exists last, w. unfold tts_attempts. simpl. rewrite app_nil_r. auto.
  - simpl. unfold tts_attempts. simpl.
    destruct (known_provider p) eqn:Hk.
    + unfold call_adapter. rewrite Hp.
      destruct (IH (Some (ProviderError reason))
                  (emit (EvTts p text output_path) w))
        as (last' & w' & Heq & Hfs & Htr).
      exists last', w'. rewrite Heq. repeat split; [exact Hfs|].
      rewrite Htr, trace_emit, <- app_assoc. reflexivity.
    + apply IH.
Qed.


(** When every provider fails, the raised exception quotes the error of
    the last provider that was called. *)
Lemma try_providers_all_fail (failing : list string) (provider reason : string) :
  Forall tts_fails failing ->
  known_provider provider = true ->
  tts_backend E provider text = Failed reason ->
  forall last w, exists w',
    try_providers E (failing ++ [provider]) text output_path last w
    = (Raise (Exception_ ("All TTS providers failed. Last error: " ++ reason)), w')
    /\ fs w' = fs w
    /\ trace w' = trace w ++ attempted (failing ++ [provider]).
Proof.
  intros Hfail Hk Hp last w.
  destruct (try_providers_skip_failing failing [provider] Hfail last w)
    as (last' & w1 & Heq & Hfs & Htr).
  rewrite Heq. simpl. rewrite Hk. unfold call_adapter. rewrite Hp. simpl.
  eexists. split; [reflexivity|]. split.
  - rewrite fs_emit. exact Hfs.
  - rewrite trace_emit, Htr.
    unfold tts_attempts. rewrite List.filter_app, List.map_app. simpl. rewrite Hk. simpl.
    rewrite <- app_assoc. reflexivity.
Qed.

End VoiceFallback.

(** ** The Pollinations request loop *)

Section Pollinations.

Import ImageGenerator.

Variable E : env.
Variables (prompt : pystr) (output_path : string).

Local Abbreviation reply_at := (pollinations_get E prompt).

(** Only a reply that passes the status checks and the validation is
    accepted. *)
Lemma judge_accept (retry : nat) (r : reply) (body : bytes) :
  judge retry r = Accept body <->
  exists status content_type,
    r = ReplyHttp status content_type body
    /\ status_passes status = true
    /\ valid_image content_type body = true.
Proof.
  unfold judge, status_passes, valid_image. split.
  - destruct r as [| reason | reason | status ct b];
      try (destruct (retry <? 2)%nat; discriminate); try discriminate.
    destruct (server_error status) eqn:Hsrv;
      [destruct (retry <? 2)%nat; discriminate|].
    destruct (raises_for_status status) eqn:Hrfs;
      [destruct (retry <? 2)%nat; discriminate|].
    destruct (image_content_type ct) eqn:Hct; simpl; [|discriminate].
    destruct (too_small b) eqn:Hsz; simpl; [discriminate|].
    intros [= <-]. exists status, ct. rewrite Hsrv, Hrfs, Hct, Hsz. auto.
  - intros (status & ct & -> & Hs & Hv).
    apply andb_prop in Hs as [Hs1 Hs2]. apply andb_prop in Hv as [Hv1 Hv2].
    apply negb_true_iff in Hs1, Hs2, Hv2.
    rewrite Hs1, Hs2, Hv1, Hv2. reflexivity.
Qed.



Lemma retry_loop_trace (url_index : nat) (retries : list nat) :
  forall w res w',
    retry_loop E prompt output_path url_index retries w = (res, w') ->
    exists evs, trace w' = trace w ++ evs /\ forallb http_event evs = true.
Proof.
  induction retries as [|retry later IH]; simpl; intros w res w' H.
  - injection H as _ <-. exists []. rewrite app_nil_r. auto.
  - destruct (judge retry (reply_at url_index retry)) as [body|s|[body|]].
    + injection H as _ <-. exists [EvHttpGet url_index retry].
      destruct (crop_logo E body); auto.
    + apply IH in H as (evs & Htr & Hev).
      exists (EvHttpGet url_index retry :: EvSleep s :: evs).
      rewrite Htr, !trace_emit, <- !app_assoc. auto.
    + injection H as _ <-. exists [EvHttpGet url_index retry]. auto.
    + injection H as _ <-. exists [EvHttpGet url_index retry]. auto.
Qed.

(** A returned path is the output path, and the file behind it is the body
    of a validated reply (cropped when the crop succeeds). *)
Lemma retry_loop_accepts (url_index : nat) (retries : list nat) :
  forall w path w',
    retry_loop E prompt output_path url_index retries w = (Some path, w') ->
    path = output_path
    /\ exists retry status content_type body,
         In retry retries
         /\ reply_at url_index retry = ReplyHttp status content_type body
         /\ status_passes status = true
         /\ valid_image content_type body = true
         /\ fs w' !! output_path = Some (default body (crop_logo E body)).
Proof.
  induction retries as [|retry later IH]; simpl; intros w path w' H.
  - discriminate.
  - destruct (judge retry (reply_at url_index retry)) as [body|s|[b|]] eqn:Hj.
    + injection H as <- <-. split; [reflexivity|].
      apply judge_accept in Hj as (status & ct & Hr & Hs & Hv).
      exists retry, status, ct, body. repeat split; auto.
      destruct (crop_logo E body); simpl;
        rewrite ?fs_write_file; apply lookup_insert_eq.
    + apply IH in H as [-> (r & st & ct & b & Hin & Hrest)].
      split; [reflexivity|]. exists r, st, ct, b. auto.
    + discriminate.
    + discriminate.
Qed.

Lemma url_loop_trace (urls : list nat) :
  forall w res w',
    url_loop E prompt output_path urls w = (res, w') ->
    exists evs, trace w' = trace w ++ evs /\ forallb http_event evs = true.
Proof.
  induction urls as [|u later IH]; cbn [url_loop]; intros w res w' H.
  - injection H as _ <-. exists []. rewrite app_nil_r. auto.
  - destruct (retry_loop E prompt output_path u (seq 0 3) w)
      as [[path|] w1] eqn:Hr;
      apply retry_loop_trace in Hr as (evs1 & Htr1 & Hev1).
    + injection H as _ <-. eauto.
    + apply IH in H as (evs2 & Htr2 & Hev2). exists (evs1 ++ evs2).
      rewrite Htr2, Htr1, <- app_assoc, forallb_app, Hev1, Hev2. auto.
Qed.

Lemma url_loop_accepts (urls : list nat) :
  forall w path w',
    url_loop E prompt output_path urls w = (Ok path, w') ->
    path = output_path
    /\ exists url_index retry status content_type body,
         In url_index urls /\ (retry < 3)%nat
         /\ reply_at url_index retry = ReplyHttp status content_type body
         /\ status_passes status = true
         /\ valid_image content_type body = true
         /\ fs w' !! output_path = Some (default body (crop_logo E body)).
Proof.
  induction urls as [|u later IH]; cbn [url_loop]; intros w path w' H.
  - discriminate.
  - destruct (retry_loop E prompt output_path u (seq 0 3) w)
      as [[p|] w1] eqn:Hr.
    + injection H as <- <-.
      apply retry_loop_accepts in Hr
        as [-> (r & st & ct & b & Hin & Hrep & Hs & Hv & Hfs)].
      split; [reflexivity|]. exists u, r, st, ct, b.
      split; [left; reflexivity|].
      split; [apply in_seq in Hin; lia|]. auto.
    + apply IH in H as [-> (u' & r & st & ct & b & Hin & Hrest)].
      split; [reflexivity|]. exists u', r, st, ct, b.
      split; [right; exact Hin | exact Hrest].
Qed.



End Pollinations.

(** ** [generate_voice] *)

Section GenerateVoice.

Import VoiceGenerator.

Variable E : env.

Lemma blank_truthy (text : pystr) :
  blank text = false -> truthy text = true /\ truthy (strip text) = true.
Proof.
  intros Hb. split.
  - destruct text; [discriminate | reflexivity].
  - destruct (strip text) eqn:Hs; [|reflexivity].
    apply strip_nil_iff in Hs. unfold blank in Hb. congruence.
Qed.

Lemma blank_rejected (self_provider : string) (text : pystr)
    (output_path : string) (w : world) :
  blank text = true ->
  exists msg,
    generate_voice E self_provider text output_path w
    = (Raise (ValueError msg), w).
Proof.
  intros Hb. unfold generate_voice.
  destruct text as [|c text]; simpl truthy; simpl negb; cbv iota.
  - eauto.
  - apply strip_nil_iff in Hb. rewrite Hb. simpl. eauto.
Qed.

(** With text to speak and a directory to write to, the call is the
    provider loop on the stripped text. *)
Lemma generate_voice_loop (self_provider : string) (text : pystr)
    (output_path : string) (w : world) :
  blank text = false ->
  dirname output_path <> "" ->
  generate_voice E self_provider text output_path w
  = try_providers E (providers_to_try self_provider) (strip text)
      output_path None (emit (EvMakeDirs (dirname output_path)) w).
Proof.
  intros Hb Hd. unfold generate_voice.
  destruct (blank_truthy text Hb) as [-> ->]. simpl.
  unfold makedirs. apply String.eqb_neq in Hd. rewrite Hd. reflexivity.
Qed.

(** Without a directory part in the output path the call stops at
    [os.makedirs] and no provider is tried. *)
Lemma generate_voice_no_directory (self_provider : string) (text : pystr)
    (output_path : string) (w : world) :
  blank text = false ->
  dirname output_path = "" ->
  generate_voice E self_provider text output_path w
  = (Raise (FileNotFoundError ""), w).
Proof.
  intros Hb Hd. unfold generate_voice.
  destruct (blank_truthy text Hb) as [-> ->]. simpl.
  unfold makedirs. rewrite Hd. reflexivity.
Qed.

(** Every adapter call of a run gets the stripped text and the output
    path of the run. *)
Lemma try_providers_calls (providers : list string) (text : pystr)
    (output_path : string) :
  forall last w res w',
    try_providers E providers text output_path last w = (res, w') ->
    exists called,
      trace w' = trace w ++ tts_attempts text output_path called.
Proof.
  induction providers as [|p rest IH]; simpl; intros last w res w' H.
  - injection H as _ <-. exists []. unfold tts_attempts. simpl.
    rewrite app_nil_r. reflexivity.
  - destruct (known_provider p) eqn:Hk.
    + unfold call_adapter in H.
      destruct (tts_backend E p text) as [audio|reason].
      * injection H as _ <-. exists [p]. unfold tts_attempts. simpl.
        rewrite Hk. reflexivity.
      * apply IH in H as [called Htr]. exists (p :: called).
        rewrite Htr, trace_emit, <- app_assoc. unfold tts_attempts. simpl.
        rewrite Hk. reflexivity.
    + eapply IH. exact H.
Qed.

End GenerateVoice.

(** ** [generate_image], the batch and the application loop *)

Section ImageFallback.

Import ImageGenerator.

Variable E : env.

Local Abbreviation image_fails := (image_fails E).
Local Abbreviation tried_provider := (tried_provider E).

Lemma http_no_placeholder (evs : list event) :
  forallb http_event evs = true -> no_placeholder evs.
Proof.
  unfold no_placeholder. induction evs as [|e evs IH]; simpl; [auto|].
  intros H. apply andb_prop in H as [He Hevs]. rewrite (IH Hevs).
  destruct e; simpl in *; congruence.
Qed.

(** An adapter call announces itself and then only talks to the network. *)
Lemma call_adapter_trace (provider : string) (prompt : pystr)
    (output_path : string) (w : world) (res : result string) (w' : world) :
  call_adapter E provider prompt output_path w = (res, w') ->
  exists evs,
    trace w' = trace w ++ EvImage provider prompt output_path :: evs
    /\ forallb http_event evs = true.
Proof.
  unfold call_adapter, _generate_pollinations_image. intros H.
  destruct (String.eqb provider "pollinations").
  - apply url_loop_trace in H as (evs & Htr & Hev). exists evs.
    rewrite Htr, trace_emit, <- app_assoc. auto.
  - destruct (image_backend E provider prompt); injection H as _ <-;
      exists []; rewrite ?trace_write_file, trace_emit; auto.
Qed.

Lemma try_providers_trace (providers : list string) (prompt : pystr)
    (output_path : string) :
  forall last w res w',
    try_providers E providers prompt output_path last w = (res, w') ->
    exists evs,
      trace w' = trace w ++ evs /\ no_placeholder evs
      /\ forall p q o, In (EvImage p q o) evs -> In p providers.
Proof.
  induction providers as [|p rest IH]; simpl; intros last w res w' H.
  - injection H as _ <-. exists []. rewrite app_nil_r.
    split; [reflexivity|]. split; [reflexivity|]. intros ? ? ? [].
  - destruct (known_provider p).
    + destruct (call_adapter E p prompt output_path w) as [[path|e] w1] eqn:Hc;
        apply call_adapter_trace in Hc as (evs1 & Htr1 & Hev1).
      * injection H as _ <-. exists (EvImage p prompt output_path :: evs1).
        split; [exact Htr1|]. split.
        -- unfold no_placeholder. simpl. apply http_no_placeholder, Hev1.
        -- intros p' q o [Heq|Hin]; [injection Heq as <- _ _; auto|].
           exfalso. rewrite forallb_forall in Hev1.
           specialize (Hev1 _ Hin). discriminate.
      * apply IH in H as (evs2 & Htr2 & Hnp & Hin2).
        exists ((EvImage p prompt output_path :: evs1) ++ evs2).
        split; [rewrite Htr2, Htr1, <- app_assoc; reflexivity|]. split.
        -- unfold no_placeholder in *. rewrite forallb_app, Hnp. simpl.
           rewrite (http_no_placeholder _ Hev1). reflexivity.
        -- intros p' q o Hin. apply in_app_or in Hin as [[Heq|Hin]|Hin].
           ++ injection Heq as <- _ _. auto.
           ++ exfalso. rewrite forallb_forall in Hev1.
              specialize (Hev1 _ Hin). discriminate.
           ++ right. eauto.
    + apply IH in H as (evs & Htr & Hnp & Hin). exists evs.
      split; [exact Htr|]. split; [exact Hnp|]. intros; right; eauto.
Qed.


Lemma providers_to_try_single (self_provider : string) :
  providers_to_try E self_provider = [tried_provider self_provider].
Proof.
  unfold providers_to_try, tried_provider.
  destruct (mem self_provider (available_providers E)); reflexivity.
Qed.

Lemma mem_spec (x : string) (l : list string) :
  mem x l = true <-> In x l.
Proof.
  unfold mem. rewrite existsb_exists. split.
  - intros (y & Hin & Heq). apply String.eqb_eq in Heq. congruence.
  - intros Hin. exists x. split; [exact Hin | apply String.eqb_refl].
Qed.

Lemma available_known (p : string) :
  In p (available_providers E) -> known_provider p = true.
Proof.
  unfold available_providers. intros Hin.
  repeat (apply in_app_or in Hin as [Hin|Hin];
          [destruct (has_api_key E _); [|destruct Hin];
           destruct Hin as [<-|[]]; reflexivity|]).
  destruct Hin as [<-|[]]; reflexivity.
Qed.

Lemma tried_provider_known (self_provider : string) :
  known_provider (tried_provider self_provider) = true.
Proof.
  unfold tried_provider.
  destruct (mem self_provider (available_providers E)) eqn:Hm;
    [|reflexivity].
  apply available_known, mem_spec, Hm.
Qed.

(** [generate_image] is one adapter call: its value is returned, its
    exception is reported as the last error. *)
Lemma generate_image_single (self_provider : string) (prompt : pystr)
    (output_path : string) (w : world) :
  let w1 := if String.eqb (dirname output_path) "" then w
            else emit (EvMakeDirs (dirname output_path)) w in
  generate_image E self_provider prompt output_path w
  = match call_adapter E (tried_provider self_provider) prompt output_path w1 with
    | (Ok path, w') => (Ok path, w')
    | (Raise e, w') => (Raise (Exception_ (all_failed_message (Some e))), w')
    end.
Proof.
  unfold generate_image. rewrite providers_to_try_single. simpl.
  rewrite tried_provider_known.
  destruct (call_adapter _ _ _ _ _) as [[path|e] w']; reflexivity.
Qed.

Lemma generate_image_trace (self_provider : string) (prompt : pystr)
    (output_path : string) (w : world) (res : result string) (w' : world) :
  generate_image E self_provider prompt output_path w = (res, w') ->
  exists evs, trace w' = trace w ++ evs /\ no_placeholder evs.
Proof.
  unfold generate_image. intros H.
  apply try_providers_trace in H as (evs & Htr & Hnp & _).
  destruct (String.eqb (dirname output_path) "").
  - eauto.
  - exists (EvMakeDirs (dirname output_path) :: evs).
    rewrite Htr, trace_emit, <- app_assoc. auto.
Qed.

End ImageFallback.

(** ** Claims about the provider fallback *)

(** C10.  A text that is empty or white space only makes [generate_voice]
    raise [ValueError] with the world untouched: no provider was called
    and no file or directory was written.  Any other text is stripped
    first: it is white space, then the stripped text, then white space;
    the stripped text neither starts nor ends with white space; and every
    adapter call of the run receives the stripped text. *)
Theorem C10_blank_text_rejected_and_text_stripped
    (E : env) (self_provider : string) (text : pystr) (output_path : string)
    (w : world) :
  (blank text = true ->
   exists msg,
     VoiceGenerator.generate_voice E self_provider text output_path w
     = (Raise (ValueError msg), w))
  /\ (blank text = false ->
      (exists pre post,
         text = pre ++ strip text ++ post
         /\ blank pre = true /\ blank post = true)
      /\ (forall c t, strip text = c :: t -> is_space c = false)
      /\ (forall t c, strip text = t ++ [c] -> is_space c = false)
      /\ exists called,
           trace (snd (VoiceGenerator.generate_voice E self_provider text
                         output_path w))
           = trace w
             ++ (if String.eqb (dirname output_path) "" then []
                 else [EvMakeDirs (dirname output_path)])
             ++ tts_attempts (strip text) output_path called).
Proof.
  split.
  - apply blank_rejected.
  - intros Hb. split; [apply strip_split|].
    destruct (strip_ends text) as [Hhd Hlast].
    split; [exact Hhd|]. split; [exact Hlast|].
    destruct (String.eqb (dirname output_path) "") eqn:Hd.
    + apply String.eqb_eq in Hd.
      rewrite (generate_voice_no_directory E _ _ _ _ Hb Hd).
      exists []. simpl. rewrite app_nil_r. reflexivity.
    + apply String.eqb_neq in Hd.
      rewrite (generate_voice_loop E _ _ _ _ Hb Hd).
      destruct (VoiceGenerator.try_providers _ _ _ _ _ _) as [res w'] eqn:Hrun.
      apply try_providers_calls in Hrun as [called Htr].
      exists called. simpl. rewrite Htr, trace_emit, <- app_assoc.
      reflexivity.
Qed.

(** C10 on a text of three blanks and on the text [  hi ]. *)
Lemma C10_witness :
  (exists msg,
     VoiceGenerator.generate_voice Demo.gtts_up "edge" (lit "   ")
       "temp/scene_1_tts.mp3" Demo.fresh
     = (Raise (ValueError msg), Demo.fresh))
  /\ strip (lit "  hi ") = lit "hi".
Proof.
  split.
  - apply (proj1 (C10_blank_text_rejected_and_text_stripped Demo.gtts_up
                    "edge" (lit "   ") "temp/scene_1_tts.mp3" Demo.fresh)).
    reflexivity.
  - reflexivity.
Defined.



(** The exception of an exhausted TTS run does not determine the ledger:
    two runs that differ only in what Edge reports raise the same
    exception.  So C5, as stated, fails. *)
Lemma C5_counterexample : ~ exhaustion_carries_ledger.
Proof.
  intros [ledger_of H].
  pose proof (H (Demo.tts_down "timeout") "edge" (lit "hi")
                "temp/scene_1_tts.mp3" Demo.fresh _ _ eq_refl eq_refl) as H1.
  pose proof (H (Demo.tts_down "403") "edge" (lit "hi")
                "temp/scene_1_tts.mp3" Demo.fresh _ _ eq_refl eq_refl) as H2.
  assert (Hd : dirname "temp/scene_1_tts.mp3" <> "")
    by (vm_compute; discriminate).
  specialize (H1 Hd). specialize (H2 Hd).
  vm_compute in H1, H2. rewrite H1 in H2. discriminate.
Qed.

(** C5, amended.  When every provider of the list fails, [generate_voice]
    raises a plain exception whose message quotes the error of the last
    provider only; every provider was called once and the disk is as
    before.  [generate_image] tries one provider and, when it fails,
    raises a plain exception whose message quotes that provider's
    error. *)
Theorem C5_exhaustion_reports_last_error (E : env) :
  (forall self_provider failing provider reason text output_path w,
      blank text = false ->
      dirname output_path <> "" ->
      VoiceGenerator.providers_to_try self_provider = failing ++ [provider] ->
      Forall (tts_fails E (strip text)) failing ->
      tts_backend E provider (strip text) = Failed reason ->
      exists w',
        VoiceGenerator.generate_voice E self_provider text output_path w
        = (Raise (Exception_ ("All TTS providers failed. Last error: "
                              ++ reason)), w')
        /\ fs w' = fs w
        /\ trace w'
           = trace w ++ EvMakeDirs (dirname output_path)
               :: tts_attempts (strip text) output_path
                    (failing ++ [provider]))
  /\ (forall self_provider prompt output_path w,
        image_fails E prompt output_path (tried_provider E self_provider) ->
        exists e w',
          ImageGenerator.generate_image E self_provider prompt output_path w
          = (Raise (Exception_ (ImageGenerator.all_failed_message (Some e))),
             w')
          /\ exists w1,
               ImageGenerator.call_adapter E (tried_provider E self_provider)
                 prompt output_path w1 = (Raise e, w')).
Proof.
  split.
  - intros self failing provider reason text out w Hb Hd Hl Hf Hp.
    rewrite (generate_voice_loop E _ _ _ _ Hb Hd), Hl.
    assert (Hk : VoiceGenerator.known_provider provider = true).
    { assert (Hin : In provider (VoiceGenerator.providers_to_try self))
        by (rewrite Hl; apply in_or_app; right; left; reflexivity).
      unfold VoiceGenerator.providers_to_try in Hin.
      repeat (destruct (String.eqb self _) in Hin);
        simpl in Hin; intuition (subst; reflexivity). }
    destruct (try_providers_all_fail E (strip text) out failing provider
                reason Hf Hk Hp None (emit (EvMakeDirs (dirname out)) w))
      as (w' & Heq & Hfs & Htr).
    exists w'. split; [exact Heq|]. split; [exact Hfs|].
    rewrite Htr, trace_emit, <- app_assoc. reflexivity.
  - intros self prompt out w Hf.
    pose proof (generate_image_single E self prompt out w) as Hg.
    cbv zeta in Hg.
    destruct (Hf (if String.eqb (dirname out) "" then w
                  else emit (EvMakeDirs (dirname out)) w)) as (e & w' & Hc).
    rewrite Hc in Hg. exists e, w'. split; [exact Hg|]. eauto.
Qed.

(** C5 (amended) with all five TTS providers down. *)
Lemma C5_witness :
  exists w',
    VoiceGenerator.generate_voice (Demo.tts_down "timeout") "edge"
      (lit "hi") "temp/scene_1_tts.mp3" Demo.fresh
    = (Raise (Exception_ "All TTS providers failed. Last error: quota"), w')
    /\ fs w' = fs Demo.fresh
    /\ trace w'
       = trace Demo.fresh ++ EvMakeDirs "temp"
           :: tts_attempts (lit "hi") "temp/scene_1_tts.mp3"
                (["edge"; "elevenlabs"; "gtts"; "openai"] ++ ["azure"]).
Proof.
  apply (proj1 (C5_exhaustion_reports_last_error (Demo.tts_down "timeout"))
           "edge" ["edge"; "elevenlabs"; "gtts"; "openai"] "azure" "quota"
           (lit "hi") "temp/scene_1_tts.mp3" Demo.fresh).
  - reflexivity.
  - vm_compute. discriminate.
  - reflexivity.
  - repeat constructor; eexists; reflexivity.
  - reflexivity.
Defined.

(** ** Image exhaustion *)

Section ImageExhaustion.

Import ImageGenerator.

Variable E : env.
Variable self_provider : string.

Local Abbreviation tried := (tried_provider E self_provider).

Lemma http_events_not_image (evs : list event) :
  forallb http_event evs = true -> List.filter image_event evs = [].
Proof.
  induction evs as [|e evs IH]; simpl; [reflexivity|].
  intros H. apply andb_prop in H as [He Hevs].
  destruct e; simpl in *; try discriminate; auto.
Qed.

(** One [generate_image] call is one adapter call and draws nothing. *)
Lemma generate_image_events (prompt : pystr) (output_path : string)
    (w : world) (res : result string) (w' : world) :
  generate_image E self_provider prompt output_path w = (res, w') ->
  exists evs,
    trace w' = trace w ++ evs /\ no_placeholder evs
    /\ List.length (List.filter image_event evs) = 1.
Proof.
  intros H. pose proof (generate_image_single E self_provider prompt
                          output_path w) as Hg.
  cbv zeta in Hg. rewrite H in Hg.
  destruct (call_adapter E tried prompt output_path _) as [r w1] eqn:Hc.
  assert (Hw : w' = w1) by (destruct r; congruence). subst w1.
  apply call_adapter_trace in Hc as (evs & Htr & Hev).
  destruct (String.eqb (dirname output_path) "").
  - exists (EvImage tried prompt output_path :: evs).
    split; [exact Htr|]. split.
    + unfold no_placeholder. simpl. apply http_no_placeholder, Hev.
    + simpl. rewrite (http_events_not_image _ Hev). reflexivity.
  - exists (EvMakeDirs (dirname output_path)
            :: EvImage tried prompt output_path :: evs).
    split; [rewrite Htr, trace_emit, <- app_assoc; reflexivity|]. split.
    + unfold no_placeholder. simpl. apply http_no_placeholder, Hev.
    + simpl. rewrite (http_events_not_image _ Hev). reflexivity.
Qed.

Lemma generate_image_raises (prompt : pystr) (output_path : string)
    (w : world) :
  image_fails E prompt output_path tried ->
  exists e w',
    generate_image E self_provider prompt output_path w = (Raise e, w').
Proof.
  intros Hf. rewrite generate_image_single. cbv zeta.
  destruct (Hf (if String.eqb (dirname output_path) "" then w
                else emit (EvMakeDirs (dirname output_path)) w))
    as (e & w' & ->). eauto.
Qed.

Lemma generate_image_returns (prompt : pystr) (output_path : string)
    (w : world) :
  image_succeeds E prompt output_path tried ->
  exists w',
    generate_image E self_provider prompt output_path w = (Ok output_path, w').
Proof.
  intros Hs. rewrite generate_image_single. cbv zeta.
  destruct (Hs (if String.eqb (dirname output_path) "" then w
                else emit (EvMakeDirs (dirname output_path)) w))
    as (w' & ->). eauto.
Qed.

(** A returned path is always the requested output path. *)
Lemma generate_image_path (prompt : pystr) (output_path : string)
    (w : world) (path : string) (w' : world) :
  generate_image E self_provider prompt output_path w = (Ok path, w') ->
  path = output_path.
Proof.
  rewrite generate_image_single. cbv zeta.
  destruct (call_adapter E tried prompt output_path _) as [[p|e] w1] eqn:Hc;
    [|discriminate].
  intros [= <- <-]. unfold call_adapter, _generate_pollinations_image in Hc.
  destruct (String.eqb tried "pollinations").
  - apply url_loop_accepts in Hc as [-> _]. reflexivity.
  - destruct (image_backend E tried prompt); congruence.
Qed.

(** The loop of the application stops at the first scene whose image
    cannot be generated: the exception leaves the loop, no later scene is
    tried and nothing is drawn in place of the image. *)
Lemma app_image_loop_aborts (prompt : pystr) (later : list pystr) :
  forall (before : list pystr) (i : nat) (paths : list string) (w : world),
    (forall k p, before !! k = Some p ->
                 image_succeeds E p (scene_image_path (i + k)) tried) ->
    image_fails E prompt (scene_image_path (i + List.length before)) tried ->
    exists e w',
      app_image_loop E self_provider i (before ++ prompt :: later) paths w
      = (Raise e, w')
      /\ exists evs,
           trace w' = trace w ++ evs /\ no_placeholder evs
           /\ List.length (List.filter image_event evs)
              = S (List.length before).
Proof.
  induction before as [|p before IH]; intros i paths w Hok Hfail.
  - simpl in *. rewrite Nat.add_0_r in Hfail.
    destruct (generate_image_raises prompt _ w Hfail) as (e & w' & Hg).
    rewrite Hg. exists e, w'. split; [reflexivity|].
    apply generate_image_events in Hg. exact Hg.
  - simpl.
    assert (Hp : image_succeeds E p (scene_image_path i) tried).
    { rewrite <- (Nat.add_0_r i). apply Hok. reflexivity. }
    destruct (generate_image_returns p _ w Hp) as (w1 & Hg). rewrite Hg.
    apply generate_image_events in Hg as (evs1 & Htr1 & Hnp1 & Hc1).
    destruct (IH (S i) (paths ++ [scene_image_path i]) w1)
      as (e & w' & Heq & evs2 & Htr2 & Hnp2 & Hc2).
    + intros k q Hk. replace (S i + k) with (i + S k) by lia.
      apply Hok. exact Hk.
    + replace (S i + List.length before)
        with (i + List.length (p :: before)) by (simpl; lia).
      exact Hfail.
    + exists e, w'. split; [exact Heq|]. exists (evs1 ++ evs2).
      split; [rewrite Htr2, Htr1, <- app_assoc; reflexivity|]. split.
      * unfold no_placeholder in *. rewrite forallb_app, Hnp1, Hnp2.
        reflexivity.
      * rewrite List.filter_app, length_app, Hc1, Hc2. reflexivity.
Qed.

(** [generate_batch_images] comes back with one path per prompt as long
    as the placeholder or the plain image can be drawn. *)
Lemma batch_loop_total (output_dir prefix : string) (total : nat) :
  forall (prompts : list pystr) (i : nat) (paths : list string) (w : world),
    (forall p, In p prompts ->
               draw_placeholder E p <> None \/ draw_plain_image E <> None) ->
    exists w',
      batch_loop E self_provider output_dir prefix total i prompts paths w
      = (paths ++ List.map (batch_path output_dir prefix)
                    (seq i (List.length prompts)), w').
Proof.
  induction prompts as [|p prompts IH]; intros i paths w Hdraw.
  - simpl. rewrite app_nil_r. eauto.
  - assert (Hrest : forall q, In q prompts ->
                      draw_placeholder E q <> None
                      \/ draw_plain_image E <> None)
      by (intros q Hq; apply Hdraw; right; exact Hq).
    cbn [batch_loop List.length seq List.map].
    replace (paths ++ batch_path output_dir prefix i
               :: List.map (batch_path output_dir prefix)
                    (seq (S i) (List.length prompts)))
      with ((paths ++ [batch_path output_dir prefix i])
              ++ List.map (batch_path output_dir prefix)
                   (seq (S i) (List.length prompts)))
      by (rewrite <- app_assoc; reflexivity).
    destruct (generate_image E self_provider p (batch_path output_dir prefix i) w)
      as [[path|e] w1] eqn:Hg.
    + apply generate_image_path in Hg as ->. apply IH, Hrest.
    + unfold _create_placeholder_image.
      destruct (draw_placeholder E p) as [image|] eqn:Hd;
        [apply IH, Hrest|].
      destruct (draw_plain_image E) as [image|] eqn:Hplain.
      * apply IH, Hrest.
      * exfalso. destruct (Hdraw p (or_introl eq_refl)); congruence.
Qed.

End ImageExhaustion.

(** With Pollinations down, [generate_image] raises, yet
    [generate_batch_images] returns normally with the path of a drawn
    placeholder that is on disk.  So C3, as stated, fails on the batch
    entry point. *)
Lemma C3_counterexample : ~ batch_exhaustion_is_fatal.
Proof.
  intros H.
  destruct (H Demo.can_draw "pollinations" (lit "a cat") "outputs/images"
              "scene" Demo.fresh) as (e & w' & Hrun).
  - intros w. unfold tried_provider. simpl.
    unfold ImageGenerator.call_adapter. simpl.
    destruct (ImageGenerator._generate_pollinations_image Demo.can_draw
                (lit "a cat") _ _) as [r w1] eqn:Hp.
    assert (Hr : r = Raise (Exception_ "❌ Pollinations AI: Tất cả URLs và retry đều thất bại. Server có thể đang quá tải.")).
    { change r with (fst (r, w1)). rewrite <- Hp. reflexivity. }
    subst r. eauto.
  - vm_compute in Hrun. discriminate.
Qed.

(** C3, amended.  [generate_image] propagates the failure of its
    provider as a raised exception and draws no placeholder; the scene
    loop of the application stops at that exception, so no later scene is
    tried and no list of images is produced.  [generate_batch_images]
    does not abort: it returns one path per prompt whenever the
    placeholder or the plain image can be drawn, and for a prompt whose
    generation failed the drawn placeholder is what is at that path when
    the loop moves on. *)
Theorem C3_exhaustion_fatal_except_in_batch (E : env) (self_provider : string) :
  (forall prompt output_path w,
      image_fails E prompt output_path (tried_provider E self_provider) ->
      exists e w',
        ImageGenerator.generate_image E self_provider prompt output_path w
        = (Raise e, w')
        /\ exists evs, trace w' = trace w ++ evs /\ no_placeholder evs)
  /\ (forall before prompt later i paths w,
        (forall k p, before !! k = Some p ->
           image_succeeds E p (ImageGenerator.scene_image_path (i + k))
             (tried_provider E self_provider)) ->
        image_fails E prompt
          (ImageGenerator.scene_image_path (i + List.length before))
          (tried_provider E self_provider) ->
        exists e w',
          ImageGenerator.app_image_loop E self_provider i
            (before ++ prompt :: later) paths w = (Raise e, w')
          /\ exists evs,
               trace w' = trace w ++ evs /\ no_placeholder evs
               /\ List.length (List.filter image_event evs)
                  = S (List.length before))
  /\ (forall prompts output_dir prefix w,
        output_dir <> "" ->
        (forall p, In p prompts ->
           draw_placeholder E p <> None \/ draw_plain_image E <> None) ->
        exists w',
          ImageGenerator.generate_batch_images E self_provider prompts
            output_dir prefix w
          = (Ok (List.map (ImageGenerator.batch_path output_dir prefix)
                   (seq 0 (List.length prompts))), w'))
  /\ (forall prompt rest output_dir prefix total i paths w e w1 image,
        ImageGenerator.generate_image E self_provider prompt
          (ImageGenerator.batch_path output_dir prefix i) w = (Raise e, w1) ->
        draw_placeholder E prompt = Some image ->
        exists w2,
          ImageGenerator.batch_loop E self_provider output_dir prefix total i
            (prompt :: rest) paths w
          = ImageGenerator.batch_loop E self_provider output_dir prefix total
              (S i) rest
              (paths ++ [ImageGenerator.batch_path output_dir prefix i]) w2
          /\ fs w2 !! ImageGenerator.batch_path output_dir prefix i
             = Some image
          /\ trace w2
             = trace w1
               ++ [EvPlaceholder
                     (ImageGenerator.batch_path output_dir prefix i)]).
Proof.
  split; [|split; [|split]].
  - intros prompt out w Hf.
    destruct (generate_image_raises E self_provider prompt out w Hf)
      as (e & w' & Hg).
    exists e, w'. split; [exact Hg|].
    apply generate_image_trace in Hg. exact Hg.
  - intros. apply app_image_loop_aborts; assumption.
  - intros prompts dir prefix w Hdir Hdraw.
    unfold ImageGenerator.generate_batch_images, makedirs.
    apply String.eqb_neq in Hdir. rewrite Hdir.
    destruct (batch_loop_total E self_provider dir prefix
                (List.length prompts) prompts 0 []
                (emit (EvMakeDirs dir) w) Hdraw) as [w' Hb].
    rewrite Hb. eauto.
  - intros prompt rest dir prefix total i paths w e w1 image Hg Hd.
    cbn [ImageGenerator.batch_loop]. rewrite Hg.
    unfold ImageGenerator._create_placeholder_image. rewrite Hd.
    eexists. split; [reflexivity|]. split.
    + rewrite fs_write_file. apply lookup_insert_eq.
    + rewrite trace_write_file, trace_emit. reflexivity.
Qed.

(** C3 (amended) with Pollinations down: the single call raises. *)
Lemma C3_witness :
  exists e w',
    ImageGenerator.generate_image Demo.offline "pollinations" (lit "a cat")
      "outputs/images/scene_01.png" Demo.fresh = (Raise e, w')
    /\ exists evs, trace w' = trace Demo.fresh ++ evs /\ no_placeholder evs.
Proof.
  apply (proj1 (C3_exhaustion_fatal_except_in_batch Demo.offline
                  "pollinations")).
  intros w. unfold tried_provider. simpl.
  unfold ImageGenerator.call_adapter. simpl.
  destruct (ImageGenerator._generate_pollinations_image Demo.offline
              (lit "a cat") _ _) as [r w1] eqn:Hp.
  assert (Hr : exists e, r = Raise e).
  { change r with (fst (r, w1)). rewrite <- Hp. eexists. reflexivity. }
  destruct Hr as [e ->]. eauto.
Defined.

(** ** Validation of downloaded images *)



(** ** Clips and timelines *)

Section Clips.

Import VideoMaker.

Local Open Scope Q_scope.

Lemma Qltb_lt (x y : Q) : Qltb x y = true <-> x < y.
Proof.
  unfold Qltb. rewrite negb_true_iff. split.
  - intros H. apply Qnot_le_lt. intros Hle.
    apply Qle_bool_iff in Hle. congruence.
  - intros H. destruct (Qle_bool y x) eqn:Hb; [|reflexivity].
    apply Qle_bool_iff in Hb. exfalso. apply (Qlt_not_le _ _ H Hb).
Qed.

Lemma Qltb_ge (x y : Q) : Qltb x y = false <-> y <= x.
Proof.
  unfold Qltb. rewrite negb_false_iff. apply Qle_bool_iff.
Qed.

(** The zoom of the Ken Burns effect starts at 1 and never exceeds
    [1 + zoom_factor]. *)
Lemma zoom_func_range (m : motion) (duration t : Q) :
  0 <= zoom_factor m -> 0 <= zoom_speed m -> 0 <= t ->
  1 <= zoom_func m duration t <= 1 + zoom_factor m.
Proof.
  intros Hf Hs Ht. unfold zoom_func.
  assert (Hp : 0 <= progress duration t).
  { unfold progress. destruct (Qltb 0 duration) eqn:Hd; [|lra].
    apply Qltb_lt in Hd. apply Qle_shift_div_l; [exact Hd | lra]. }
  assert (Hlo : 0 <= Qmin 1.0 (progress duration t * zoom_speed m)).
  { apply Q.min_glb; [lra|]. apply Qmult_le_0_compat; assumption. }
  assert (Hhi : Qmin 1.0 (progress duration t * zoom_speed m) <= 1)
    by (eapply Qle_trans; [apply Q.le_min_l | lra]).
  split; nra.
Qed.

Lemma place_clips (clips : list clip) :
  forall start, List.map seg_clip (place start clips) = clips.
Proof.
  induction clips as [|c clips IH]; intros start; simpl;
    [reflexivity | rewrite IH; reflexivity].
Qed.

Lemma place_length (clips : list clip) :
  forall start, List.length (place start clips) = List.length clips.
Proof.
  induction clips as [|c clips IH]; intros start; simpl;
    [reflexivity | rewrite IH; reflexivity].
Qed.



(** What a built clip looks like. *)
Lemma build_clip_spec (E : env) (w : world) (n_images : nat)
    (scene_texts : list pystr) (i : nat) (img_path : string) (duration : Q)
    (effect : string) (c : clip) :
  build_clip E w n_images scene_texts i img_path duration effect = Some c ->
  clip_scene c = i /\ clip_duration c = duration
  /\ clip_image c = img_path
  /\ fades c = tts_fades n_images i
  /\ (clip_effect c = "ken_burns"%string ->
      clip_motion c = Some (ken_burns_motion duration)).
Proof.
  unfold build_clip. destruct (image_clip_ok E w img_path); [|discriminate].
  unfold apply_effect.
  destruct (String.eqb (_select_effect_for_scene E effect _) "ken_burns")
    eqn:Hkb.
  - intros [= <-]. unfold tts_fades.
    destruct (0 <? i)%nat, (i <? n_images - 1)%nat; repeat split.
  - destruct (_ || _); [discriminate|]. intros [= <-].
    apply String.eqb_neq in Hkb. unfold tts_fades.
    destruct (0 <? i)%nat, (i <? n_images - 1)%nat; repeat split;
      intros Heq; contradiction.
Qed.

(** Whether a clip can be built does not depend on its duration. *)
Lemma build_clip_duration (E : env) (w : world) (n_images : nat)
    (scene_texts : list pystr) (i : nat) (img_path : string)
    (d d' : Q) (effect : string) (c : clip) :
  build_clip E w n_images scene_texts i img_path d effect = Some c ->
  exists c',
    build_clip E w n_images scene_texts i img_path d' effect = Some c'.
Proof.
  unfold build_clip. destruct (image_clip_ok E w img_path); [|discriminate].
  unfold apply_effect.
  destruct (String.eqb (_select_effect_for_scene E effect _) "ken_burns");
    [eauto|].
  destruct (_ || _); [discriminate | eauto].
Qed.

(** The clips of the loop, in terms of the scenes they come from. *)
Lemma build_clips_spec (E : env) (w : world) (n_images : nat)
    (scene_texts : list pystr) :
  forall image_paths durations effects i c,
    In c (build_clips E w n_images scene_texts i image_paths durations effects) ->
    exists k img_path duration effect,
      image_paths !! k = Some img_path /\ durations !! k = Some duration
      /\ effects !! k = Some effect
      /\ build_clip E w n_images scene_texts (i + k) img_path duration effect
         = Some c.
Proof.
  induction image_paths as [|img imgs IH]; intros durs effs i c Hin.
  - destruct Hin.
  - destruct durs as [|d durs]; [destruct Hin|].
    destruct effs as [|e effs]; [destruct Hin|].
    cbn [build_clips] in Hin.
    destruct (build_clip E w n_images scene_texts i img d e) as [c0|] eqn:Hb.
    + destruct Hin as [<-|Hin].
      * exists 0%nat, img, d, e. rewrite Nat.add_0_r. auto.
      * apply IH in Hin as (k & img' & d' & e' & H1 & H2 & H3 & H4).
        exists (S k), img', d', e'. rewrite Nat.add_succ_r. auto.
    + apply IH in Hin as (k & img' & d' & e' & H1 & H2 & H3 & H4).
      exists (S k), img', d', e'. rewrite Nat.add_succ_r. auto.
Qed.

Lemma build_clips_complete (E : env) (w : world) (n_images : nat)
    (scene_texts : list pystr) :
  forall image_paths durations effects i k img_path duration effect c,
    image_paths !! k = Some img_path -> durations !! k = Some duration ->
    effects !! k = Some effect ->
    build_clip E w n_images scene_texts (i + k) img_path duration effect
    = Some c ->
    In c (build_clips E w n_images scene_texts i image_paths durations effects).
Proof.
  induction image_paths as [|img imgs IH];
    intros durs effs i k img' d' e' c H1 H2 H3 H4.
  - discriminate.
  - destruct durs as [|d durs]; [discriminate|].
    destruct effs as [|e effs]; [discriminate|].
    cbn [build_clips]. destruct k as [|k].
    + simpl in H1, H2, H3. injection H1 as ->. injection H2 as ->.
      injection H3 as ->. rewrite Nat.add_0_r in H4. rewrite H4.
      left. reflexivity.
    + simpl in H1, H2, H3. rewrite Nat.add_succ_r in H4.
      assert (Hin : In c (build_clips E w n_images scene_texts (S i) imgs
                            durs effs))
        by (eapply IH; eassumption).
      destruct (build_clip E w n_images scene_texts i img d e);
        [right|]; exact Hin.
Qed.


End Clips.

(** ** The synchronisation loop *)

Section Sync.

Import VideoMaker.

Local Open Scope Q_scope.

Variable E : env.
Variable w : world.
Variable scene_durations : list Q.

(** The duration the loop appends for [tts_files[i]]. *)
Local Abbreviation appended i tts_file :=
  (match measured_audio E w tts_file with
   | Some (_, d) => if Qltb 0 d then Some (d + buffer) else scene_durations !! i
   | None => scene_durations !! i
   end).

Lemma sync_scene_spec (i : nat) (tts_file : option string) (st st' : sync) :
  sync_scene E w scene_durations i tts_file st = Some st' ->
  exists d,
    appended i tts_file = Some d
    /\ adjusted_scene_durations st' = adjusted_scene_durations st ++ [d]
    /\ current_time st' = current_time st + d
    /\ (audio_clips st' = audio_clips st
        \/ exists path len,
             tts_file = Some path
             /\ audio_clips st'
                = audio_clips st ++ [AudioClip i path (current_time st) len]).
Proof.
  unfold sync_scene.
  destruct (measured_audio E w tts_file) as [[path d]|] eqn:Hm.
  - destruct (Qltb 0 d).
    + intros [= <-]. simpl. exists (d + buffer). repeat split.
      right. exists path, d. split; [|reflexivity].
      unfold measured_audio in Hm. destruct tts_file as [p|]; [|discriminate].
      destruct (_ && _); [|discriminate].
      destruct (fs w !! p ≫= audio_duration E); [|discriminate].
      congruence.
    + destruct (scene_durations !! i) as [r|]; [|discriminate].
      intros [= <-]. simpl. exists r. auto.
  - destruct (scene_durations !! i) as [r|]; [|discriminate].
    intros [= <-]. simpl. exists r. auto.
Qed.

(** What the loop has appended when it is through. *)
Lemma sync_loop_spec (tts_files : list (option string)) :
  forall i st st',
    sync_loop E w scene_durations i tts_files st = Some st' ->
    exists added,
      adjusted_scene_durations st' = adjusted_scene_durations st ++ added
      /\ List.length added = List.length tts_files
      /\ (forall k tts_file,
            tts_files !! k = Some tts_file ->
            added !! k = appended (i + k)%nat tts_file)
      /\ (forall a,
            In a (audio_clips st') ->
            In a (audio_clips st)
            \/ exists k,
                 tts_files !! k = Some (Some (audio_file a))
                 /\ audio_scene a = (i + k)%nat
                 /\ audio_start a
                    == current_time st + total (firstn k added)).
Proof.
  induction tts_files as [|f rest IH]; intros i st st' H.
  - injection H as <-. exists []. rewrite app_nil_r.
    split; [reflexivity|]. split; [reflexivity|].
    split; [intros k f Hk; discriminate | auto].
  - simpl in H.
    destruct (sync_scene E w scene_durations i f st) as [st1|] eqn:Hs;
      [|discriminate].
    apply sync_scene_spec in Hs as (d & Hd & Hadj & Htime & Haudio).
    apply IH in H as (added & Hadj' & Hlen & Hk & Hclips).
    exists (d :: added). split; [rewrite Hadj', Hadj, <- app_assoc; reflexivity|].
    split; [simpl; rewrite Hlen; reflexivity|]. split.
    + intros [|k] f' Hf'.
      * injection Hf' as <-. rewrite Nat.add_0_r. simpl. rewrite Hd.
        reflexivity.
      * simpl. rewrite (Hk k f' Hf'). rewrite Nat.add_succ_r. reflexivity.
    + intros a Ha. destruct (Hclips a Ha) as [Hin|(k & Hf & Hsc & Hst)].
      * destruct Haudio as [Heq|(path & len & -> & Heq)];
          rewrite Heq in Hin; [auto|].
        apply in_app_or in Hin as [Hin|[<-|[]]]; [auto|].
        right. exists 0%nat. simpl. rewrite Nat.add_0_r.
        split; [reflexivity|]. split; [reflexivity|].
        unfold total. simpl. ring.
      * right. exists (S k). simpl. rewrite Nat.add_succ_r.
        split; [exact Hf|]. split; [exact Hsc|].
        rewrite Hst, Htime. unfold total. simpl. ring.
Qed.

(** The loop does not fail when there is a requested duration for every
    entry of [tts_files]. *)
Lemma sync_loop_total (tts_files : list (option string)) :
  forall i st,
    (i + List.length tts_files <= List.length scene_durations)%nat ->
    exists st', sync_loop E w scene_durations i tts_files st = Some st'.
Proof.
  induction tts_files as [|f rest IH]; intros i st Hlen.
  - simpl. eauto.
  - simpl in *.
    assert (Hi : exists r, scene_durations !! i = Some r).
    { destruct (scene_durations !! i) eqn:Hl; [eauto|].
      apply lookup_ge_None in Hl. lia. }
    destruct Hi as [r Hr].
    assert (Hs : exists st1, sync_scene E w scene_durations i f st = Some st1).
    { unfold sync_scene. rewrite Hr.
      destruct (measured_audio E w f) as [[p d]|]; [|eauto].
      destruct (Qltb 0 d); eauto. }
    destruct Hs as [st1 ->]. apply IH. lia.
Qed.

Lemma measured_audio_some (path : string) (content : bytes) (d : Q) :
  path <> ""%string -> fs w !! path = Some content ->
  audio_duration E content = Some d ->
  measured_audio E w (Some path) = Some (path, d).
Proof.
  intros Hp Hf Hd. unfold measured_audio, path_exists.
  apply String.eqb_neq in Hp. rewrite Hp, Hf. simpl. rewrite Hd. reflexivity.
Qed.



End Sync.

(** ** Claims about durations and motion *)



(** At exactly five seconds the code picks the slow tier, not the medium
    one.  So C7, as stated, fails. *)
Lemma C7_counterexample : ~ tier_claim.
Proof.
  intros H. destruct (H 5%Q) as [Hz _]. vm_compute in Hz. discriminate.
Qed.

(** C7, amended.  [_apply_ken_burns_effect] picks the fast tier (zoom
    speed 0.8, pan speed 0.6, zoom extent 0.30) for a duration below 2 s,
    the medium tier (1.0, 0.8, 0.20) for a duration from 2 s up to but not
    including 5 s, and the slow tier (1.2, 1.0, 0.15) for a duration of
    5 s or more; a duration of exactly 5 s is in the slow tier. *)
Theorem C7_speed_tiers (duration : Q) :
  ((duration < 2)%Q ->
   VideoMaker.ken_burns_motion duration = VideoMaker.fast_tier)
  /\ ((2 <= duration)%Q -> (duration < 5)%Q ->
      VideoMaker.ken_burns_motion duration = VideoMaker.medium_tier)
  /\ ((5 <= duration)%Q ->
      VideoMaker.ken_burns_motion duration = VideoMaker.slow_tier)
  /\ same_motion VideoMaker.fast_tier (Motion 0.8 0.6 0.30)
  /\ same_motion VideoMaker.medium_tier (Motion 1.0 0.8 0.20)
  /\ same_motion VideoMaker.slow_tier (Motion 1.2 1.0 0.15).
Proof.
  unfold VideoMaker.ken_burns_motion.
  split; [|split; [|split; [|repeat split; reflexivity]]].
  - intros H. assert (H' : (duration < 2.0)%Q) by lra.
    apply Qltb_lt in H'. rewrite H'. reflexivity.
  - intros H2 H5.
    assert (H2' : (2.0 <= duration)%Q) by lra.
    assert (H5' : (duration < 5.0)%Q) by lra.
    apply Qltb_ge in H2'. apply Qltb_lt in H5'. rewrite H2', H5'.
    reflexivity.
  - intros H5.
    assert (H2' : (2.0 <= duration)%Q) by lra.
    assert (H5' : (5.0 <= duration)%Q) by lra.
    apply Qltb_ge in H2', H5'. rewrite H2', H5'. reflexivity.
Qed.

(** C7 (amended) at exactly five seconds. *)
Lemma C7_witness :
  VideoMaker.ken_burns_motion 5 = VideoMaker.slow_tier.
Proof.
  apply (proj1 (proj2 (proj2 (C7_speed_tiers 5)))).
  unfold Qle. simpl. lia.
Defined.

(** ** Composition *)

Section Compose.

Import VideoMaker.

Local Open Scope Q_scope.

Lemma place_lookup (clips : list clip) :
  forall start k s,
    place start clips !! k = Some s -> clips !! k = Some (seg_clip s).
Proof.
  induction clips as [|c clips IH]; intros start [|k] s H;
    try discriminate.
  - injection H as <-. reflexivity.
  - simpl in *. eapply IH. exact H.
Qed.


Lemma place_in (clips : list clip) (start : Q) (s : segment) :
  In s (place start clips) -> In (seg_clip s) clips.
Proof.
  intros H. rewrite <- (place_clips clips start). apply in_map. exact H.
Qed.




End Compose.

(** ** Claims about fades *)




(** ** Claims about the timeline *)

Section Timeline.

Import VideoMaker.

Local Open Scope Q_scope.



End Timeline.



(** ** Scenes without narration *)

Section SilentScene.

Import VideoMaker.

Variable E : env.

(** With every provider failing, the TTS call raises. *)
Lemma try_providers_exhausted (text : pystr) (output_path : string) :
  tts_exhausted E text ->
  forall providers last w,
    exists e w',
      VoiceGenerator.try_providers E providers text output_path last w
      = (Raise e, w').
Proof.
  intros Hex. induction providers as [|p rest IH]; intros last w; simpl.
  - eauto.
  - destruct (VoiceGenerator.known_provider p) eqn:Hk; [|apply IH].
    destruct (Hex p Hk) as [reason Hp].
    unfold VoiceGenerator.call_adapter. rewrite Hp. apply IH.
Qed.

Lemma generate_voice_exhausted (self_provider : string) (text : pystr)
    (output_path : string) (w : world) :
  tts_exhausted E (strip text) ->
  exists e w',
    VoiceGenerator.generate_voice E self_provider text output_path w
    = (Raise e, w').
Proof.
  intros Hex. destruct (blank text) eqn:Hb.
  - destruct (blank_rejected E self_provider text output_path w Hb) as [m ->].
    eauto.
  - destruct (String.eqb (dirname output_path) "") eqn:Hd.
    + apply String.eqb_eq in Hd.
      rewrite (generate_voice_no_directory E _ _ _ _ Hb Hd). eauto.
    + apply String.eqb_neq in Hd.
      rewrite (generate_voice_loop E _ _ _ _ Hb Hd).
      apply try_providers_exhausted, Hex.
Qed.

(** The TTS loop leaves one entry per scene, and [None] for a scene
    whose narration no provider could produce. *)
Lemma tts_loop_spec (self_provider : string) (scene_texts : list pystr) :
  forall i tts_files w,
    exists added w',
      tts_loop E self_provider i scene_texts tts_files w
      = (tts_files ++ added, w')
      /\ List.length added = List.length scene_texts
      /\ forall k text,
           scene_texts !! k = Some text ->
           tts_exhausted E (strip text) ->
           added !! k = Some None.
Proof.
  induction scene_texts as [|text rest IH]; intros i files w.
  - exists [], w. simpl. rewrite app_nil_r.
    split; [reflexivity|]. split; [reflexivity|]. intros k t H. discriminate.
  - cbn [tts_loop].
    assert (Hstep : exists entry w1,
               (if truthy text && truthy (strip text) then
                  match VoiceGenerator.generate_voice E self_provider text
                          (tts_path i) (emit (EvMakeDirs "temp") w) with
                  | (Ok tts_result, w1) =>
                      tts_loop E self_provider (S i) rest
                        (files ++ [Some tts_result]) w1
                  | (Raise _, w1) =>
                      tts_loop E self_provider (S i) rest (files ++ [None]) w1
                  end
                else tts_loop E self_provider (S i) rest (files ++ [None]) w)
               = tts_loop E self_provider (S i) rest (files ++ [entry]) w1
               /\ (tts_exhausted E (strip text) -> entry = None)).
    { destruct (truthy text && truthy (strip text)).
      - destruct (VoiceGenerator.generate_voice E self_provider text
                    (tts_path i) (emit (EvMakeDirs "temp") w))
          as [[path|e] w1] eqn:Hg.
        + exists (Some path), w1. split; [reflexivity|]. intros Hex.
          destruct (generate_voice_exhausted self_provider text (tts_path i)
                      (emit (EvMakeDirs "temp") w) Hex) as (e & w2 & Hr).
          congruence.
        + exists None, w1. auto.
      - exists None, w. auto. }
    destruct Hstep as (entry & w1 & -> & Hentry).
    destruct (IH (S i) (files ++ [entry]) w1) as (added & w' & -> & Hl & Hk).
    exists (entry :: added), w'. rewrite <- app_assoc.
    split; [reflexivity|]. split; [simpl; rewrite Hl; reflexivity|].
    intros [|k] t Ht Hex.
    + injection Ht as <-. simpl. rewrite (Hentry Hex). reflexivity.
    + simpl in *. eapply Hk; eassumption.
Qed.

Lemma no_tts_lookup (scene_texts : list pystr) (k : nat) (text : pystr) :
  scene_texts !! k = Some text -> no_tts scene_texts !! k = Some None.
Proof.
  revert k. unfold no_tts.
  induction scene_texts as [|t rest IH]; intros [|k] H; try discriminate.
  - reflexivity.
  - simpl in *. apply IH. exact H.
Qed.


End SilentScene.



(** ** What the video shows for a narrated scene *)

Section NarratedScene.

Import VideoMaker.

Local Open Scope Q_scope.

Variable E : env.

Lemma no_tts_length (scene_texts : list pystr) :
  List.length (no_tts scene_texts) = List.length scene_texts.
Proof. unfold no_tts. apply length_map. Qed.

Lemma generate_tts_files_length (settings : option voice_settings)
    (scene_texts : list pystr) (w : world) :
  List.length (fst (generate_tts_files E settings scene_texts w))
  = List.length scene_texts.
Proof.
  unfold generate_tts_files.
  destruct settings as [vs|]; [|apply no_tts_length].
  destruct (match vs_provider vs with
            | Some p => String.eqb p "none"
            | None => false
            end); [apply no_tts_length|].
  destruct (VoiceGenerator.init E _ _) as [self|e]; [|apply no_tts_length].
  destruct (tts_loop_spec E self scene_texts 0 [] w)
    as (added & w' & -> & Hl & _).
  exact Hl.
Qed.

Lemma durations_eqb_lookup (l1 : list Q) :
  forall l2 k a b,
    durations_eqb l1 l2 = true ->
    l1 !! k = Some a -> l2 !! k = Some b -> a == b.
Proof.
  induction l1 as [|x l1 IH]; intros [|y l2] k a b Heq Ha Hb;
    try discriminate.
  simpl in Heq. apply andb_prop in Heq as [Hxy Hrest].
  destruct k as [|k].
  - injection Ha as <-. injection Hb as <-. apply Qeq_bool_iff. exact Hxy.
  - simpl in Ha, Hb. eapply IH; eassumption.
Qed.

Lemma any_tts_lookup (tts_files : list (option string)) (i : nat)
    (path : string) :
  tts_files !! i = Some (Some path) -> path <> ""%string ->
  any_tts tts_files = true.
Proof.
  intros Hi Hp. unfold any_tts. apply existsb_exists.
  exists (Some path). split.
  - apply list_elem_of_In. eapply list_elem_of_lookup_2. exact Hi.
  - apply String.eqb_neq in Hp. rewrite Hp. reflexivity.
Qed.

(** The clip of a scene whose narration measures [d > 0] seconds is
    shown for [d + 0.5] seconds in the composed video. *)
Lemma video_shows_effective_duration (image_paths : list string)
    (scene_durations : list Q) (effects : list string)
    (scene_texts : list pystr) (settings : option voice_settings)
    (background_music : option string) (w : world) (v : video) (w' : world) :
  compose E image_paths scene_durations effects scene_texts settings
    background_music w = (Ok v, w') ->
  (List.length scene_texts <= List.length scene_durations)%nat ->
  forall i path content d s,
    fst (generate_tts_files E settings scene_texts w) !! i
    = Some (Some path) ->
    path <> ""%string ->
    fs w' !! path = Some content ->
    audio_duration E content = Some d ->
    0 < d ->
    In s (timeline v) -> clip_scene (seg_clip s) = i ->
    clip_duration (seg_clip s) == d + 0.5.
Proof.
  intros Hc Hlen i path content d s Hfile Hp Hfs Hd Hpos Hs Hscene.
  pose proof (generate_tts_files_length settings scene_texts w) as Hflen.
  unfold compose in Hc.
  destruct (generate_tts_files E settings scene_texts w) as [files w1].
  simpl in Hfile, Hflen.
  destruct (build_clips E w1 _ scene_texts 0 image_paths scene_durations
              effects) as [|c0 clips0] eqn:Hclips; [discriminate|].
  rewrite (any_tts_lookup files i path Hfile Hp) in Hc.
  destruct (sync_loop_total E w1 scene_durations files 0 (Sync [] [] 0))
    as [st Hst]; [simpl; lia|].
  rewrite Hst in Hc.
  (* the loop has appended [d + 0.5] for scene [i] *)
  assert (Hadj : forall w0, w0 = w1 -> fs w0 !! path = Some content ->
                 adjusted_scene_durations st !! i = Some (d + 0.5)).
  { intros w0 -> Hfs0.
    pose proof Hst as Hspec.
    apply sync_loop_spec in Hspec as (added & Ha & _ & Happ & _).
    simpl in Ha. rewrite Ha, (Happ i _ Hfile).
    rewrite (measured_audio_some E w1 path content d Hp Hfs0 Hd).
    apply Qltb_lt in Hpos. rewrite Hpos. reflexivity. }
  (* a clip of scene [i] among clips built from [durations] *)
  assert (Hclip : forall durations,
             In (seg_clip s)
               (build_clips E w1 (List.length image_paths) scene_texts 0
                  image_paths durations effects) ->
             exists img e, image_paths !! i = Some img
               /\ effects !! i = Some e
               /\ durations !! i = Some (clip_duration (seg_clip s))
               /\ build_clip E w1 (List.length image_paths) scene_texts i img
                    (clip_duration (seg_clip s)) e = Some (seg_clip s)).
  { intros durations Hin.
    apply build_clips_spec in Hin as (k & img & dd & e & H1 & H2 & H3 & H4).
    pose proof (build_clip_spec _ _ _ _ _ _ _ _ _ H4) as (Hsc & Hdd & _).
    simpl in Hsc. rewrite Hscene in Hsc. subst k. subst dd.
    exists img, e. auto. }
  destruct (negb (durations_eqb (adjusted_scene_durations st)
                    scene_durations)) eqn:Hneq.
  - destruct (build_clips E w1 _ scene_texts 0 image_paths
                (adjusted_scene_durations st) effects)
      as [|c1 clips1] eqn:Hre.
    + (* nothing could be rebuilt: then scene [i] had no clip either *)
      injection Hc as <- <-. cbn [timeline] in Hs.
      unfold concatenate_videoclips in Hs. exfalso.
      apply place_in in Hs. rewrite <- Hclips in Hs.
      destruct (Hclip _ Hs) as (img & e & Himg & He & _ & Hb).
      destruct (build_clip_duration E w1 _ scene_texts i img _ (d + 0.5) e _ Hb)
        as [c' Hc'].
      assert (Hin : In c' (build_clips E w1 (List.length image_paths)
                             scene_texts 0 image_paths
                             (adjusted_scene_durations st) effects)).
      { eapply build_clips_complete; try eassumption.
        apply (Hadj w1 eq_refl Hfs). }
      rewrite Hre in Hin. destruct Hin.
    + injection Hc as <- <-. cbn [timeline] in Hs.
      unfold concatenate_videoclips in Hs.
      apply place_in in Hs. rewrite <- Hre in Hs.
      destruct (Hclip _ Hs) as (img & e & _ & _ & Hdur & _).
      rewrite (Hadj w1 eq_refl Hfs) in Hdur. injection Hdur as <-.
      reflexivity.
  - injection Hc as <- <-. cbn [timeline] in Hs.
      unfold concatenate_videoclips in Hs.
    apply place_in in Hs. rewrite <- Hclips in Hs.
    destruct (Hclip _ Hs) as (img & e & _ & _ & Hdur & _).
    apply negb_false_iff in Hneq. symmetry.
    eapply durations_eqb_lookup; [exact Hneq | | exact Hdur].
    apply (Hadj w1 eq_refl Hfs).
Qed.

End NarratedScene.

(** ** A scene with a zoom keyword

    [VideoMaker] has no [_apply_zoom_effect]: a scene whose text selects
    [zoom_in] or [zoom_out] raises inside the clip loop and is left out
    of the video. *)
Lemma zoom_scene_is_skipped :
  VideoMaker._select_effect_for_scene Demo.studio "ken_burns"
    (lit "zoom on the city") = "zoom_in"
  /\ VideoMaker.build_clip Demo.studio Demo.three_images 3
       [lit "zoom on the city"] 0 "outputs/images/scene_01.png" 3%Q
       "ken_burns" = None
  /\ VideoMaker.build_clip Demo.studio Demo.three_images 3
       [lit "a quiet city"] 0 "outputs/images/scene_01.png" 3%Q
       "ken_burns" <> None.
Proof.
  split; [reflexivity|]. split; [reflexivity|]. vm_compute. discriminate.
Qed.

(** * Further properties *)

(** ** Output paths without a directory *)

Lemma rfind_slash_none (cs : list ascii) :
  forallb (fun c => negb (Ascii.eqb c "/"%char)) cs = true ->
  forall pos, rfind_slash cs pos None = None.
Proof.
  induction cs as [|c cs IH]; simpl; intros H pos; [reflexivity|].
  apply andb_prop in H as [Hc Hcs]. apply negb_true_iff in Hc.
  rewrite Hc. apply IH, Hcs.
Qed.

Lemma dirname_bare (path : string) :
  bare_filename path = true -> dirname path = "".
Proof.
  unfold bare_filename, dirname. intros H.
  rewrite (rfind_slash_none _ H). reflexivity.
Qed.

(** X1.  With an output path that is a bare file name, [generate_voice]
    stops at [os.makedirs('')]: it raises [FileNotFoundError] on every
    text that is not blank, without calling a provider or touching the
    disk, whatever the providers would do.  [generate_image] guards the
    same call: on a bare file name it makes no directory and goes
    straight to its provider. *)
Theorem X1_bare_filename (E : env) (self_provider : string)
    (output_path : string) (w : world) :
  bare_filename output_path = true ->
  (forall text,
      blank text = false ->
      VoiceGenerator.generate_voice E self_provider text output_path w
      = (Raise (FileNotFoundError ""), w))
  /\ (forall prompt,
        ImageGenerator.generate_image E self_provider prompt output_path w
        = ImageGenerator.try_providers E
            (ImageGenerator.providers_to_try E self_provider) prompt
            output_path None w
        /\ forall res w',
             ImageGenerator.generate_image E self_provider prompt output_path w
             = (res, w') ->
             exists evs,
               trace w' = trace w ++ evs
               /\ List.filter makes_directory evs = []).
Proof.
  intros Hbare. pose proof (dirname_bare _ Hbare) as Hd. split.
  - intros text Hb. apply generate_voice_no_directory; assumption.
  - intros prompt.
    assert (Heq : ImageGenerator.generate_image E self_provider prompt
                    output_path w
                  = ImageGenerator.try_providers E
                      (ImageGenerator.providers_to_try E self_provider)
                      prompt output_path None w).
    { unfold ImageGenerator.generate_image. rewrite Hd. reflexivity. }
    split; [exact Heq|].
    intros res w' Hrun. rewrite Heq in Hrun.
    rewrite providers_to_try_single in Hrun. simpl in Hrun.
    rewrite tried_provider_known in Hrun.
    destruct (ImageGenerator.call_adapter E (tried_provider E self_provider)
                prompt output_path w) as [r w1] eqn:Hc.
    assert (Hw : w' = w1) by (destruct r; congruence). subst w1.
    apply call_adapter_trace in Hc as (evs & Htr & Hev).
    exists (EvImage (tried_provider E self_provider) prompt output_path :: evs).
    split; [exact Htr|]. simpl.
    clear Htr. induction evs as [|e evs IH]; [reflexivity|].
    simpl in Hev. apply andb_prop in Hev as [He Hevs].
    destruct e; simpl in *; try discriminate; auto.
Qed.

(** X1 on the file name of the module's own self-test. *)
Lemma X1_witness :
  VoiceGenerator.generate_voice Demo.gtts_up "edge" (lit "Xin chao")
    "test_voice.mp3" Demo.fresh
  = (Raise (FileNotFoundError ""), Demo.fresh).
Proof.
  apply (proj1 (X1_bare_filename Demo.gtts_up "edge" "test_voice.mp3"
                  Demo.fresh eq_refl)).
  reflexivity.
Defined.

(** ** The single provider of [generate_image] *)

Lemma available_providers_spec (E : env) (p : string) :
  In p (ImageGenerator.available_providers E) <->
  p = "pollinations"
  \/ (In p ["openai"; "stability"; "replicate"; "huggingface"]
      /\ has_api_key E p = true).
Proof.
  unfold ImageGenerator.available_providers.
  rewrite !in_app_iff. split.
  - intros [H|[H|[H|[H|H]]]].
    + destruct (has_api_key E "openai") eqn:Hk; [|destruct H].
      destruct H as [<-|[]]. right. split; [simpl; tauto|exact Hk].
    + destruct (has_api_key E "stability") eqn:Hk; [|destruct H].
      destruct H as [<-|[]]. right. split; [simpl; tauto|exact Hk].
    + destruct (has_api_key E "replicate") eqn:Hk; [|destruct H].
      destruct H as [<-|[]]. right. split; [simpl; tauto|exact Hk].
    + destruct (has_api_key E "huggingface") eqn:Hk; [|destruct H].
      destruct H as [<-|[]]. right. split; [simpl; tauto|exact Hk].
    + destruct H as [<-|[]]. left. reflexivity.
  - intros [->|[Hin Hk]]; [simpl; tauto|].
    destruct Hin as [<-|[<-|[<-|[<-|[]]]]]; rewrite Hk; simpl; tauto.
Qed.

(** The events of one [generate_image] call: the directory, if the path
    has one, the adapter call, and the requests of the adapter. *)
Lemma generate_image_trace_exact (E : env) (self_provider : string)
    (prompt : pystr) (output_path : string) (w : world) :
  exists http,
    trace (snd (ImageGenerator.generate_image E self_provider prompt
                  output_path w))
    = trace w
      ++ (if String.eqb (dirname output_path) "" then []
          else [EvMakeDirs (dirname output_path)])
      ++ EvImage (tried_provider E self_provider) prompt output_path :: http
    /\ forallb http_event http = true.
Proof.
  rewrite generate_image_single. cbv zeta.
  set (w1 := if String.eqb (dirname output_path) "" then w
             else emit (EvMakeDirs (dirname output_path)) w).
  destruct (ImageGenerator.call_adapter E (tried_provider E self_provider)
              prompt output_path w1) as [r w2] eqn:Hc.
  apply call_adapter_trace in Hc as (evs & Htr & Hev).
  exists evs. split; [|exact Hev].
  assert (Hw1 : trace w1
                = trace w ++ (if String.eqb (dirname output_path) "" then []
                              else [EvMakeDirs (dirname output_path)])).
  { subst w1. destruct (String.eqb (dirname output_path) "").
    - rewrite app_nil_r. reflexivity.
    - apply trace_emit. }
  destruct r; simpl; rewrite Htr, Hw1, <- app_assoc; reflexivity.
Qed.

(** X2.  [generate_image] calls exactly one adapter and never a second:
    the adapter of [self.provider] when that is Pollinations or one of
    openai, stability, replicate, huggingface with a key in the
    configuration, and the Pollinations adapter for every other provider
    name.  The craiyon and picsum branches of its dispatch chain are
    therefore never taken. *)
Theorem X2_one_image_provider (E : env) (self_provider : string)
    (prompt : pystr) (output_path : string) (w : world) :
  (tried_provider E self_provider = "pollinations"
   \/ (tried_provider E self_provider = self_provider
       /\ In self_provider ["openai"; "stability"; "replicate"; "huggingface"]
       /\ has_api_key E self_provider = true))
  /\ ImageGenerator.generate_image E self_provider prompt output_path w
     = ImageGenerator.generate_image E (tried_provider E self_provider)
         prompt output_path w
  /\ exists http,
       trace (snd (ImageGenerator.generate_image E self_provider prompt
                     output_path w))
       = trace w
         ++ (if String.eqb (dirname output_path) "" then []
             else [EvMakeDirs (dirname output_path)])
         ++ EvImage (tried_provider E self_provider) prompt output_path
            :: http
       /\ forallb http_event http = true.
Proof.
  split; [|split].
  - unfold tried_provider.
    destruct (ImageGenerator.mem self_provider _) eqn:Hm; [|left; reflexivity].
    apply mem_spec, available_providers_spec in Hm as [->|[Hin Hk]];
      [left; reflexivity|right; auto].
  - unfold ImageGenerator.generate_image.
    rewrite !providers_to_try_single. f_equal. f_equal.
    unfold tried_provider at 2.
    destruct (ImageGenerator.mem (tried_provider E self_provider) _) eqn:Hm;
      [reflexivity|].
    exfalso. apply not_true_iff_false in Hm. apply Hm, mem_spec.
    unfold tried_provider.
    destruct (ImageGenerator.mem self_provider _) eqn:Hs.
    + apply mem_spec, Hs.
    + apply available_providers_spec. left. reflexivity.
  - apply generate_image_trace_exact.
Qed.

(** ** Scenes whose text selects a zoom *)



(** ** What a Pollinations call costs and leaves behind *)

Section PollinationsBudget.

Import ImageGenerator.

Variable E : env.
Variables (prompt : pystr) (output_path : string).






(** The part of the disk outside the output path is never touched, and a
    URL that gives no image leaves the output path as it was or with a
    rejected download. *)
Lemma retry_loop_disk (url_index : nat) (retries : list nat) :
  forall w res w',
    retry_loop E prompt output_path url_index retries w = (res, w') ->
    (forall p, p <> output_path -> fs w' !! p = fs w !! p)
    /\ (res = None ->
        fs w' !! output_path = fs w !! output_path
        \/ exists body,
             fs w' !! output_path = Some body
             /\ List.length body < min_file_size).
Proof.
  induction retries as [|retry later IH]; intros w res w' Hrun.
  - injection Hrun as <- <-. auto.
  - cbn [retry_loop] in Hrun.
    destruct (judge retry (pollinations_get E prompt url_index retry))
      as [body|seconds|[body|]] eqn:Hj.
    + injection Hrun as <- <-. split; [|discriminate].
      intros p Hp.
      destruct (crop_logo E body); cbn [fs write_file emit];
        rewrite ?lookup_insert_ne by congruence; reflexivity.
    + apply IH in Hrun as [Hframe Hnone]. auto.
    + injection Hrun as <- <-. split.
      * intros p Hp. cbn [fs write_file emit].
        rewrite lookup_insert_ne by congruence. reflexivity.
      * intros _. right. exists body. split.
        -- cbn [fs write_file emit]. apply lookup_insert_eq.
        -- unfold judge in Hj.
           destruct (pollinations_get E prompt url_index retry)
             as [| | |status content_type body'];
             try (destruct (retry <? 2); discriminate); try discriminate.
           destruct (server_error status);
             [destruct (retry <? 2); discriminate|].
           destruct (raises_for_status status);
             [destruct (retry <? 2); discriminate|].
           destruct (negb (image_content_type content_type)); [discriminate|].
           destruct (too_small body') eqn:Hsmall; [|discriminate].
           injection Hj as <-. apply Nat.ltb_lt. exact Hsmall.
    + injection Hrun as <- <-. auto.
Qed.

Lemma url_loop_disk (urls : list nat) :
  forall w res w',
    url_loop E prompt output_path urls w = (res, w') ->
    (forall p, p <> output_path -> fs w' !! p = fs w !! p)
    /\ (forall e, res = Raise e ->
        fs w' !! output_path = fs w !! output_path
        \/ exists body,
             fs w' !! output_path = Some body
             /\ List.length body < min_file_size).
Proof.
  induction urls as [|url_index later IH]; intros w res w' Hrun.
  - injection Hrun as <- <-. auto.
  - cbn [url_loop] in Hrun.
    destruct (retry_loop E prompt output_path url_index (seq 0 3) w)
      as [r w1] eqn:Hr.
    apply retry_loop_disk in Hr as [Hframe1 Hnone].
    destruct r as [path|].
    + injection Hrun as <- <-. split; [exact Hframe1|discriminate].
    + apply IH in Hrun as [Hframe2 Hraise]. split.
      * intros p Hp. rewrite Hframe2, Hframe1 by exact Hp. reflexivity.
      * intros e He.
        destruct (Hraise e He) as [Hsame|Hjunk]; [|right; exact Hjunk].
        destruct (Hnone eq_refl) as [H|(body & Hb & Hl)].
        -- left. rewrite Hsame. exact H.
        -- right. exists body.
           split; [exact (eq_trans Hsame Hb)|exact Hl].
Qed.

End PollinationsBudget.



(** X5.  A call of [_generate_pollinations_image] changes no file other
    than the output path; when it raises, the output path is as before or
    holds a rejected download of fewer than 1000 bytes, which the code
    writes before it checks the size and does not remove. *)
Theorem X5_pollinations_disk (E : env) (prompt : pystr)
    (output_path : string) (w : world) (res : result string) (w' : world) :
  ImageGenerator._generate_pollinations_image E prompt output_path w
  = (res, w') ->
  (forall p, p <> output_path -> fs w' !! p = fs w !! p)
  /\ (forall e, res = Raise e ->
      fs w' !! output_path = fs w !! output_path
      \/ exists body,
           fs w' !! output_path = Some body
           /\ List.length body < ImageGenerator.min_file_size).
Proof.
  intros Hrun. apply (url_loop_disk E prompt output_path _ _ _ _ Hrun).
Qed.

(** X5 with downloads of ten bytes: the call raises and the last one
    stays on disk. *)
Lemma X5_witness :
  exists e w',
    ImageGenerator._generate_pollinations_image Cases.tiny_png (lit "a cat")
      "outputs/images/scene_01.png" Demo.fresh = (Raise e, w')
    /\ fs w' !! "outputs/images/scene_01.png" = Some (Demo.blob 10)
    /\ (forall p, p <> "outputs/images/scene_01.png" ->
                  fs w' !! p = fs Demo.fresh !! p).
Proof.
  eexists _, _. split; [reflexivity|]. split; [reflexivity|].
  apply (proj1 (X5_pollinations_disk Cases.tiny_png (lit "a cat")
                  "outputs/images/scene_01.png" Demo.fresh _ _ eq_refl)).
Defined.

(** ** What the narration step leaves on disk *)

Section TtsDisk.

Import VideoMaker.

Variable E : env.

Lemma voice_call_adapter_disk (provider : string) (text : pystr)
    (output_path : string) (w : world) (res : result string) (w' : world) :
  VoiceGenerator.call_adapter E provider text output_path w = (res, w') ->
  (forall p, p <> output_path -> fs w' !! p = fs w !! p)
  /\ (forall p, on_disk w p -> on_disk w' p)
  /\ (forall path, res = Ok path -> path = output_path /\ on_disk w' path)
  /\ (forall e, res = Raise e -> fs w' = fs w).
Proof.
  unfold VoiceGenerator.call_adapter, on_disk.
  destruct (tts_backend E provider text) as [audio|reason];
    intros [= <- <-]; cbn [fs write_file emit].
  - split; [intros p Hp; apply lookup_insert_ne; congruence|].
    split.
    + intros p Hp. destruct (decide (p = output_path)) as [->|Hne].
      * rewrite lookup_insert_eq. discriminate.
      * rewrite lookup_insert_ne by congruence. exact Hp.
    + split; [|discriminate]. intros path [= <-].
      split; [reflexivity|]. rewrite lookup_insert_eq. discriminate.
  - repeat split; auto; discriminate.
Qed.

Lemma voice_try_providers_disk (providers : list string) (text : pystr)
    (output_path : string) :
  forall last w res w',
    VoiceGenerator.try_providers E providers text output_path last w
    = (res, w') ->
    (forall p, p <> output_path -> fs w' !! p = fs w !! p)
    /\ (forall p, on_disk w p -> on_disk w' p)
    /\ (forall path, res = Ok path -> path = output_path /\ on_disk w' path)
    /\ (forall e, res = Raise e -> fs w' = fs w).
Proof.
  induction providers as [|provider rest IH]; intros last w res w' Hrun.
  - injection Hrun as <- <-. repeat split; auto; discriminate.
  - cbn [VoiceGenerator.try_providers] in Hrun.
    destruct (VoiceGenerator.known_provider provider); [|eapply IH; eauto].
    destruct (VoiceGenerator.call_adapter E provider text output_path w)
      as [r w1] eqn:Hc.
    apply voice_call_adapter_disk in Hc as (Hf1 & Hm1 & Hok1 & Hr1).
    destruct r as [path|e].
    + injection Hrun as <- <-. auto.
    + apply IH in Hrun as (Hf2 & Hm2 & Hok2 & Hr2).
      pose proof (Hr1 e eq_refl) as Hsame. unfold on_disk in *.
      rewrite Hsame in *. auto.
Qed.

Lemma generate_voice_disk (self_provider : string) (text : pystr)
    (output_path : string) (w : world) (res : result string) (w' : world) :
  VoiceGenerator.generate_voice E self_provider text output_path w
  = (res, w') ->
  (forall p, p <> output_path -> fs w' !! p = fs w !! p)
  /\ (forall p, on_disk w p -> on_disk w' p)
  /\ (forall path, res = Ok path -> path = output_path /\ on_disk w' path)
  /\ (forall e, res = Raise e -> fs w' = fs w).
Proof.
  unfold VoiceGenerator.generate_voice, makedirs.
  destruct (negb (truthy text));
    [intros [= <- <-]; repeat split; auto; discriminate|].
  destruct (negb (truthy (strip text)));
    [intros [= <- <-]; repeat split; auto; discriminate|].
  destruct (String.eqb (dirname output_path) "");
    [intros [= <- <-]; repeat split; auto; discriminate|].
  intros Hrun. apply voice_try_providers_disk in Hrun. exact Hrun.
Qed.

(** The entry for a text that is not spoken. *)
Lemma blank_not_spoken (text : pystr) :
  blank text = true -> truthy text && truthy (strip text) = false.
Proof.
  intros Hb. apply strip_nil_iff in Hb. rewrite Hb.
  apply andb_false_r.
Qed.

Lemma tts_loop_disk (self_provider : string) (scene_texts : list pystr) :
  forall i tts_files w,
    exists added w',
      tts_loop E self_provider i scene_texts tts_files w
      = (tts_files ++ added, w')
      /\ List.length added = List.length scene_texts
      /\ (forall p,
            (forall k, k < List.length scene_texts -> p <> tts_path (i + k)) ->
            fs w' !! p = fs w !! p)
      /\ (forall p, on_disk w p -> on_disk w' p)
      /\ (forall k path,
            added !! k = Some (Some path) ->
            path = tts_path (i + k) /\ on_disk w' path)
      /\ (forall k text,
            scene_texts !! k = Some text -> blank text = true ->
            added !! k = Some None).
Proof.
  induction scene_texts as [|text rest IH]; intros i tts_files w.
  - exists [], w. rewrite app_nil_r.
    split; [reflexivity|]. split; [reflexivity|]. split; [reflexivity|].
    split; [auto|]. split; intros [|k] x Hk; discriminate.
  - cbn [tts_loop].
    assert (Hstep : forall entry w1,
               (forall p, p <> tts_path i -> fs w1 !! p = fs w !! p) ->
               (forall p, on_disk w p -> on_disk w1 p) ->
               (forall path, entry = Some path ->
                             path = tts_path i /\ on_disk w1 path) ->
               (blank text = true -> entry = None) ->
               exists added w',
                 tts_loop E self_provider (S i) rest (tts_files ++ [entry]) w1
                 = (tts_files ++ added, w')
                 /\ List.length added = S (List.length rest)
                 /\ (forall p,
                       (forall k, k < S (List.length rest) ->
                                  p <> tts_path (i + k)) ->
                       fs w' !! p = fs w !! p)
                 /\ (forall p, on_disk w p -> on_disk w' p)
                 /\ (forall k path,
                       added !! k = Some (Some path) ->
                       path = tts_path (i + k) /\ on_disk w' path)
                 /\ (forall k text0,
                       (text :: rest) !! k = Some text0 ->
                       blank text0 = true ->
                       added !! k = Some None)).
    { intros entry w1 Hf Hm Hentry Hblank.
      destruct (IH (S i) (tts_files ++ [entry]) w1)
        as (added & w' & Hrun & Hlen & Hf' & Hm' & Hent' & Hbl').
      exists (entry :: added), w'.
      rewrite Hrun, <- app_assoc. split; [reflexivity|].
      split; [simpl; lia|]. split.
      { intros p Hp. rewrite Hf'.
        - apply Hf. specialize (Hp 0 ltac:(lia)).
          rewrite Nat.add_0_r in Hp. exact Hp.
        - intros k Hk. specialize (Hp (S k) ltac:(lia)).
          rewrite Nat.add_succ_r in Hp. exact Hp. }
      split; [auto|]. split.
      { intros [|k] path Hk.
        - injection Hk as ->. rewrite Nat.add_0_r.
          destruct (Hentry path eq_refl) as [-> Hd]. auto.
        - rewrite Nat.add_succ_r. apply Hent'. exact Hk. }
      intros [|k] text0 Hk Hb.
      - injection Hk as <-. rewrite (Hblank Hb). reflexivity.
      - apply (Hbl' k text0); assumption. }
    destruct (truthy text && truthy (strip text)) eqn:Hspoken.
    + destruct (VoiceGenerator.generate_voice E self_provider text
                  (tts_path i) (emit (EvMakeDirs "temp") w))
        as [[path|e] w1] eqn:Hg;
        apply generate_voice_disk in Hg as (Hf & Hm & Hok & Hr).
      * apply Hstep; auto.
        -- intros path0 [= <-]. apply (Hok path eq_refl).
        -- intros Hb. rewrite (blank_not_spoken _ Hb) in Hspoken.
           discriminate.
      * apply Hstep; auto; try discriminate.
    + apply Hstep; auto; discriminate.
Qed.

End TtsDisk.

(** X6.  The narration step of [_create_video_with_tts] gives one entry
    per scene text; an entry that is a path is [temp/scene_<k+1>_tts.mp3]
    for its scene [k] and that file is on disk afterwards; a blank text
    gets [None]; no file is removed, and no file other than these paths
    is written, so the scene images are as they were. *)
Theorem X6_narration_files (E : env)
    (settings : option VideoMaker.voice_settings) (scene_texts : list pystr)
    (w : world) :
  let '(tts_files, w') :=
    VideoMaker.generate_tts_files E settings scene_texts w in
  List.length tts_files = List.length scene_texts
  /\ (forall k path,
        tts_files !! k = Some (Some path) ->
        path = VideoMaker.tts_path k /\ on_disk w' path)
  /\ (forall k text,
        scene_texts !! k = Some text -> blank text = true ->
        tts_files !! k = Some None)
  /\ (forall p, on_disk w p -> on_disk w' p)
  /\ (forall p,
        (forall k, k < List.length scene_texts ->
                   p <> VideoMaker.tts_path k) ->
        fs w' !! p = fs w !! p).
Proof.
  assert (Hnone : List.length (VideoMaker.no_tts scene_texts)
                  = List.length scene_texts
                  /\ (forall k path,
                        VideoMaker.no_tts scene_texts !! k = Some (Some path) ->
                        path = VideoMaker.tts_path k /\ on_disk w path)
                  /\ (forall k text,
                        scene_texts !! k = Some text -> blank text = true ->
                        VideoMaker.no_tts scene_texts !! k = Some None)
                  /\ (forall p, on_disk w p -> on_disk w p)
                  /\ (forall p,
                        (forall k, k < List.length scene_texts ->
                                   p <> VideoMaker.tts_path k) ->
                        fs w !! p = fs w !! p)).
  { split; [apply no_tts_length|]. split.
    - intros k path Hk. unfold VideoMaker.no_tts in Hk.
      rewrite list_lookup_fmap in Hk.
      destruct (scene_texts !! k); discriminate.
    - split; [|auto]. intros k text Hk _. eapply no_tts_lookup. exact Hk. }
  unfold VideoMaker.generate_tts_files.
  destruct settings as [vs|]; [|exact Hnone].
  destruct (match VideoMaker.vs_provider vs with
            | Some p => String.eqb p "none"
            | None => false
            end); [exact Hnone|].
  destruct (VoiceGenerator.init E _ _) as [self_provider|e]; [|exact Hnone].
  destruct (tts_loop_disk E self_provider scene_texts 0 [] w)
    as (added & w' & -> & Hlen & Hf & Hm & Hent & Hbl).
  simpl. repeat split; auto; apply (Hent k path H).
Qed.

(** ** One voice per scene *)

Section VoicesForScenes.

Import voice_generator.

Variable E : env.

(** Whether the provider loop returns is decided by the providers alone. *)
Lemma voice_try_providers_result (text : pystr) (output_path : string)
    (providers : list string) :
  forall last w,
    exists res w',
      VoiceGenerator.try_providers E providers text output_path last w
      = (res, w')
      /\ is_ok res = existsb (speaks E text) providers.
Proof.
  induction providers as [|provider rest IH]; intros last w.
  - eexists _, _. split; reflexivity.
  - cbn [VoiceGenerator.try_providers existsb]. unfold speaks at 1.
    destruct (VoiceGenerator.known_provider provider);
      [|apply IH].
    unfold VoiceGenerator.call_adapter.
    destruct (tts_backend E provider text) as [audio|reason].
    + eexists _, _. split; reflexivity.
    + apply IH.
Qed.

Lemma generate_voice_result (self_provider : string) (text : pystr)
    (output_path : string) (w : world) :
  blank text = false ->
  dirname output_path <> "" ->
  exists res w',
    VoiceGenerator.generate_voice E self_provider text output_path w
    = (res, w')
    /\ is_ok res = can_speak E self_provider (strip text).
Proof.
  intros Hb Hd. rewrite generate_voice_loop by assumption.
  apply voice_try_providers_result.
Qed.

Lemma scene_text_not_blank (s : scene) : blank (scene_text s) = false.
Proof.
  unfold scene_text, blank. rewrite !forallb_app.
  apply andb_false_iff. right. reflexivity.
Qed.

Lemma list_ascii_of_string_app (s1 s2 : string) :
  list_ascii_of_string (s1 ++ s2)
  = list_ascii_of_string s1 ++ list_ascii_of_string s2.
Proof.
  induction s1 as [|c s1 IH]; [reflexivity|].
  simpl. rewrite <- IH. reflexivity.
Qed.

Lemma bare_filename_app (s1 s2 : string) :
  bare_filename (s1 ++ s2) = bare_filename s1 && bare_filename s2.
Proof.
  unfold bare_filename. rewrite list_ascii_of_string_app.
  apply forallb_app.
Qed.

Lemma last_char_slash (d : string) :
  substring (String.length d - 1) 1 d = "/" -> bare_filename d = false.
Proof.
  induction d as [|c d IH]; [discriminate|].
  cbn [String.length]. rewrite Nat.sub_succ, Nat.sub_0_r.
  destruct d as [|c' d'].
  - cbn. intros [= ->]. reflexivity.
  - intros H. unfold bare_filename in *. cbn [list_ascii_of_string forallb].
    apply andb_false_iff. right. apply IH.
    cbn [String.length] in *. rewrite Nat.sub_succ, Nat.sub_0_r.
    exact H.
Qed.

Lemma path_join_has_slash (output_dir name : string) :
  output_dir <> "" ->
  bare_filename (ImageGenerator.path_join output_dir name) = false.
Proof.
  intros Hd. unfold ImageGenerator.path_join.
  apply String.eqb_neq in Hd. rewrite Hd.
  destruct (String.eqb (substring _ 1 output_dir) "/") eqn:Hs.
  - apply String.eqb_eq, last_char_slash in Hs.
    rewrite bare_filename_app, Hs. reflexivity.
  - rewrite !bare_filename_app. apply andb_false_iff. right. reflexivity.
Qed.

Lemma rfind_slash_some (cs : list ascii) :
  forall pos last,
    (last <> None
     \/ forallb (fun c => negb (Ascii.eqb c "/"%char)) cs = false) ->
    rfind_slash cs pos last <> None.
Proof.
  induction cs as [|c cs IH]; intros pos last H.
  - destruct H as [H|H]; [exact H|discriminate].
  - cbn [rfind_slash]. apply IH.
    destruct (Ascii.eqb c "/"%char) eqn:Hc; [left; discriminate|].
    destruct H as [H|H]; [left; exact H|right].
    cbn [forallb] in H. rewrite Hc in H. exact H.
Qed.

Lemma drop_trailing_slashes_nil (rs : list ascii) :
  drop_trailing_slashes rs = [] ->
  forallb (fun c => Ascii.eqb c "/"%char) rs = true.
Proof.
  induction rs as [|c rs IH]; [reflexivity|].
  cbn [drop_trailing_slashes forallb].
  destruct (Ascii.eqb c "/"%char); [exact IH|discriminate].
Qed.

Lemma forallb_reverse {A : Type} (f : A -> bool) (l : list A) :
  forallb f (rev l) = forallb f l.
Proof.
  induction l as [|x l IH]; [reflexivity|].
  cbn [rev forallb]. rewrite forallb_app, IH. cbn [forallb].
  rewrite andb_true_r. apply andb_comm.
Qed.

Lemma string_of_list_ascii_nil (cs : list ascii) :
  string_of_list_ascii cs = "" -> cs = [].
Proof. destruct cs; [reflexivity|discriminate]. Qed.

(** A path with a slash has a directory part. *)
Lemma dirname_with_slash (path : string) :
  bare_filename path = false -> dirname path <> "".
Proof.
  unfold bare_filename, dirname. intros Hs.
  destruct (rfind_slash (list_ascii_of_string path) 0 None) as [k|] eqn:Hr;
    [|exfalso; revert Hr; apply rfind_slash_some; right; exact Hs].
  destruct (list_ascii_of_string path) as [|c cs]; [discriminate|].
  cbn [firstn].
  destruct (forallb _ (c :: firstn k cs)) eqn:Hall.
  - discriminate.
  - intros Hnil. apply string_of_list_ascii_nil in Hnil.
    apply (f_equal (@rev ascii)) in Hnil. rewrite rev_involutive in Hnil.
    apply drop_trailing_slashes_nil in Hnil.
    rewrite forallb_reverse in Hnil.
    rewrite Hnil in Hall. discriminate.
Qed.

Lemma scenes_loop_spec (self_provider output_dir : string) :
  output_dir <> "" ->
  forall (scenes : list scene) i audio_paths w,
    exists w',
      scenes_loop E self_provider output_dir i scenes audio_paths w
      = (audio_paths
         ++ imap (fun k s =>
                    if can_speak E self_provider (strip (scene_text s))
                    then Some (audio_path output_dir (i + k))
                    else None) scenes, w').
Proof.
  intros Hd. induction scenes as [|s rest IH]; intros i audio_paths w.
  - exists w. cbn. rewrite app_nil_r. reflexivity.
  - cbn [scenes_loop]. rewrite imap_cons, Nat.add_0_r.
    destruct (generate_voice_result self_provider (scene_text s)
                (audio_path output_dir i) w (scene_text_not_blank s))
      as (res & w1 & Hg & Hres).
    { apply dirname_with_slash, path_join_has_slash, Hd. }
    rewrite Hg, <- Hres.
    assert (Hshift :
              imap (fun k s' =>
                      if can_speak E self_provider (strip (scene_text s'))
                      then Some (audio_path output_dir (S i + k))
                      else None) rest
              = imap ((fun k s' =>
                         if can_speak E self_provider (strip (scene_text s'))
                         then Some (audio_path output_dir (i + k))
                         else None) ∘ S) rest).
    { apply imap_ext. intros k s' _. cbn. rewrite Nat.add_succ_r.
      reflexivity. }
    destruct res as [path|e]; cbn [is_ok].
    + destruct (IH (S i) (audio_paths ++ [Some (audio_path output_dir i)]) w1)
        as (w' & Hrun).
      exists w'. rewrite Hrun, <- app_assoc, Hshift. reflexivity.
    + destruct (IH (S i) (audio_paths ++ [None]) w1) as (w' & Hrun).
      exists w'. rewrite Hrun, <- app_assoc, Hshift. reflexivity.
Qed.

End VoicesForScenes.

(** X7.  [generate_voice_for_scenes] with an output directory returns
    one entry per scene, in order: the path [scene_<k+1>.mp3] (two
    digits) in the directory when one of the providers of
    [generate_voice] can speak ["<title>. <description>"], and [None]
    when none can; a failed scene does not stop the later ones.  A scene
    without title and description is still sent to the providers, as the
    text ["."].  With the empty string as directory the call raises
    [FileNotFoundError] before the first scene. *)
Theorem X7_voices_for_scenes (E : env) (self_provider : string)
    (scenes : list scene) (output_dir : string) (w : world) :
  (output_dir <> "" ->
   exists w',
     voice_generator.generate_voice_for_scenes E self_provider scenes
       output_dir w
     = (Ok (imap (fun k s =>
                    if can_speak E self_provider
                         (strip (voice_generator.scene_text s))
                    then Some (voice_generator.audio_path output_dir k)
                    else None) scenes), w'))
  /\ voice_generator.generate_voice_for_scenes E self_provider scenes "" w
     = (Raise (FileNotFoundError ""), w)
  /\ strip (voice_generator.scene_text
              (Scene None None None None None None)) = lit ".".
Proof.
  split; [|split; reflexivity].
  intros Hd. unfold voice_generator.generate_voice_for_scenes, makedirs.
  apply String.eqb_neq in Hd as Hd'. rewrite Hd'.
  destruct (scenes_loop_spec E self_provider output_dir Hd scenes 0 []
              (emit (EvMakeDirs output_dir) w)) as (w' & ->).
  exists w'. reflexivity.
Qed.

(** X7 with gTTS as the only provider that answers. *)
Lemma X7_witness :
  exists w',
    voice_generator.generate_voice_for_scenes Demo.gtts_up "edge"
      [Scene (Some (lit "Dawn")) (Some (lit "A quiet city")) None None None
         None;
       Scene None None None None None None]
      "outputs/audio" Demo.fresh
    = (Ok [Some "outputs/audio/scene_01.mp3";
           Some "outputs/audio/scene_02.mp3"], w').
Proof.
  apply (proj1 (X7_voices_for_scenes Demo.gtts_up "edge"
                  [Scene (Some (lit "Dawn")) (Some (lit "A quiet city")) None
                     None None None;
                   Scene None None None None None None]
                  "outputs/audio" Demo.fresh)).
  discriminate.
Defined.

(** ** The prompt sent to Pollinations *)

Section PollinationsPrompt.

Import image_generator.

Variable E : env.

Lemma add_keywords_spec (keywords : list pystr) :
  forall prompt,
    exists added,
      sublist added keywords
      /\ fold_left (add_keyword E) keywords prompt
         = prompt ++ concat (List.map (fun k => lit ", " ++ k) added).
Proof.
  induction keywords as [|k keywords IH]; intros prompt.
  - exists []. split; [constructor|]. cbn. rewrite app_nil_r. reflexivity.
  - cbn [fold_left]. unfold add_keyword at 2.
    destruct (negb (occurs_in k (unicode_lower E prompt))).
    + destruct (IH (prompt ++ lit ", " ++ k)) as (added & Hsub & ->).
      exists (k :: added). split; [apply sublist_skip, Hsub|].
      cbn [List.map concat]. rewrite <- !app_assoc. reflexivity.
    + destruct (IH prompt) as (added & Hsub & ->).
      exists added. split; [apply sublist_cons, Hsub|reflexivity].
Qed.

End PollinationsPrompt.

(** X8.  [_enhance_prompt_for_pollinations] keeps the prompt as it is
    and appends, each after [", "], those of the four keywords "high
    quality", "detailed", "sharp focus", "cinematic lighting" that the
    lower-cased text does not contain yet, in this order.  The keywords
    chosen by the content of the prompt (epic, neon lighting, ...) are
    never appended: they are added behind the eight quality keywords and
    only the first four of the list are used.  The prompt that goes into
    the URL has at most 503 code points and starts with the first 500 of
    the original prompt. *)
Theorem X8_pollinations_prompt (E : env) (prompt : pystr) :
  image_generator._enhance_prompt_for_pollinations E prompt
  = fold_left (image_generator.add_keyword E)
      [lit "high quality"; lit "detailed"; lit "sharp focus";
       lit "cinematic lighting"] prompt
  /\ (exists added,
        sublist added [lit "high quality"; lit "detailed"; lit "sharp focus";
                       lit "cinematic lighting"]
        /\ image_generator._enhance_prompt_for_pollinations E prompt
           = prompt ++ concat (List.map (fun k => lit ", " ++ k) added))
  /\ List.length (image_generator.url_prompt E prompt) <= 503
  /\ exists rest,
       image_generator.url_prompt E prompt = firstn 500 prompt ++ rest.
Proof.
  assert (Hdef : image_generator._enhance_prompt_for_pollinations E prompt
                 = fold_left (image_generator.add_keyword E)
                     [lit "high quality"; lit "detailed"; lit "sharp focus";
                      lit "cinematic lighting"] prompt) by reflexivity.
  destruct (add_keywords_spec E
              [lit "high quality"; lit "detailed"; lit "sharp focus";
               lit "cinematic lighting"] prompt) as (added & Hsub & Hfold).
  split; [exact Hdef|]. split; [exists added; rewrite Hdef; auto|].
  unfold image_generator.url_prompt. rewrite Hdef, Hfold.
  set (suffix := concat (List.map (fun k => lit ", " ++ k) added)).
  destruct (500 <? List.length (prompt ++ suffix)) eqn:Hlong.
  - apply Nat.ltb_lt in Hlong. split.
    + rewrite length_app, length_firstn.
      change (List.length (lit "...")) with 3. lia.
    + exists (firstn (500 - List.length prompt) suffix ++ lit "...").
      rewrite firstn_app, <- app_assoc. reflexivity.
  - apply Nat.ltb_ge in Hlong. split; [lia|].
    exists suffix. rewrite length_app in Hlong.
    rewrite firstn_all2 by lia. reflexivity.
Qed.

(** ** The Hugging Face adapter *)

(** X9.  [_generate_huggingface_image] returns only with the output path,
    after a reply to the prompt cut to 200 code points that has no error
    status, an image content type and at least 1000 bytes, which are then
    the content of the file.  The first request never carries the key: a
    reply to a request with the key is used only when [self.api_key] is
    set and the request without it was answered with status 401.  When
    the call raises, the disk is as before or the output path holds a
    reply body of fewer than 1000 bytes. *)
Theorem X9_huggingface (post : pystr -> bool -> reply) (has_key : bool)
    (prompt : pystr) (output_path : string) (w : world)
    (res : result string) (w' : world) :
  image_generator._generate_huggingface_image post has_key prompt
    output_path w = (res, w') ->
  (forall path,
      res = Ok path ->
      path = output_path
      /\ exists with_key status content_type body,
           post (firstn 200 prompt) with_key
           = ReplyHttp status content_type body
           /\ ImageGenerator.raises_for_status status = false
           /\ contains "image" content_type = true
           /\ 1000 <= List.length body
           /\ w' = write_file output_path body w
           /\ (with_key = true ->
               has_key = true
               /\ exists content_type0 body0,
                    post (firstn 200 prompt) false
                    = ReplyHttp 401 content_type0 body0))
  /\ (forall e,
        res = Raise e ->
        w' = w
        \/ exists body,
             List.length body < 1000 /\ w' = write_file output_path body w).
Proof.
  unfold image_generator._generate_huggingface_image.
  assert (Hcut : (if 200 <? List.length prompt then firstn 200 prompt
                  else prompt) = firstn 200 prompt).
  { destruct (200 <? List.length prompt) eqn:Hl; [reflexivity|].
    apply Nat.ltb_ge in Hl. symmetry. apply firstn_all2. exact Hl. }
  rewrite Hcut. clear Hcut. set (inputs := firstn 200 prompt).
  (* the reply that is judged, and the request it answers *)
  assert (Hused : exists with_key,
             match post inputs false with
             | ReplyHttp status _ _ =>
                 if (status =? 401)%Z && has_key then post inputs true
                 else post inputs false
             | _ => post inputs false
             end = post inputs with_key
             /\ (with_key = true ->
                 has_key = true
                 /\ exists content_type0 body0,
                      post inputs false = ReplyHttp 401 content_type0 body0)).
  { destruct (post inputs false) as [| | |status ct0 body0] eqn:Hfirst;
      try (exists false; split; [symmetry; exact Hfirst|discriminate]).
    destruct ((status =? 401)%Z && has_key) eqn:Hk.
    - exists true. split; [reflexivity|]. intros _.
      apply andb_prop in Hk as [Hs Hk]. apply Z.eqb_eq in Hs. subst status.
      split; [exact Hk|]. eauto.
    - exists false. split; [symmetry; exact Hfirst|discriminate]. }
  destruct Hused as (with_key & -> & Hkey).
  destruct (post inputs with_key) as [| | |status content_type body] eqn:Hr;
    try (intros [= <- <-]; split; [discriminate|auto]).
  destruct (ImageGenerator.raises_for_status status) eqn:Hst;
    [intros [= <- <-]; split; [discriminate|auto]|].
  destruct (negb (ImageGenerator.image_content_type content_type)) eqn:Hct;
    [intros [= <- <-]; split; [discriminate|auto]|].
  destruct (List.length body <? 1000) eqn:Hsize; intros [= <- <-].
  - split; [discriminate|]. intros e _. right. exists body.
    apply Nat.ltb_lt in Hsize. auto.
  - split; [|discriminate]. intros path [= <-]. split; [reflexivity|].
    exists with_key, status, content_type, body.
    apply negb_false_iff in Hct. apply Nat.ltb_ge in Hsize. auto 10.
Qed.

(** X9 with a server that wants the key. *)
Lemma X9_witness :
  exists w',
    image_generator._generate_huggingface_image Replies.key_wanted true
      (lit "a cat") "outputs/images/scene_01.png" Demo.fresh
    = (Ok "outputs/images/scene_01.png", w')
    /\ exists with_key status content_type body,
         Replies.key_wanted (firstn 200 (lit "a cat")) with_key
         = ReplyHttp status content_type body
         /\ 1000 <= List.length body
         /\ w' = write_file "outputs/images/scene_01.png" body Demo.fresh.
Proof.
  eexists. split; [reflexivity|].
  destruct (proj1 (X9_huggingface Replies.key_wanted true (lit "a cat")
                     "outputs/images/scene_01.png" Demo.fresh _ _ eq_refl)
              _ eq_refl)
    as (_ & with_key & status & content_type & body & H1 & _ & _ & H4 & H5 & _).
  exists with_key, status, content_type, body. auto.
Defined.

(** ** What a batch returns *)

Section BatchResult.

Import ImageGenerator.

Variable E : env.
Variable self_provider : string.







End BatchResult.



(** ** API keys *)

Section ApiKeys.

Import api_manager.

Lemma get_store (m : APIManager) (d : keys) (name : string) :
  get_api_key (store (self_api_keys m) d m) name = d !! name.
Proof.
  unfold get_api_key, deref, store. cbn.
  rewrite lookup_insert_eq. reflexivity.
Qed.

Lemma deref_store (m : APIManager) (l : nat) (d : keys) :
  deref (store l d m) l = d.
Proof. unfold deref, store. cbn. rewrite lookup_insert_eq. reflexivity. Qed.

Lemma get_save_config (save : save_outcome) (m : APIManager) (name : string) :
  get_api_key (save_config save m) name = get_api_key m name.
Proof. reflexivity. Qed.

Lemma set_in_config_spec (save : save_outcome) (provider : string)
    (value : pystr) (m : APIManager) :
  aliased m ->
  match set_in_config save provider value m with
  | (Returned, m') =>
      config_api_keys m <> None
      /\ (forall name,
            get_api_key m' name
            = <[provider := value]> (deref m (self_api_keys m)) !! name)
      /\ (save = Saved ->
          config_file m'
          = Some (Some (<[provider := value]> (deref m (self_api_keys m)))))
  | (KeyError key, m') =>
      key = "api_keys" /\ config_api_keys m = None /\ m' = m
  end
  /\ aliased (snd (set_in_config save provider value m)).
Proof.
  intros Hal. unfold set_in_config.
  destruct (config_api_keys m) as [l|] eqn:Hc.
  - rewrite (Hal l Hc). split; [|intros l' H; apply Hal; exact H].
    split; [discriminate|]. split.
    + intros name. rewrite get_save_config. apply get_store.
    + intros ->. cbn. rewrite Hc. cbn. rewrite (Hal l Hc).
      unfold deref at 1. cbn. rewrite lookup_insert_eq. reflexivity.
  - split; [auto|]. exact Hal.
Qed.

Lemma store_aliased (m : APIManager) (d : keys) :
  aliased m -> aliased (store (self_api_keys m) d m).
Proof. intros Hal l H. apply Hal. exact H. Qed.

Lemma load_env_key_spec (environ : string -> option pystr) (m : APIManager)
    (env_var key_name : string) :
  let m' := load_env_key environ m (env_var, key_name) in
  config_api_keys m' = config_api_keys m
  /\ self_api_keys m' = self_api_keys m
  /\ config_file m' = config_file m
  /\ get_api_key m' key_name
     = (if truthy_opt (get_api_key m key_name) then get_api_key m key_name
        else if truthy_opt (environ env_var) then environ env_var
        else get_api_key m key_name)
  /\ (forall name, name <> key_name ->
                   get_api_key m' name = get_api_key m name).
Proof.
  unfold load_env_key.
  destruct (truthy_opt (environ env_var)) eqn:He;
    destruct (truthy_opt (get_api_key m key_name)) eqn:Hk; cbn [andb negb];
    try (repeat split; reflexivity).
  repeat split.
  - rewrite get_store, lookup_insert_eq.
    destruct (environ env_var); [reflexivity|discriminate].
  - intros name Hne. rewrite get_store, lookup_insert_ne by congruence.
    reflexivity.
Qed.

Lemma load_env_keys_spec (environ : string -> option pystr)
    (mapping : list (string * string)) :
  List.NoDup (List.map snd mapping) ->
  forall m,
    let m' := fold_left (load_env_key environ) mapping m in
    config_api_keys m' = config_api_keys m
    /\ self_api_keys m' = self_api_keys m
    /\ config_file m' = config_file m
    /\ (forall env_var key_name,
          In (env_var, key_name) mapping ->
          get_api_key m' key_name
          = (if truthy_opt (get_api_key m key_name)
             then get_api_key m key_name
             else if truthy_opt (environ env_var) then environ env_var
             else get_api_key m key_name))
    /\ (forall name, ~ In name (List.map snd mapping) ->
                     get_api_key m' name = get_api_key m name).
Proof.
  induction mapping as [|[env_var key_name] mapping IH]; intros Hnd m.
  - cbn. repeat split; auto. intros ? ? [].
  - cbn [fold_left]. cbn [List.map snd] in Hnd.
    apply NoDup_cons_iff in Hnd as [Hnotin Hnd].
    destruct (load_env_key_spec environ m env_var key_name)
      as (H1 & H2 & H3 & H4 & H5).
    destruct (IH Hnd (load_env_key environ m (env_var, key_name)))
      as (G1 & G2 & G3 & G4 & G5).
    cbv zeta. split; [congruence|]. split; [congruence|].
    split; [congruence|]. split.
    + intros env_var' key_name' [[= <- <-]|Hin].
      * rewrite G5 by exact Hnotin. exact H4.
      * rewrite (G4 _ _ Hin).
        assert (Hne : key_name' <> key_name).
        { intros ->. apply Hnotin. apply (in_map snd) in Hin. exact Hin. }
        rewrite H5 by exact Hne. reflexivity.
    + intros name Hname. cbn [List.map snd In] in Hname.
      rewrite G5 by tauto. apply H5. intros ->. tauto.
Qed.

Lemma env_mapping_nodup : List.NoDup (List.map snd env_mapping).
Proof.
  cbn.
  repeat (apply List.NoDup_cons;
          [intros H; cbn in H;
           repeat (destruct H as [H|H]; [discriminate H|]); exact H|]).
  apply List.NoDup_nil.
Qed.

Lemma load_env_keys_aliased (environ : string -> option pystr)
    (m : APIManager) :
  aliased m -> aliased (load_env_keys environ m).
Proof.
  intros Hal l Hl.
  destruct (load_env_keys_spec environ env_mapping env_mapping_nodup m)
    as (H1 & H2 & _).
  unfold load_env_keys in *. rewrite H2. apply Hal. rewrite <- H1. exact Hl.
Qed.

Lemma init_aliased (file : option section)
    (environ : string -> option pystr) :
  aliased (init file environ).
Proof.
  unfold init. apply load_env_keys_aliased.
  destruct (load_config file); intros l [= <-]; reflexivity.
Qed.

End ApiKeys.

(** X11.  On an [APIManager] whose [self.api_keys] is the dictionary of
    its configuration (every manager made by [__init__] is one, and
    [set_api_key] and [remove_api_key] keep it so): a key that was set is
    the key that [get_api_key] returns, whether [set_api_key] returned or
    raised [KeyError] because the configuration has no ["api_keys"]
    entry; and [remove_api_key] does not remove: when it returns, the
    provider is still in the dictionary, with the empty string as key, so
    that [get_api_key] gives [""] and not [None].  Only when it raises
    [KeyError] is the entry gone. *)
Theorem X11_api_key_round_trip (m : api_manager.APIManager)
    (save : api_manager.save_outcome) (provider : string) :
  aliased m ->
  (forall api_key,
      api_manager.get_api_key
        (snd (api_manager.set_api_key save provider api_key m)) provider
      = Some api_key
      /\ (forall other, other <> provider ->
            api_manager.get_api_key
              (snd (api_manager.set_api_key save provider api_key m)) other
            = api_manager.get_api_key m other)
      /\ (fst (api_manager.set_api_key save provider api_key m)
          = api_manager.Returned
          <-> api_manager.config_api_keys m <> None)
      /\ aliased (snd (api_manager.set_api_key save provider api_key m)))
  /\ (api_manager.get_api_key m provider <> None ->
      match api_manager.remove_api_key save provider m with
      | (api_manager.Returned, m') =>
          api_manager.get_api_key m' provider = Some []
      | (api_manager.KeyError _, m') =>
          api_manager.get_api_key m' provider = None
          /\ api_manager.config_api_keys m = None
      end)
  /\ (forall other, other <> provider ->
        api_manager.get_api_key
          (snd (api_manager.remove_api_key save provider m)) other
        = api_manager.get_api_key m other)
  /\ aliased (snd (api_manager.remove_api_key save provider m))
  /\ (forall file environ, aliased (api_manager.init file environ)).
Proof.
  intros Hal. split; [|split; [|split; [|split]]].
  - intros api_key. unfold api_manager.set_api_key.
    set (m1 := api_manager.store (api_manager.self_api_keys m)
                 (<[provider := api_key]>
                    (api_manager.deref m (api_manager.self_api_keys m))) m).
    assert (Hal1 : aliased m1) by (apply store_aliased, Hal).
    assert (Hd1 : api_manager.deref m1 (api_manager.self_api_keys m1)
                  = <[provider := api_key]>
                      (api_manager.deref m (api_manager.self_api_keys m)))
      by apply deref_store.
    destruct (set_in_config_spec save provider api_key m1 Hal1) as [Hs Hal'].
    destruct (api_manager.set_in_config save provider api_key m1)
      as [[|key] m'] eqn:Hrun; cbn [fst snd] in *.
    + destruct Hs as (Hc & Hget & _).
      split; [rewrite Hget, lookup_insert_eq; reflexivity|].
      split; [|split; [tauto|exact Hal']].
      intros other Hne. rewrite Hget, Hd1.
      rewrite !lookup_insert_ne by congruence. reflexivity.
    + destruct Hs as (_ & Hc & ->).
      split; [subst m1; rewrite get_store, lookup_insert_eq; reflexivity|].
      split; [|split; [|exact Hal']].
      * intros other Hne. subst m1.
        rewrite get_store, lookup_insert_ne by congruence. reflexivity.
      * split; [discriminate|]. intros H. exfalso. apply H. exact Hc.
  - intros Hin. unfold api_manager.remove_api_key.
    destruct (api_manager.get_api_key m provider) as [old|]; [|contradiction].
    set (m1 := api_manager.store (api_manager.self_api_keys m)
                 (delete provider
                    (api_manager.deref m (api_manager.self_api_keys m))) m).
    assert (Hal1 : aliased m1) by (apply store_aliased, Hal).
    destruct (set_in_config_spec save provider [] m1 Hal1) as [Hs _].
    destruct (api_manager.set_in_config save provider [] m1)
      as [[|key] m'] eqn:Hrun.
    + destruct Hs as (_ & Hget & _).
      rewrite Hget, lookup_insert_eq. reflexivity.
    + destruct Hs as (_ & Hc & ->). split; [|exact Hc].
      subst m1. rewrite get_store. apply lookup_delete_eq.
  - intros other Hne. unfold api_manager.remove_api_key.
    destruct (api_manager.get_api_key m provider) as [old|]; [|reflexivity].
    set (m1 := api_manager.store (api_manager.self_api_keys m)
                 (delete provider
                    (api_manager.deref m (api_manager.self_api_keys m))) m).
    assert (Hal1 : aliased m1) by (apply store_aliased, Hal).
    assert (Hd1 : api_manager.deref m1 (api_manager.self_api_keys m1)
                  = delete provider
                      (api_manager.deref m (api_manager.self_api_keys m)))
      by apply deref_store.
    destruct (set_in_config_spec save provider [] m1 Hal1) as [Hs _].
    destruct (api_manager.set_in_config save provider [] m1)
      as [[|key] m'] eqn:Hrun; cbn [snd].
    + destruct Hs as (_ & Hget & _). rewrite Hget, Hd1.
      rewrite lookup_insert_ne, lookup_delete_ne by congruence. reflexivity.
    + destruct Hs as (_ & _ & ->). subst m1.
      rewrite get_store, lookup_delete_ne by congruence. reflexivity.
  - unfold api_manager.remove_api_key.
    destruct (api_manager.get_api_key m provider) as [old|]; [|exact Hal].
    apply set_in_config_spec, store_aliased, Hal.
  - apply init_aliased.
Qed.

(** X11 on the manager of a machine without configuration file: the
    OpenAI key is set and then removed. *)
Lemma X11_witness :
  let m := api_manager.init None (fun _ => None) in
  let m1 := snd (api_manager.set_api_key api_manager.Saved "openai"
                   (lit "sk-test") m) in
  api_manager.get_api_key m1 "openai" = Some (lit "sk-test")
  /\ api_manager.get_api_key
       (snd (api_manager.remove_api_key api_manager.Saved "openai" m1))
       "openai" = Some [].
Proof.
  split.
  - apply (proj1 (X11_api_key_round_trip
                    (api_manager.init None (fun _ => None)) api_manager.Saved
                    "openai" (init_aliased None (fun _ => None)))
             (lit "sk-test")).
  - reflexivity.
Defined.

(** X12.  After [__init__], every provider of [env_mapping] has the key
    of the configuration when that is not empty, else the value of its
    environment variable when that is set and not empty, else what the
    configuration had; the keys of all other names are those of the
    configuration.  [load_env_keys] writes into the dictionary of the
    configuration itself, so the next [set_api_key] for any provider
    saves the keys taken from the environment to the configuration
    file. *)
Theorem X12_environment_keys (file : option api_manager.section)
    (environ : string -> option pystr) :
  (forall env_var name,
      In (env_var, name) api_manager.env_mapping ->
      api_manager.get_api_key (api_manager.init file environ) name
      = (if api_manager.truthy_opt
              (key_in (api_manager.load_config file) name)
         then key_in (api_manager.load_config file) name
         else if api_manager.truthy_opt (environ env_var)
              then environ env_var
              else key_in (api_manager.load_config file) name))
  /\ (forall name,
        ~ In name (List.map snd api_manager.env_mapping) ->
        api_manager.get_api_key (api_manager.init file environ) name
        = key_in (api_manager.load_config file) name)
  /\ (forall env_var name value provider api_key,
        In (env_var, name) api_manager.env_mapping ->
        environ env_var = Some value -> value <> [] ->
        api_manager.truthy_opt (key_in (api_manager.load_config file) name)
        = false ->
        file <> Some None ->
        name <> provider ->
        exists saved,
          api_manager.config_file
            (snd (api_manager.set_api_key api_manager.Saved provider api_key
                    (api_manager.init file environ)))
          = Some (Some saved)
          /\ saved !! name = Some value).
Proof.
  unfold api_manager.init, api_manager.load_env_keys.
  set (m0 := match api_manager.load_config file with
             | Some d => api_manager.Manager {[0 := d]} (Some 0) 0 file
             | None => api_manager.Manager {[0 := ∅]} None 0 file
             end).
  assert (Hm0 : forall name,
             api_manager.get_api_key m0 name
             = key_in (api_manager.load_config file) name).
  { intros name. subst m0. unfold api_manager.get_api_key, api_manager.deref.
    destruct (api_manager.load_config file) as [d0|]; reflexivity. }
  assert (Hsec0 : file <> Some None ->
                  api_manager.config_api_keys m0 <> None).
  { intros Hfile. subst m0. destruct file as [[d0|]|]; cbn; congruence. }
  assert (Hal0 : aliased m0).
  { subst m0. destruct (api_manager.load_config file);
      intros l [= <-]; reflexivity. }
  destruct (load_env_keys_spec environ api_manager.env_mapping
              env_mapping_nodup m0) as (Hc & Hself & _ & Hin & Hout).
  pose proof (load_env_keys_aliased environ m0 Hal0) as Hal.
  unfold api_manager.load_env_keys in Hal.
  set (m := fold_left (api_manager.load_env_key environ)
              api_manager.env_mapping m0) in *.
  clearbody m. clearbody m0.
  split; [|split].
  - intros env_var name Hmap. rewrite (Hin _ _ Hmap), !Hm0. reflexivity.
  - intros name Hname. rewrite (Hout _ Hname). apply Hm0.
  - intros env_var name value provider api_key Hmap Henv Hval Hcfg Hfile Hne.
    assert (Hget : api_manager.get_api_key m name = Some value).
    { rewrite (Hin _ _ Hmap), !Hm0, Hcfg, Henv. cbn.
      destruct value; [contradiction|reflexivity]. }
    unfold api_manager.set_api_key.
    assert (Hd1 : api_manager.deref
                    (api_manager.store (api_manager.self_api_keys m)
                       (<[provider := api_key]>
                          (api_manager.deref m (api_manager.self_api_keys m)))
                       m) (api_manager.self_api_keys m)
                  = <[provider := api_key]>
                      (api_manager.deref m (api_manager.self_api_keys m)))
      by apply deref_store.
    set (m1 := api_manager.store (api_manager.self_api_keys m)
                 (<[provider := api_key]>
                    (api_manager.deref m (api_manager.self_api_keys m))) m)
      in *.
    assert (Hal1 : aliased m1) by (subst m1; apply store_aliased, Hal).
    assert (Hsection : api_manager.config_api_keys m1 <> None).
    { subst m1. cbn. rewrite Hc. apply Hsec0, Hfile. }
    assert (Hself1 : api_manager.self_api_keys m1
                     = api_manager.self_api_keys m) by reflexivity.
    clearbody m1.
    destruct (set_in_config_spec api_manager.Saved provider api_key m1 Hal1)
      as [Hs _].
    destruct (api_manager.set_in_config api_manager.Saved provider api_key m1)
      as [[|key] m'] eqn:Hrun; cbn [snd].
    + destruct Hs as (_ & _ & Hsaved).
      eexists. split; [apply Hsaved; reflexivity|].
      rewrite Hself1, Hd1.
      rewrite !lookup_insert_ne by congruence. exact Hget.
    + destruct Hs as (_ & Hnone & _). contradiction.
Qed.

(** X12 on a machine without configuration file and with
    [OPENAI_API_KEY] set: saving a Stability key writes the OpenAI key to
    the file as well. *)
Lemma X12_witness :
  exists saved,
    api_manager.config_file
      (snd (api_manager.set_api_key api_manager.Saved "stability"
              (lit "st-key")
              (api_manager.init None
                 (fun env_var =>
                    if String.eqb env_var "OPENAI_API_KEY"
                    then Some (lit "sk-secret") else None))))
    = Some (Some saved)
    /\ saved !! "openai" = Some (lit "sk-secret").
Proof.
  apply (proj2 (proj2 (X12_environment_keys None
                         (fun env_var =>
                            if String.eqb env_var "OPENAI_API_KEY"
                            then Some (lit "sk-secret") else None)))
           "OPENAI_API_KEY" "openai" (lit "sk-secret") "stability"
           (lit "st-key")).
  - cbn. tauto.
  - reflexivity.
  - discriminate.
  - reflexivity.
  - discriminate.
  - discriminate.
Defined.

(** ** Which providers are available *)

Section StatusSummary.

Import api_manager.

Variable m : APIManager.

Lemma filter_length_mono {A : Type} (f g : A -> bool) (l : list A) :
  (forall x, g x = true -> f x = true) ->
  List.length (List.filter g l) <= List.length (List.filter f l).
Proof.
  intros Hfg. induction l as [|x l IH]; [reflexivity|].
  cbn [List.filter]. destruct (g x) eqn:Hg.
  - rewrite (Hfg x Hg). cbn [List.length]. lia.
  - destruct (f x); cbn [List.length]; lia.
Qed.

Lemma filter_length_bound {A : Type} (f : A -> bool) (l : list A) :
  List.length (List.filter f l) <= List.length l.
Proof.
  induction l as [|x l IH]; [reflexivity|].
  cbn [List.filter]. destruct (f x); cbn [List.length]; lia.
Qed.

(** The inner loop counts what the filters select. *)
Lemma count_providers_spec (providers : list string) :
  forall s service_available,
    fold_left (count_provider m) providers (s, service_available)
    = (Summary
         (total_providers s + List.length providers)
         (available_providers s
          + List.length (List.filter (is_provider_available m) providers))
         (summary_free_providers s
          + List.length
              (List.filter (fun p => ImageGenerator.mem p summary_free)
                 providers))
         (paid_providers s
          + List.length
              (List.filter
                 (fun p => negb (ImageGenerator.mem p summary_free))
                 providers))
         (services s),
       service_available
       + List.length (List.filter (is_provider_available m) providers)).
Proof.
  induction providers as [|provider rest IH]; intros s service_available.
  - cbn. destruct s. cbn. rewrite !Nat.add_0_r. reflexivity.
  - cbn [fold_left]. unfold count_provider at 2. rewrite IH.
    cbn [total_providers available_providers summary_free_providers
         paid_providers services List.filter].
    destruct (is_provider_available m provider),
             (ImageGenerator.mem provider summary_free);
      cbn [negb List.length]; f_equal; try lia; f_equal; lia.
Qed.

Lemma count_service_spec (s : summary) (service_type : string)
    (providers : list string) :
  count_service m s (service_type, providers)
  = Summary
      (total_providers s + List.length providers)
      (available_providers s
       + List.length (List.filter (is_provider_available m) providers))
      (summary_free_providers s
       + List.length
           (List.filter (fun p => ImageGenerator.mem p summary_free)
              providers))
      (paid_providers s
       + List.length
           (List.filter (fun p => negb (ImageGenerator.mem p summary_free))
              providers))
      (services s
       ++ [(service_type,
            (List.length (List.filter (is_provider_available m) providers),
             List.length providers))]).
Proof.
  unfold count_service. rewrite count_providers_spec. reflexivity.
Qed.

Lemma providers_of_table :
  providers_of "script" = ["openai"; "anthropic"; "google"]
  /\ providers_of "image"
     = ["pollinations"; "openai"; "stability"; "replicate"; "huggingface"]
  /\ providers_of "voice" = ["edge"; "openai"; "gtts"]
  /\ providers_of "video" = ["moviepy"; "runwayml"; "pika_labs"; "leia_pix"].
Proof. repeat split; vm_compute; reflexivity. Qed.

Lemma free_is_available (provider : string) :
  ImageGenerator.mem provider free_providers = true ->
  is_provider_available m provider = true.
Proof. unfold is_provider_available. intros ->. reflexivity. Qed.

End StatusSummary.

(** X13.  [get_available_providers] lists those providers of the table
    of the service that are free (pollinations, edge, gtts) or have a key
    that is not empty.  [get_status_summary] always counts
    15 providers, 4 free and 11 paid, and between 3 and 15 available; its
    count per service is the length of [get_available_providers] for
    that service.  It counts moviepy as free, which
    [is_provider_available] does not: without any key 3 providers are
    available although 4 are counted as free. *)
Theorem X13_status_summary (m : api_manager.APIManager) :
  let s := api_manager.get_status_summary m in
  (forall service_type provider,
      In provider (api_manager.get_available_providers m service_type) <->
      In provider (api_manager.providers_of service_type)
      /\ (In provider api_manager.free_providers
          \/ api_manager.truthy_opt (api_manager.get_api_key m provider)
             = true))
  /\ api_manager.total_providers s = 15
  /\ api_manager.summary_free_providers s = 4
  /\ api_manager.paid_providers s = 11
  /\ 3 <= api_manager.available_providers s <= 15
  /\ api_manager.services s
     = List.map
         (fun service_type =>
            (service_type,
             (List.length (api_manager.get_available_providers m service_type),
              List.length (api_manager.providers_of service_type))))
         ["script"; "image"; "voice"; "video"]
  /\ api_manager.available_providers s
     = list_sum (List.map (fun entry => fst (snd entry))
                   (api_manager.services s))
  /\ ((forall provider,
          api_manager.truthy_opt (api_manager.get_api_key m provider) = false)
      -> api_manager.available_providers s = 3).
Proof.
  cbv zeta. split.
  { intros service_type provider.
    unfold api_manager.get_available_providers. rewrite filter_In.
    unfold api_manager.is_provider_available.
    destruct (ImageGenerator.mem provider api_manager.free_providers) eqn:Hm.
    - apply mem_spec in Hm. tauto.
    - assert (~ In provider api_manager.free_providers).
      { intros H. apply mem_spec in H. congruence. }
      tauto. }
  unfold api_manager.get_status_summary. unfold api_manager.all_providers.
  cbn [fold_left]. rewrite !count_service_spec.
  cbn [api_manager.total_providers api_manager.available_providers
       api_manager.summary_free_providers api_manager.paid_providers
       api_manager.services].
  unfold api_manager.get_available_providers. cbn [List.map].
  destruct providers_of_table as (-> & -> & -> & ->).
  set (avail := api_manager.is_provider_available m).
  set (script := ["openai"; "anthropic"; "google"]).
  set (image := ["pollinations"; "openai"; "stability"; "replicate";
                 "huggingface"]).
  set (voice := ["edge"; "openai"; "gtts"]).
  set (video := ["moviepy"; "runwayml"; "pika_labs"; "leia_pix"]).
  assert (Hlower : forall providers,
             List.length
               (List.filter
                  (fun p => ImageGenerator.mem p api_manager.free_providers)
                  providers)
             <= List.length (List.filter avail providers)).
  { intros providers. apply filter_length_mono.
    intros p. apply free_is_available. }
  pose proof (filter_length_bound avail script) as U1.
  pose proof (filter_length_bound avail image) as U2.
  pose proof (filter_length_bound avail voice) as U3.
  pose proof (filter_length_bound avail video) as U4.
  pose proof (Hlower image) as L2. pose proof (Hlower voice) as L3.
  change (List.length script) with 3 in *.
  change (List.length image) with 5 in *.
  change (List.length voice) with 3 in *.
  change (List.length video) with 4 in *.
  assert (F2 : List.length
                 (List.filter
                    (fun p => ImageGenerator.mem p api_manager.free_providers)
                    image) = 1) by (vm_compute; reflexivity).
  assert (F3 : List.length
                 (List.filter
                    (fun p => ImageGenerator.mem p api_manager.free_providers)
                    voice) = 2) by (vm_compute; reflexivity).
  rewrite F2 in L2. rewrite F3 in L3.
  split; [reflexivity|]. split; [vm_compute; reflexivity|].
  split; [vm_compute; reflexivity|].
  split; [lia|]. split; [reflexivity|].
  split; [unfold list_sum; cbn [app List.map fst snd fold_right]; lia|].
  intros Hnone.
  assert (Hext : forall providers,
             List.length (List.filter avail providers)
             = List.length
                 (List.filter
                    (fun p => ImageGenerator.mem p api_manager.free_providers)
                    providers)).
  { intros providers. f_equal. apply List.filter_ext. intros p.
    subst avail. unfold api_manager.is_provider_available. rewrite Hnone.
    destruct (ImageGenerator.mem p api_manager.free_providers); reflexivity. }
  rewrite !Hext. vm_compute. reflexivity.
Qed.

(** ** Videos made from a script *)

Section CompleteVideo.

Import VideoMaker video_maker.

Local Open Scope Q_scope.

Variable E : env.

Lemma generate_tts_files_blank (settings : option voice_settings)
    (scene_texts : list pystr) (w : world) (k : nat) (text : pystr) :
  scene_texts !! k = Some text -> blank text = true ->
  fst (generate_tts_files E settings scene_texts w) !! k = Some None.
Proof.
  intros Hk Hb. unfold generate_tts_files.
  destruct settings as [vs|]; [|eapply no_tts_lookup; exact Hk].
  destruct (match vs_provider vs with
            | Some p => String.eqb p "none"
            | None => false
            end); [eapply no_tts_lookup; exact Hk|].
  destruct (VoiceGenerator.init E _ _) as [self_provider|e];
    [|eapply no_tts_lookup; exact Hk].
  destruct (tts_loop_disk E self_provider scene_texts 0 [] w)
    as (added & w' & -> & _ & _ & _ & _ & Hbl).
  cbn. eapply Hbl; eassumption.
Qed.

End CompleteVideo.



(** X15.  [create_complete_video] speaks the dialogue of a scene only
    when the scene also has a [dialogue_type] other than ['none']: a
    scene without that key is treated as if it had no dialogue.  The text
    it picks is final: when the dialogue that was picked consists of
    white space only, the scene gets no narration, even if it has a
    narrator text or a description. *)
Theorem X15_spoken_text (E : env) (scenes : list scene)
    (voice : video_maker.voice_argument) (w : world) (k : nat) (s : scene) :
  scenes !! k = Some s ->
  (scene_dialogue_type s = None ->
   video_maker.tts_text s
   = video_maker.tts_text
       (Scene (scene_title s) (scene_description s) None None
          (scene_narrator s) (scene_narrator_type s)))
  /\ (forall dialogue dialogue_type,
        scene_dialogue s = Some dialogue ->
        scene_dialogue_type s = Some dialogue_type ->
        dialogue <> [] -> dialogue_type <> lit "none" ->
        video_maker.tts_text s = dialogue
        /\ (blank dialogue = true ->
            fst (VideoMaker.generate_tts_files E (video_maker.settings_of voice)
                   (video_maker.scene_texts_of scenes) w) !! k
            = Some None)).
Proof.
  intros Hk. split.
  - intros Htype. unfold video_maker.tts_text. rewrite Htype. cbn.
    rewrite andb_false_r. reflexivity.
  - intros dialogue dialogue_type Hd Ht Hne Hnone.
    assert (Htext : video_maker.tts_text s = dialogue).
    { unfold video_maker.tts_text. rewrite Hd, Ht. cbn.
      destruct dialogue as [|c t]; [contradiction|]. cbn.
      rewrite bool_decide_eq_false_2 by exact Hnone. reflexivity. }
    split; [exact Htext|]. intros Hb.
    apply generate_tts_files_blank with (text := dialogue); [|exact Hb].
    unfold video_maker.scene_texts_of.
    rewrite list_lookup_fmap. unfold pystr in *.
    rewrite Hk. cbn. rewrite Htext. reflexivity.
Qed.

(** X15 on a scene whose dialogue is a single space. *)
Lemma X15_witness :
  fst (VideoMaker.generate_tts_files Demo.gtts_up
         (video_maker.settings_of video_maker.NoSettings)
         (video_maker.scene_texts_of
            [Scene None (Some (lit "A quiet city")) (Some (lit " "))
               (Some (lit "speech")) None None])
         Demo.fresh) !! 0
  = Some None.
Proof.
  apply (proj2 (proj2 (X15_spoken_text Demo.gtts_up
                         [Scene None (Some (lit "A quiet city"))
                            (Some (lit " ")) (Some (lit "speech")) None None]
                         video_maker.NoSettings Demo.fresh 0
                         (Scene None (Some (lit "A quiet city"))
                            (Some (lit " ")) (Some (lit "speech")) None None)
                         eq_refl)
                  (lit " ") (lit "speech") eq_refl eq_refl
                  ltac:(discriminate) ltac:(discriminate))).
  reflexivity.
Defined.

(** ** How far the Ken Burns effect moves *)

(** Splits on every [Qmin] of the goal. *)
Ltac min_cases :=
  repeat match goal with
         | |- context [Qmin ?a ?b] =>
             let H := fresh "Hmin" in
             destruct (Q.min_spec a b) as [[? H]|[? H]];
             rewrite H; clear H
         end.

Section KenBurnsMotion.

Import VideoMaker.

Local Open Scope Q_scope.

Lemma progress_bounds (duration t1 t2 : Q) :
  0 <= t1 -> t1 <= t2 -> t2 <= duration ->
  0 <= progress duration t1
  /\ progress duration t1 <= progress duration t2
  /\ progress duration t2 <= 1.
Proof.
  intros H0 H12 H2. unfold progress.
  destruct (Qltb 0 duration) eqn:Hd; [|lra].
  apply Qltb_lt in Hd.
  assert (Hinv : 0 < / duration) by (apply Qinv_lt_0_compat; exact Hd).
  unfold Qdiv. repeat split.
  - apply Qmult_le_0_compat; lra.
  - apply Qmult_le_compat_r; lra.
  - apply Qle_shift_div_r; lra.
Qed.

Lemma progress_end (duration : Q) :
  0 < duration -> progress duration duration == 1.
Proof.
  intros Hd. unfold progress.
  apply Qltb_lt in Hd as Hb. rewrite Hb.
  unfold Qdiv. apply Qmult_inv_r. lra.
Qed.

Lemma motion_bounds (m : motion) (duration t1 t2 : Q) :
  0 <= zoom_factor m -> 0 <= zoom_speed m -> 0 <= pan_speed m ->
  0 <= t1 -> t1 <= t2 -> t2 <= duration ->
  (1 <= zoom_func m duration t1
   /\ zoom_func m duration t1 <= zoom_func m duration t2
   /\ zoom_func m duration t2 <= 1 + zoom_factor m)
  /\ (-50 <= x_func m duration t2
      /\ x_func m duration t2 <= x_func m duration t1
      /\ x_func m duration t1 <= 0)
  /\ (-30 <= y_func m duration t2
      /\ y_func m duration t2 <= y_func m duration t1
      /\ y_func m duration t1 <= 0).
Proof.
  intros Hf Hz Hp H0 H12 H2.
  destruct (progress_bounds duration t1 t2 H0 H12 H2) as (P0 & P12 & P1).
  unfold zoom_func, x_func, y_func.
  set (p1 := progress duration t1) in *.
  set (p2 := progress duration t2) in *.
  assert (Z1 : 0 <= p1 * zoom_speed m) by (apply Qmult_le_0_compat; lra).
  assert (Z12 : p1 * zoom_speed m <= p2 * zoom_speed m)
    by (apply Qmult_le_compat_r; lra).
  assert (X1 : 0 <= p1 * pan_speed m) by (apply Qmult_le_0_compat; lra).
  assert (X12 : p1 * pan_speed m <= p2 * pan_speed m)
    by (apply Qmult_le_compat_r; lra).
  set (z1 := p1 * zoom_speed m) in *. set (z2 := p2 * zoom_speed m) in *.
  set (x1 := p1 * pan_speed m) in *. set (x2 := p2 * pan_speed m) in *.
  assert (M1 : 0 <= Qmin 1.0 z1 /\ Qmin 1.0 z1 <= Qmin 1.0 z2
               /\ Qmin 1.0 z2 <= 1).
  { destruct (Q.min_spec 1.0 z1) as [[? ->]|[? ->]];
      destruct (Q.min_spec 1.0 z2) as [[? ->]|[? ->]]; lra. }
  assert (M2 : 0 <= Qmin 1.0 x1 /\ Qmin 1.0 x1 <= Qmin 1.0 x2
               /\ Qmin 1.0 x2 <= 1).
  { destruct (Q.min_spec 1.0 x1) as [[? ->]|[? ->]];
      destruct (Q.min_spec 1.0 x2) as [[? ->]|[? ->]]; lra. }
  set (a1 := Qmin 1.0 z1) in *. set (a2 := Qmin 1.0 z2) in *.
  set (b1 := Qmin 1.0 x1) in *. set (b2 := Qmin 1.0 x2) in *.
  destruct M1 as (M10 & M112 & M11). destruct M2 as (M20 & M212 & M21).
  repeat split; try lra.
  - assert (0 <= zoom_factor m * a1) by (apply Qmult_le_0_compat; lra). lra.
  - assert (zoom_factor m * a1 <= zoom_factor m * a2).
    { rewrite !(Qmult_comm (zoom_factor m)).
      apply Qmult_le_compat_r; lra. }
    lra.
  - assert (zoom_factor m * a2 <= zoom_factor m * 1).
    { rewrite !(Qmult_comm (zoom_factor m)).
      apply Qmult_le_compat_r; lra. }
    lra.
Qed.

End KenBurnsMotion.

(** X16.  With the parameters that [_apply_ken_burns_effect] picks for a
    clip, the zoom factor grows from 1 and never exceeds 1.3, and the pan
    moves left and up by at most 50 and 30 pixels, monotonically over the
    clip.  Only a clip of five seconds or more completes the movement:
    at its end a clip shorter than two seconds has reached 1.24 and
    (-30, -18), one shorter than five seconds 1.2 and (-40, -24), a
    longer one 1.15 and (-50, -30). *)
Theorem X16_ken_burns_motion (duration t1 t2 : Q) :
  (0 <= t1)%Q -> (t1 <= t2)%Q -> (t2 <= duration)%Q ->
  let m := VideoMaker.ken_burns_motion duration in
  ((1 <= VideoMaker.zoom_func m duration t1)%Q
   /\ (VideoMaker.zoom_func m duration t1
       <= VideoMaker.zoom_func m duration t2)%Q
   /\ (VideoMaker.zoom_func m duration t2 <= 1.3)%Q)
  /\ ((-50 <= VideoMaker.x_func m duration t2)%Q
      /\ (VideoMaker.x_func m duration t2
          <= VideoMaker.x_func m duration t1)%Q
      /\ (VideoMaker.x_func m duration t1 <= 0)%Q)
  /\ ((-30 <= VideoMaker.y_func m duration t2)%Q
      /\ (VideoMaker.y_func m duration t2
          <= VideoMaker.y_func m duration t1)%Q
      /\ (VideoMaker.y_func m duration t1 <= 0)%Q)
  /\ ((0 < duration)%Q ->
      (VideoMaker.zoom_func m duration duration
       == (if VideoMaker.Qltb duration 2.0 then 1.24
           else if VideoMaker.Qltb duration 5.0 then 1.2 else 1.15))%Q
      /\ (VideoMaker.x_func m duration duration
          == (if VideoMaker.Qltb duration 2.0 then -30
              else if VideoMaker.Qltb duration 5.0 then -40 else -50))%Q
      /\ (VideoMaker.y_func m duration duration
          == (if VideoMaker.Qltb duration 2.0 then -18
              else if VideoMaker.Qltb duration 5.0 then -24 else -30))%Q).
Proof.
  intros H0 H12 H2 m.
  assert (Hm : (0 <= zoom_factor m)%Q /\ (zoom_factor m <= 0.3)%Q
               /\ (0 <= zoom_speed m)%Q /\ (0 <= pan_speed m)%Q).
  { subst m. unfold VideoMaker.ken_burns_motion.
    destruct (VideoMaker.Qltb duration 2.0);
      [|destruct (VideoMaker.Qltb duration 5.0)]; cbn; repeat split; lra. }
  destruct Hm as (Hf0 & Hf1 & Hz & Hp).
  destruct (motion_bounds m duration t1 t2 Hf0 Hz Hp H0 H12 H2)
    as ((Z1 & Z2 & Z3) & HX & HY).
  split; [repeat split; try assumption; lra|].
  split; [exact HX|]. split; [exact HY|].
  intros Hd. pose proof (progress_end duration Hd) as Hend.
  subst m. unfold VideoMaker.ken_burns_motion,
    VideoMaker.zoom_func, VideoMaker.x_func, VideoMaker.y_func.
  set (p := VideoMaker.progress duration duration) in *.
  destruct (VideoMaker.Qltb duration 2.0);
    [|destruct (VideoMaker.Qltb duration 5.0)];
    cbn [zoom_factor zoom_speed pan_speed VideoMaker.fast_tier
         VideoMaker.medium_tier VideoMaker.slow_tier];
    repeat split; min_cases; lra.
Qed.

(** X16 on a clip of five seconds, at two and at four seconds. *)
Lemma X16_witness :
  (VideoMaker.zoom_func (VideoMaker.ken_burns_motion 5) 5 2
   <= VideoMaker.zoom_func (VideoMaker.ken_burns_motion 5) 5 4)%Q
  /\ (VideoMaker.zoom_func (VideoMaker.ken_burns_motion 5) 5 5 == 1.15)%Q.
Proof.
  split.
  - apply (X16_ken_burns_motion 5 2 4); vm_compute; discriminate.
  - apply (proj1 (proj2 (proj2 (proj2 (X16_ken_burns_motion 5 5 5
                                          ltac:(vm_compute; discriminate)
                                          ltac:(vm_compute; discriminate)
                                          ltac:(vm_compute; discriminate))))
                    eq_refl)).
Defined.

(** ** Slideshows *)

Section Slideshow.

Import VideoMaker video_maker.

Local Open Scope Q_scope.

Variable E : env.
Variable w : world.
Variables duration_per_image transition_duration : Q.

(** The effects [create_slideshow] gives the clip of image [k]. *)
Local Abbreviation slide_fx k :=
  ([Resize] ++ (if (k =? 0)%nat then [FadeIn transition_duration] else [])
   ++ [FadeOut transition_duration]).



End Slideshow.



(** ** A voice provider that cannot be set up *)

Section NoVoice.

Import VideoMaker.


End NoVoice.



(** ** Transitions that are not there *)

Section Transitions.

Import VideoMaker.

Lemma add_transitions_length (n : nat) (clips : list clip) :
  forall transitions i,
    List.length (add_transitions n i clips transitions)
    = Nat.min (List.length clips) (List.length transitions).
Proof.
  induction clips as [|c clips IH]; intros [|t transitions] i;
    try reflexivity.
  cbn [add_transitions List.length]. rewrite IH. reflexivity.
Qed.

Lemma add_transitions_lookup (n : nat) (clips : list clip) :
  forall transitions i k c',
    add_transitions n i clips transitions !! k = Some c' ->
    exists c,
      clips !! k = Some c
      /\ clip_scene c' = clip_scene c /\ clip_image c' = clip_image c
      /\ clip_duration c' = clip_duration c
      /\ clip_fx c'
         = clip_fx c ++ (if (i + k =? 0)%nat then [FadeIn 0.5] else [])
           ++ [FadeOut 0.5].
Proof.
  induction clips as [|c clips IH]; intros [|t transitions] i k c' Hk;
    try discriminate.
  cbn [add_transitions] in Hk. destruct k as [|k].
  - injection Hk as <-. exists c. split; [reflexivity|].
    rewrite Nat.add_0_r.
    destruct (i =? 0)%nat, (i =? n - 1)%nat; cbn;
      rewrite <- ?app_assoc; auto.
  - cbn in Hk. apply IH in Hk as (c0 & H1 & H2).
    exists c0. split; [exact H1|]. rewrite Nat.add_succ_r. exact H2.
Qed.

(** The kinds of transition are never looked at. *)
Lemma add_transitions_kinds (n : nat) (clips : list clip) :
  forall transitions transitions' i,
    List.length transitions = List.length transitions' ->
    add_transitions n i clips transitions
    = add_transitions n i clips transitions'.
Proof.
  induction clips as [|c clips IH];
    intros [|t transitions] [|t' transitions'] i Hlen;
    try reflexivity; try discriminate.
  cbn [add_transitions]. f_equal. apply IH.
  cbn in Hlen. lia.
Qed.

End Transitions.

(** X19.  [_concatenate_with_transitions] pairs clips and transitions
    with [zip]: given at least two clips and at least one transition, the
    video shows only the first [min(len(clips), len(transitions))] clips,
    in order and with their durations, so a list of transitions that is
    too short silently drops the clips at the end.  With no transition at
    all the clips are joined as they are, without any fade.  What the
    transitions say ("fade", "cut", "zoom", ...) has no influence: two
    lists of the same length give the same video. *)
Theorem X19_transitions_zip (clips : list clip) (transitions : list string) :
  2 <= List.length clips ->
  (1 <= List.length transitions ->
   exists segments,
     VideoMaker._concatenate_with_transitions clips transitions
     = Some segments
     /\ List.length segments
        = Nat.min (List.length clips) (List.length transitions)
     /\ forall k s,
          segments !! k = Some s ->
          exists c,
            clips !! k = Some c
            /\ clip_image (seg_clip s) = clip_image c
            /\ clip_duration (seg_clip s) = clip_duration c
            /\ clip_fx (seg_clip s)
               = clip_fx c ++ (if k =? 0 then [FadeIn 0.5] else [])
                 ++ [FadeOut 0.5])
  /\ VideoMaker._concatenate_with_transitions clips []
     = Some (VideoMaker.concatenate_videoclips clips)
  /\ (forall transitions',
        List.length transitions = List.length transitions' ->
        VideoMaker._concatenate_with_transitions clips transitions
        = VideoMaker._concatenate_with_transitions clips transitions').
Proof.
  intros Hn.
  destruct clips as [|c1 [|c2 clips]]; cbn in Hn; try lia.
  split; [|split].
  - intros Ht. unfold VideoMaker._concatenate_with_transitions.
    pose proof (add_transitions_length (List.length (c1 :: c2 :: clips))
                  (c1 :: c2 :: clips) transitions 0) as Hlen.
    pose proof (add_transitions_lookup (List.length (c1 :: c2 :: clips))
                  (c1 :: c2 :: clips) transitions 0) as Hlook.
    destruct (VideoMaker.add_transitions (List.length (c1 :: c2 :: clips)) 0
                (c1 :: c2 :: clips) transitions) as [|p processed].
    + exfalso. cbn [List.length] in Hlen. lia.
    + eexists. split; [reflexivity|].
      unfold VideoMaker.concatenate_videoclips. rewrite place_length.
      split; [exact Hlen|].
      intros k s Hk. apply place_lookup in Hk.
      apply Hlook in Hk as (c & H1 & _ & H3 & H4 & H5).
      exists c. auto.
  - destruct clips; reflexivity.
  - intros transitions' Hlen.
    unfold VideoMaker._concatenate_with_transitions.
    rewrite (add_transitions_kinds _ _ transitions transitions' 0 Hlen).
    reflexivity.
Qed.

(** X19 on three clips and a single transition: one clip is left. *)
Lemma X19_witness :
  exists segments,
    VideoMaker._concatenate_with_transitions
      [Demo.still 0; Demo.still 1; Demo.still 2] ["fade"] = Some segments
    /\ List.length segments = 1.
Proof.
  destruct (proj1 (X19_transitions_zip
                     [Demo.still 0; Demo.still 1; Demo.still 2] ["fade"]
                     ltac:(cbn; lia)) ltac:(cbn; lia))
    as (segments & Hrun & Hlen & _).
  exists segments. split; [exact Hrun|exact Hlen].
Defined.

(** ** Which provider is selected does not decide whether there is a
    voice *)

Section FiveProviders.

Variable E : env.



End FiveProviders.



(** ** Every scene has its own narration file *)

Section NarrationContent.

Import VideoMaker.

Variable E : env.

Lemma string_app_inv_tail (s1 s2 t : string) :
  (s1 ++ t)%string = (s2 ++ t)%string -> s1 = s2.
Proof.
  intros H. apply (f_equal list_ascii_of_string) in H.
  rewrite !list_ascii_of_string_app in H. apply app_inv_tail in H.
  apply (f_equal string_of_list_ascii) in H.
  rewrite !string_of_list_ascii_of_string in H. exact H.
Qed.

Lemma tts_path_inj (i j : nat) : tts_path i = tts_path j -> i = j.
Proof.
  unfold tts_path. intros H.
  apply String.app_inj in H. apply string_app_inv_tail in H.
  apply pretty_nat_inj in H. lia.
Qed.

Lemma tts_path_in_directory (i : nat) : dirname (tts_path i) <> "".
Proof.
  apply dirname_with_slash. unfold tts_path.
  rewrite bare_filename_app. reflexivity.
Qed.

Lemma voice_try_providers_first (text : pystr) (output_path : string)
    (providers : list string) :
  forall last w res w',
    VoiceGenerator.try_providers E providers text output_path last w
    = (res, w') ->
    match first_voice E text providers with
    | Some audio =>
        res = Ok output_path /\ fs w' = <[output_path := audio]> (fs w)
    | None => is_ok res = false /\ fs w' = fs w
    end.
Proof.
  induction providers as [|provider rest IH]; intros last w res w' Hrun.
  - injection Hrun as <- <-. split; reflexivity.
  - cbn [VoiceGenerator.try_providers first_voice] in *.
    destruct (VoiceGenerator.known_provider provider); [|eapply IH; eauto].
    unfold VoiceGenerator.call_adapter in Hrun.
    destruct (tts_backend E provider text) as [audio|reason].
    + injection Hrun as <- <-. split; reflexivity.
    + apply IH in Hrun. exact Hrun.
Qed.

Lemma generate_voice_first (self_provider : string) (text : pystr)
    (output_path : string) (w : world) (res : result string) (w' : world) :
  dirname output_path <> "" ->
  VoiceGenerator.generate_voice E self_provider text output_path w
  = (res, w') ->
  match scene_voice E self_provider text with
  | Some audio =>
      res = Ok output_path /\ fs w' = <[output_path := audio]> (fs w)
  | None => is_ok res = false /\ fs w' = fs w
  end.
Proof.
  intros Hd Hrun. unfold scene_voice.
  destruct (blank text) eqn:Hb.
  - destruct (blank_rejected E self_provider text output_path w Hb)
      as [msg Hraise].
    rewrite Hraise in Hrun. injection Hrun as <- <-. split; reflexivity.
  - rewrite generate_voice_loop in Hrun by assumption.
    apply voice_try_providers_first in Hrun. exact Hrun.
Qed.

Lemma tts_loop_content (self_provider : string) (scene_texts : list pystr) :
  forall i tts_files w,
    exists added w',
      tts_loop E self_provider i scene_texts tts_files w
      = (tts_files ++ added, w')
      /\ forall k text,
           scene_texts !! k = Some text ->
           match scene_voice E self_provider text with
           | Some audio =>
               added !! k = Some (Some (tts_path (i + k)))
               /\ fs w' !! tts_path (i + k) = Some audio
           | None =>
               added !! k = Some None
               /\ fs w' !! tts_path (i + k) = fs w !! tts_path (i + k)
           end.
Proof.
  induction scene_texts as [|text rest IH]; intros i tts_files w.
  - exists [], w. rewrite app_nil_r. split; [reflexivity|].
    intros k text Hk. discriminate.
  - (* the entry and the disk after the first scene *)
    assert (Hfirst : exists entry w1,
               (forall later,
                   tts_loop E self_provider i (text :: later) tts_files w
                   = tts_loop E self_provider (S i) later
                       (tts_files ++ [entry]) w1)
               /\ (forall p, p <> tts_path i -> fs w1 !! p = fs w !! p)
               /\ match scene_voice E self_provider text with
                  | Some audio =>
                      entry = Some (tts_path i)
                      /\ fs w1 !! tts_path i = Some audio
                  | None =>
                      entry = None /\ fs w1 !! tts_path i = fs w !! tts_path i
                  end).
    { destruct (truthy text && truthy (strip text)) eqn:Hspoken.
      - destruct (VoiceGenerator.generate_voice E self_provider text
                    (tts_path i) (emit (EvMakeDirs "temp") w))
          as [res w1] eqn:Hg.
        pose proof (generate_voice_disk E _ _ _ _ _ _ Hg) as (Hf & _).
        pose proof (generate_voice_first _ _ _ _ _ _
                      (tts_path_in_directory i) Hg) as Hv.
        destruct (scene_voice E self_provider text) as [audio|].
        + destruct Hv as [-> Hfs]. exists (Some (tts_path i)), w1.
          split; [intros later; cbn [tts_loop]; rewrite Hspoken, Hg;
                  reflexivity|].
          split; [exact Hf|]. split; [reflexivity|].
          rewrite Hfs. apply lookup_insert_eq.
        + destruct Hv as [Hres Hfs]. exists None, w1.
          split; [|split; [exact Hf|split; [reflexivity|]]].
          * intros later. cbn [tts_loop]. rewrite Hspoken, Hg.
            destruct res; [discriminate Hres|reflexivity].
          * rewrite Hfs. reflexivity.
      - exists None, w.
        split; [intros later; cbn [tts_loop]; rewrite Hspoken; reflexivity|].
        split; [auto|].
        assert (Hb : blank text = true).
        { destruct (blank text) eqn:Hb; [reflexivity|].
          apply blank_truthy in Hb as [H1 H2].
          rewrite H1, H2 in Hspoken. discriminate. }
        unfold scene_voice. rewrite Hb. split; reflexivity. }
    destruct Hfirst as (entry & w1 & Hstep & Hframe & Hentry).
    destruct (IH (S i) (tts_files ++ [entry]) w1)
      as (added & w' & Hrun & Hrest).
    destruct (tts_loop_disk E self_provider rest (S i) (tts_files ++ [entry])
                w1) as (added' & w'' & Hrun' & _ & Hlater & _).
    rewrite Hrun in Hrun'. injection Hrun' as _ <-.
    exists (entry :: added), w'.
    rewrite Hstep, Hrun, <- app_assoc. split; [reflexivity|].
    intros [|k] text0 Hk.
    + injection Hk as <-. rewrite Nat.add_0_r.
      assert (Hsame : fs w' !! tts_path i = fs w1 !! tts_path i).
      { apply Hlater. intros j _ Heq. apply tts_path_inj in Heq. lia. }
      rewrite Hsame.
      destruct (scene_voice E self_provider text) as [audio|];
        destruct Hentry as [-> Hfs]; split; auto.
    + cbn in Hk. specialize (Hrest k text0 Hk).
      rewrite Nat.add_succ_r.
      destruct (scene_voice E self_provider text0) as [audio|];
        [exact Hrest|].
      destruct Hrest as [Ha Hfs]. split; [exact Ha|].
      cbn [Nat.add] in Hfs. rewrite Hfs. apply Hframe.
      intros Heq. apply tts_path_inj in Heq. lia.
Qed.

End NarrationContent.

(** X21.  The narration files of different scenes are different files,
    and after the narration step of [_create_video_with_tts] each scene
    has the narration of its own text: when [VoiceGenerator] could be set
    up for the chosen provider, the entry of scene [k] is
    [temp/scene_<k+1>_tts.mp3] and that file holds the audio of the first
    provider in the fallback order that can speak the stripped text of
    scene [k]; for a blank text, or when no provider can speak it, the
    entry is [None]. *)
Theorem X21_narration_content (E : env) (vs : VideoMaker.voice_settings)
    (self_provider : string) (scene_texts : list pystr) (w : world) :
  VideoMaker.vs_provider vs <> Some "none" ->
  VoiceGenerator.init E (default "edge" (VideoMaker.vs_provider vs))
    (VideoMaker.vs_api_key vs) = Ok self_provider ->
  (forall i j, VideoMaker.tts_path i = VideoMaker.tts_path j -> i = j)
  /\ forall k text,
       scene_texts !! k = Some text ->
       let '(tts_files, w') :=
         VideoMaker.generate_tts_files E (Some vs) scene_texts w in
       match scene_voice E self_provider text with
       | Some audio =>
           tts_files !! k = Some (Some (VideoMaker.tts_path k))
           /\ fs w' !! VideoMaker.tts_path k = Some audio
       | None => tts_files !! k = Some None
       end.
Proof.
  intros Hnone Hinit. split; [apply tts_path_inj|].
  intros k text Hk. unfold VideoMaker.generate_tts_files.
  assert (Hoff : match VideoMaker.vs_provider vs with
                 | Some p => String.eqb p "none"
                 | None => false
                 end = false).
  { destruct (VideoMaker.vs_provider vs) as [p|]; [|reflexivity].
    apply String.eqb_neq. congruence. }
  rewrite Hoff, Hinit.
  destruct (tts_loop_content E self_provider scene_texts 0 [] w)
    as (added & w' & -> & Hcontent).
  specialize (Hcontent k text Hk). cbn [app Nat.add] in *.
  destruct (scene_voice E self_provider text); [exact Hcontent|].
  apply Hcontent.
Qed.

(** X21 in the sample studio, where Edge speaks the text of the second
    scene only. *)
Lemma X21_witness :
  let '(tts_files, w') :=
    VideoMaker.generate_tts_files Demo.studio Demo.edge_voice
      [lit "one"; lit "two"; []] Demo.three_images in
  tts_files !! 1 = Some (Some (VideoMaker.tts_path 1))
  /\ fs w' !! VideoMaker.tts_path 1 = Some (Demo.blob 72).
Proof.
  apply (proj2 (X21_narration_content Demo.studio
                  (VideoMaker.VoiceSettings (Some "edge") false) "edge"
                  [lit "one"; lit "two"; []] Demo.three_images
                  ltac:(discriminate) eq_refl) 1 (lit "two") eq_refl).
Defined.

(** ** The image step of the application *)

Section AppImages.

Import ImageGenerator.

Variable E : env.
Variable self_provider : string.



End AppImages.



(** ** A video needs one usable scene *)

Section UsableScene.

Import VideoMaker.

Variable E : env.



End UsableScene.


